(** * STM32 resource-isolation firewall drivers: RIF, RIFSC, RISAF, ETZPC

    Shallow embedding of the access-arbitration code of
    [core/drivers/firewall/stm32_rif.c], [stm32_rifsc.c], [stm32_risaf.c]
    and [stm32_etzpc.c], with the properties proved about it.

    Machine integers are [Z] with the wrap-around written out; registers
    are reached through an MMIO monad whose runs are logged as a trace of
    read and write events, so that "no register is written" is a statement
    about the trace. *)

From Stdlib Require Import ZArith List Bool Lia.
From stdpp Require Import base list.
Import ListNotations.

Local Open Scope Z_scope.
Local Open Scope bool_scope.

(* ===================================================================== *)
(** * Part I: definitions *)
(* ===================================================================== *)

(** ** 32-bit words *)

Definition wrap32 (x : Z) : Z := x mod 2 ^ 32.

Definition in_u32 (x : Z) : Prop := 0 <= x < 2 ^ 32.

(** C truth value of a word: non-zero. *)
Definition nz (x : Z) : bool := negb (x =? 0).

(** [~x] on a [uint32_t]. *)
Definition not32 (x : Z) : Z := Z.lxor (wrap32 x) 0xFFFFFFFF.

(** Modelled from the spec: [util.h] is not among the sources. [BIT(nr)] is
    the single-bit mask [UINT32_C(1) << nr] and [GENMASK_32(h, l)] the mask
    of bits [l..h] of a 32-bit word. The C shifts behind them are defined
    for bit positions 0 to 31 only, and that is the range in which these
    definitions stand for the macros: a statement that depends on the value
    of a mask keeps its bit positions in that range. *)
Definition BIT (nr : Z) : Z := wrap32 (Z.shiftl 1 nr).

Definition GENMASK_32 (h l : Z) : Z :=
  Z.land (wrap32 (Z.shiftl 0xFFFFFFFF l)) (Z.shiftr 0xFFFFFFFF (32 - 1 - h)).

(** [__builtin_clz] on a non-zero 32-bit word. *)
Definition clz32 (x : Z) : Z := 31 - Z.log2 x.

(** ** Result codes *)

Inductive TEE_Result : Type :=
| TEE_SUCCESS
| TEE_ERROR_GENERIC
| TEE_ERROR_ACCESS_DENIED
| TEE_ERROR_BAD_PARAMETERS
| TEE_ERROR_ITEM_NOT_FOUND
| TEE_ERROR_NOT_SUPPORTED
| TEE_ERROR_OUT_OF_MEMORY
| TEE_ERROR_DEFER_DRIVER_INIT.

Definition TEE_Result_eqb (a b : TEE_Result) : bool :=
  match a, b with
  | TEE_SUCCESS, TEE_SUCCESS
  | TEE_ERROR_GENERIC, TEE_ERROR_GENERIC
  | TEE_ERROR_ACCESS_DENIED, TEE_ERROR_ACCESS_DENIED
  | TEE_ERROR_BAD_PARAMETERS, TEE_ERROR_BAD_PARAMETERS
  | TEE_ERROR_ITEM_NOT_FOUND, TEE_ERROR_ITEM_NOT_FOUND
  | TEE_ERROR_NOT_SUPPORTED, TEE_ERROR_NOT_SUPPORTED
  | TEE_ERROR_OUT_OF_MEMORY, TEE_ERROR_OUT_OF_MEMORY
  | TEE_ERROR_DEFER_DRIVER_INIT, TEE_ERROR_DEFER_DRIVER_INIT => true
  | _, _ => false
  end.

(** [if (res)] on a [TEE_Result]: any code but success. *)
Definition is_error (r : TEE_Result) : bool := negb (TEE_Result_eqb r TEE_SUCCESS).

(** ** The MMIO monad

    A driver routine is a tree of register reads and writes that ends in a
    value or in [panic()]. *)

Inductive mmio (A : Type) : Type :=
| Ret (a : A)
| Panic
| Read32 (addr : Z) (k : Z -> mmio A)
| Write32 (addr val : Z) (k : mmio A)
| Read8 (addr : Z) (k : Z -> mmio A).

Arguments Ret {A} a.
Arguments Panic {A}.
Arguments Read32 {A} addr k.
Arguments Write32 {A} addr val k.
Arguments Read8 {A} addr k.

Fixpoint bind {A B : Type} (m : mmio A) (f : A -> mmio B) : mmio B :=
  match m with
  | Ret a => f a
  | Panic => Panic
  | Read32 addr k => Read32 addr (fun v => bind (k v) f)
  | Write32 addr val k => Write32 addr val (bind k f)
  | Read8 addr k => Read8 addr (fun v => bind (k v) f)
  end.

Notation "x <- m ;; k" := (bind m (fun x => k))
  (at level 100, m at next level, right associativity).
Notation "m ;;; k" := (bind m (fun _ => k))
  (at level 100, right associativity).

(** The hardware behind the registers. A read may change the device state:
    another compartment can take or drop a semaphore between two accesses. *)
Record device : Type := {
  hw : Type;
  hw_read : hw -> Z -> Z * hw;
  hw_write : hw -> Z -> Z -> hw
}.

Inductive event : Type :=
| EvRead (addr val : Z)
| EvWrite (addr val : Z)
| EvRead8 (addr val : Z).

Inductive outcome (A : Type) : Type :=
| Done (a : A)
| Panicked.

Arguments Done {A} a.
Arguments Panicked {A}.

(** Running a routine on a device: the outcome, the final device state and
    the register accesses in program order. A read yields a 32-bit word, a
    byte read the low eight bits of what the device answers. *)
Fixpoint run {A : Type} (d : device) (m : mmio A) (s : hw d)
  : outcome A * hw d * list event :=
  match m with
  | Ret a => (Done a, s, [])
  | Panic => (Panicked, s, [])
  | Read32 addr k =>
      let '(v, s1) := hw_read d s addr in
      let '(r, s2, t) := run d (k (wrap32 v)) s1 in
      (r, s2, EvRead addr (wrap32 v) :: t)
  | Write32 addr val k =>
      let '(r, s2, t) := run d k (hw_write d s addr val) in
      (r, s2, EvWrite addr val :: t)
  | Read8 addr k =>
      let '(v, s1) := hw_read d s addr in
      let '(r, s2, t) := run d (k (v mod 2 ^ 8)) s1 in
      (r, s2, EvRead8 addr (v mod 2 ^ 8) :: t)
  end.

Definition is_write (e : event) : bool :=
  match e with EvWrite _ _ => true | EvRead _ _ | EvRead8 _ _ => false end.

Definition writes_of (t : list event) : list event := filter (fun e => is_write e = true) t.

(** A plain register file: every register keeps the last value written. *)
Definition regfile : device := {|
  hw := Z -> Z;
  hw_read := fun m a => (m a, m);
  hw_write := fun m a v => fun a' => if a' =? a then v else m a'
|}.

(** Modelled from the spec: [io.h] is not among the sources; the MMIO
    intrinsics are the provided platform-abstraction layer. The set/clear
    helpers are read-modify-write sequences on one register. *)
Definition io_read32 (addr : Z) : mmio Z := Read32 addr (fun v => Ret v).

Definition io_write32 (addr val : Z) : mmio unit := Write32 addr val (Ret tt).

Definition io_read8 (addr : Z) : mmio Z := Read8 addr (fun v => Ret v).

Definition io_setbits32 (addr set_mask : Z) : mmio unit :=
  v <- io_read32 addr ;; io_write32 addr (Z.lor v set_mask).

Definition io_clrbits32 (addr clear_mask : Z) : mmio unit :=
  v <- io_read32 addr ;; io_write32 addr (Z.land v (not32 clear_mask)).

Definition io_clrsetbits32 (addr clear_mask set_mask : Z) : mmio unit :=
  v <- io_read32 addr ;;
  io_write32 addr (Z.lor (Z.land v (not32 clear_mask)) set_mask).

(** Modelled from the spec: [stm32_shared_io.c] is not among the sources;
    the [_stm32shregs] variants take a spinlock around the same
    read-modify-write. *)
Definition io_setbits32_stm32shregs := io_setbits32.
Definition io_clrbits32_stm32shregs := io_clrbits32.
Definition io_clrsetbits32_stm32shregs := io_clrsetbits32.

(** ** [stm32_rif.h]: the CID-filtering word and the semaphore register *)

Definition _CIDCFGR_CFEN : Z := BIT 0.
Definition _CIDCFGR_SCID_SHIFT : Z := 4.
Definition _CIDCFGR_SEMEN : Z := BIT 1.
Definition _CIDCFGR_SEMWL_SHIFT : Z := 16.
Definition _CIDCFGR_SEMWL (x : Z) : Z := BIT (_CIDCFGR_SEMWL_SHIFT + x).

Definition _SEMCR_MUTEX : Z := BIT 0.
Definition _SEMCR_SEMCID_SHIFT : Z := 4.
Definition _SEMCR_SEMCID_MASK : Z := GENMASK_32 6 4.

Definition MAX_CID_BITFIELD : Z := 3.
Definition MAX_CID_SUPPORTED : Z := 7.

(** Modelled from the spec: the dt-bindings header is not among the
    sources; compartment 1 is the secure compartment running this code. *)
Definition RIF_CID0 : Z := 0.
Definition RIF_CID1 : Z := 1.

Definition SCID_OK (cidcfgr scid_m cid : Z) : bool :=
  (Z.land cidcfgr scid_m =? wrap32 (Z.shiftl cid _CIDCFGR_SCID_SHIFT))
  && negb (nz (Z.land cidcfgr _CIDCFGR_SEMEN)).

Definition SEM_EN_AND_OK (cidcfgr wl : Z) : bool :=
  nz (Z.land cidcfgr _CIDCFGR_CFEN)
  && nz (Z.land cidcfgr _CIDCFGR_SEMEN)
  && nz (Z.land cidcfgr (_CIDCFGR_SEMWL wl)).

(** The [CFG_STM32_RIF] variant. *)
Definition SEM_MODE_INCORRECT (cidcfgr : Z) : bool :=
  negb (nz (Z.land cidcfgr _CIDCFGR_CFEN))
  || negb (nz (Z.land cidcfgr _CIDCFGR_SEMEN))
  || (negb (nz (Z.land cidcfgr (_CIDCFGR_SEMWL RIF_CID1)))
      && nz (Z.land cidcfgr _CIDCFGR_SEMEN)).

(** ** [stm32_rif.c] *)

Definition msb_nb_cid_supp (nb_cid_supp : Z) : Z :=
  4 * 8 - clz32 (Z.lor nb_cid_supp 1) - 1.

Definition scid_mask_of (nb_cid_supp : Z) : Z :=
  GENMASK_32 (_CIDCFGR_SCID_SHIFT + msb_nb_cid_supp nb_cid_supp) _CIDCFGR_SCID_SHIFT.

(** The [assert()] at the head of the three routines below. *)
Definition cid_bitfield_fits (nb_cid_supp : Z) : Prop :=
  msb_nb_cid_supp nb_cid_supp < MAX_CID_BITFIELD.

Definition stm32_rif_check_access (cidcfgr semcr nb_cid_supp cid_to_check : Z)
  : TEE_Result :=
  let scid_mask := scid_mask_of nb_cid_supp in
  if negb (nz (Z.land cidcfgr _CIDCFGR_CFEN)) then TEE_SUCCESS
  else if SCID_OK cidcfgr scid_mask cid_to_check then TEE_SUCCESS
  else if SEM_EN_AND_OK cidcfgr cid_to_check
          && (negb (nz (Z.land semcr _SEMCR_MUTEX))
              || (Z.shiftr (Z.land semcr scid_mask) _CIDCFGR_SCID_SHIFT =? cid_to_check))
       then TEE_SUCCESS
  else TEE_ERROR_ACCESS_DENIED.

Definition stm32_rif_is_semaphore_available (addr : Z) : mmio bool :=
  v <- io_read32 addr ;; Ret (negb (nz (Z.land v _SEMCR_MUTEX))).

Definition stm32_rif_acquire_semaphore (addr nb_cid_supp : Z) : mmio TEE_Result :=
  let scid_mask := scid_mask_of nb_cid_supp in
  io_setbits32 addr _SEMCR_MUTEX ;;;
  avail <- stm32_rif_is_semaphore_available addr ;;
  if avail then Ret TEE_ERROR_ACCESS_DENIED
  else
    v <- io_read32 addr ;;
    if negb (Z.shiftr (Z.land v scid_mask) _CIDCFGR_SCID_SHIFT =? RIF_CID1)
    then Ret TEE_ERROR_ACCESS_DENIED
    else Ret TEE_SUCCESS.

Definition stm32_rif_release_semaphore (addr nb_cid_supp : Z) : mmio TEE_Result :=
  avail <- stm32_rif_is_semaphore_available addr ;;
  if avail then Ret TEE_SUCCESS
  else
    let scid_mask := scid_mask_of nb_cid_supp in
    io_clrbits32 addr _SEMCR_MUTEX ;;;
    avail' <- stm32_rif_is_semaphore_available addr ;;
    if avail' then Ret TEE_SUCCESS
    else
      v <- io_read32 addr ;;
      if Z.shiftr (Z.land v scid_mask) _CIDCFGR_SCID_SHIFT =? RIF_CID1
      then Ret TEE_ERROR_ACCESS_DENIED
      else Ret TEE_SUCCESS.

(** The fields of the CID-filtering word and of the semaphore register,
    as the data model names them. The static CID and the semaphore holder
    are read through the SCID mask of the supported-compartment count. *)
Definition cid_filtering_enabled (cidcfgr : Z) : bool := Z.testbit cidcfgr 0.

Definition semaphore_enabled (cidcfgr : Z) : bool := Z.testbit cidcfgr 1.

Definition static_cid (nb_cid_supp cidcfgr : Z) : Z :=
  Z.shiftr (Z.land cidcfgr (scid_mask_of nb_cid_supp)) 4.

Definition semaphore_whitelisted (cidcfgr cid : Z) : bool :=
  Z.testbit cidcfgr (16 + cid).

Definition semaphore_taken (semcr : Z) : bool := Z.testbit semcr 0.

Definition semaphore_holder (nb_cid_supp semcr : Z) : Z :=
  Z.shiftr (Z.land semcr (scid_mask_of nb_cid_supp)) 4.

(** ** Device-tree cell layout

    The dt-bindings header that lays out a 32-bit configuration cell is not
    among the sources, so the layout is a parameter of everything below. *)

Record rif_bindings : Type := {
  RIF_PER_ID_MASK : Z;
  RIF_PER_ID_SHIFT : Z;
  RIF_PRIV_SHIFT : Z;
  RIF_SEC_SHIFT : Z;
  RIF_LOCK_SHIFT : Z;
  RIF_PERx_CID_MASK : Z;
  RIF_PERx_CID_SHIFT : Z;
  RIF_SCID_MASK : Z;
  RIF_SCID_SHIFT : Z;
  RIMU_ID_OFFSET : Z;
  RIMUPROT_RIMC_M_ID_MASK : Z;
  RIMUPROT_RIMC_M_ID_SHIFT : Z;
  RIMUPROT_RIMC_ATTRx_MASK : Z;
  RIMUPROT_RIMC_ATTRx_SHIFT : Z
}.

(** [_RIF_FLD_GET(field, value)]. *)
Definition _RIF_FLD_GET (mask shift value : Z) : Z :=
  Z.shiftr (Z.land (wrap32 value) mask) shift.

(** Modelled from the spec: a cell carries the resource index, the
    privilege, security and lock flags and the packed CID word; the fields
    are named there but not placed. This is one placement that the code
    accepts, used to run the routines on concrete cells: resource index in
    bits 7..0, the CIDCFGR image in bits 31..8 and the privilege, security
    and lock flags in the reserved bits 10, 11 and 15 of the cell. *)
Definition sample_bindings : rif_bindings := {|
  RIF_PER_ID_MASK := GENMASK_32 7 0;
  RIF_PER_ID_SHIFT := 0;
  RIF_PRIV_SHIFT := 10;
  RIF_SEC_SHIFT := 11;
  RIF_LOCK_SHIFT := 15;
  RIF_PERx_CID_MASK := 0xFF007300;
  RIF_PERx_CID_SHIFT := 8;
  RIF_SCID_MASK := GENMASK_32 14 12;
  RIF_SCID_SHIFT := 12;
  RIMU_ID_OFFSET := 0xF0;
  RIMUPROT_RIMC_M_ID_MASK := GENMASK_32 7 0;
  RIMUPROT_RIMC_M_ID_SHIFT := 0;
  RIMUPROT_RIMC_ATTRx_MASK := 0x00037400;
  RIMUPROT_RIMC_ATTRx_SHIFT := 8
|}.

(** ** [stm32_rif.c]: parsing one configuration cell *)

Record rif_conf_data : Type := {
  access_mask : list Z;
  sec_conf : list Z;
  priv_conf : list Z;
  cid_confs : list Z;
  lock_conf : option (list Z)
}.

(** [arr[idx] |= bits]. The tables are allocated by the caller for
    [nb_resource] entries; a store outside the table is undefined in C and
    leaves the list unchanged here. *)
Definition or_word (arr : list Z) (idx bits : Z) : list Z :=
  alter (fun w => Z.lor w bits) (Z.to_nat idx) arr.

Definition stm32_rif_parse_cfg (b : rif_bindings) (rif_conf : Z)
  (conf_data : rif_conf_data) (nb_cid_supp nb_resource : Z) : outcome rif_conf_data :=
  if MAX_CID_SUPPORTED <? nb_cid_supp then Panicked
  else
    let resource_id := Z.land rif_conf (RIF_PER_ID_MASK b) in
    if nb_resource <=? resource_id then Panicked
    else
      let conf_index := resource_id / 32 in
      let priv' :=
        if nz (Z.land rif_conf (BIT (RIF_PRIV_SHIFT b)))
        then or_word (priv_conf conf_data) conf_index (BIT resource_id)
        else priv_conf conf_data in
      let sec' :=
        if nz (Z.land rif_conf (BIT (RIF_SEC_SHIFT b)))
        then or_word (sec_conf conf_data) conf_index (BIT resource_id)
        else sec_conf conf_data in
      let lock' :=
        match lock_conf conf_data with
        | Some l =>
            if nz (Z.land rif_conf (BIT (RIF_LOCK_SHIFT b)))
            then Some (or_word l conf_index (BIT resource_id))
            else Some l
        | None => None
        end in
      let cid' :=
        <[Z.to_nat resource_id :=
            Z.shiftr (Z.land rif_conf (RIF_PERx_CID_MASK b)) (RIF_PERx_CID_SHIFT b)]>
          (cid_confs conf_data) in
      let access' := or_word (access_mask conf_data) conf_index (BIT resource_id) in
      Done {| access_mask := access';
              sec_conf := sec';
              priv_conf := priv';
              cid_confs := cid';
              lock_conf := lock' |}.

(** ** [stm32_rifsc.c] *)

Definition _RIFSC_RISC_SECCFGR0 : Z := 0x10.
Definition _RIFSC_RISC_PRIVCFGR0 : Z := 0x30.
Definition _RIFSC_RISC_RCFGLOCKR0 : Z := 0x50.
Definition _RIFSC_RISC_PER0_CIDCFGR : Z := 0x100.
Definition _RIFSC_RISC_PER0_SEMCR : Z := 0x104.
Definition _RIFSC_RIMC_CR : Z := 0xC00.
Definition _RIFSC_RIMC_ATTR0 : Z := 0xC10.

Definition _PERIPH_IDS_PER_REG : Z := 32.
Definition _OFFSET_PERX_CIDCFGR : Z := 0x8.

Definition RIFSC_RISC_CIDCFGR_CFEN_MASK : Z := BIT 0.
Definition RIFSC_RISC_CIDCFGR_SEM_EN_MASK : Z := BIT 1.
Definition RIFSC_RISC_CIDCFGR_SCID_MASK : Z := GENMASK_32 6 4.
Definition RIFSC_RISC_CIDCFGR_SCID_SHIFT : Z := 4.
Definition RIFSC_RISC_CIDCFGR_SEML_SHIFT : Z := 16.

Definition RIFSC_RIMC_CIDSEL_MASK : Z := BIT 2.
Definition RIFSC_RIMC_MCID_MASK : Z := GENMASK_32 6 4.
Definition RIFSC_RIMC_MCID_SHIFT : Z := 4.

Record rifsc_driver_data : Type := {
  nb_rimu : Z;
  nb_risup : Z;
  rif_en : bool;
  sec_en : bool;
  priv_en : bool
}.

Record risup_cfg : Type := {
  cid_attr : Z;
  id : Z;
  sec : bool;
  priv : bool;
  lock : bool;
  pm_sem : bool
}.

Record rimu_cfg : Type := {
  rimu_id : Z;
  rimu_risup_id : Z;
  rimu_attr : Z
}.

(** The file-scope [rifsc_pdata] with its [rifsc_drvdata]. [rimu_risup] is
    the SoC table pairing a RIMU with its RISUP; its entries come from the
    missing bindings header. [insecure] is [IS_ENABLED(CFG_INSECURE)]. *)
Record rifsc_platdata : Type := {
  base : Z;
  drv_data : rifsc_driver_data;
  risup : list risup_cfg;
  nrisup : Z;
  is_tdcid : bool;
  errata_ahbrisab : bool;
  rimu_risup : list (Z * Z);
  insecure : bool
}.

Definition set_risup (pdata : rifsc_platdata) (l : list risup_cfg) : rifsc_platdata :=
  {| base := base pdata; drv_data := drv_data pdata; risup := l;
     nrisup := nrisup pdata; is_tdcid := is_tdcid pdata;
     errata_ahbrisab := errata_ahbrisab pdata; rimu_risup := rimu_risup pdata;
     insecure := insecure pdata |}.

(** Register addresses of one RISUP. *)
Definition risup_word_offset (id : Z) : Z := 4 * (id / _PERIPH_IDS_PER_REG).
Definition risup_shift (id : Z) : Z := id mod _PERIPH_IDS_PER_REG.
Definition seccfgr_addr (rifsc_base id : Z) : Z :=
  rifsc_base + _RIFSC_RISC_SECCFGR0 + risup_word_offset id.
Definition privcfgr_addr (rifsc_base id : Z) : Z :=
  rifsc_base + _RIFSC_RISC_PRIVCFGR0 + risup_word_offset id.
Definition rcfglockr_addr (rifsc_base id : Z) : Z :=
  rifsc_base + _RIFSC_RISC_RCFGLOCKR0 + risup_word_offset id.
Definition cidcfgr_addr (rifsc_base id : Z) : Z :=
  rifsc_base + _RIFSC_RISC_PER0_CIDCFGR + _OFFSET_PERX_CIDCFGR * id.
Definition semcr_addr (rifsc_base id : Z) : Z :=
  rifsc_base + _RIFSC_RISC_PER0_SEMCR + _OFFSET_PERX_CIDCFGR * id.

(** [if (cond) stmt;] *)
Definition when (c : bool) (m : mmio unit) : mmio unit := if c then m else Ret tt.

Definition stm32_risup_cfg (pdata : rifsc_platdata) (r : risup_cfg) : mmio TEE_Result :=
  let drv := drv_data pdata in
  let shift := risup_shift (id r) in
  if nb_risup drv <=? id r then Ret TEE_ERROR_BAD_PARAMETERS
  else
    when (sec_en drv)
      (io_clrsetbits32_stm32shregs (seccfgr_addr (base pdata) (id r)) (BIT shift)
         (wrap32 (Z.shiftl (Z.b2z (sec r)) shift))) ;;;
    when (priv_en drv)
      (io_clrsetbits32_stm32shregs (privcfgr_addr (base pdata) (id r)) (BIT shift)
         (wrap32 (Z.shiftl (Z.b2z (priv r)) shift))) ;;;
    when (is_tdcid pdata)
      (when (rif_en drv) (io_write32 (cidcfgr_addr (base pdata) (id r)) (cid_attr r)) ;;;
       when (lock r)
         (io_setbits32_stm32shregs (rcfglockr_addr (base pdata) (id r)) (BIT shift))) ;;;
    if SEM_MODE_INCORRECT (cid_attr r)
    then
      res <- stm32_rif_release_semaphore (semcr_addr (base pdata) (id r)) MAX_CID_SUPPORTED ;;
      if is_error res then Ret TEE_ERROR_ACCESS_DENIED else Ret TEE_SUCCESS
    else
      seccfgr <- io_read32 (seccfgr_addr (base pdata) (id r)) ;;
      if negb (nz (Z.land seccfgr (BIT shift)))
      then
        res <- stm32_rif_release_semaphore (semcr_addr (base pdata) (id r)) MAX_CID_SUPPORTED ;;
        if is_error res then Ret TEE_ERROR_ACCESS_DENIED else Ret TEE_SUCCESS
      else
        res <- stm32_rif_acquire_semaphore (semcr_addr (base pdata) (id r)) MAX_CID_SUPPORTED ;;
        if is_error res then Ret TEE_ERROR_ACCESS_DENIED else Ret TEE_SUCCESS.

Definition set_rimu_risup_id (rimu : rimu_cfg) (rid : Z) : rimu_cfg :=
  {| rimu_id := rimu_id rimu; rimu_risup_id := rid; rimu_attr := rimu_attr rimu |}.

(** [if (!IS_ENABLED(CFG_INSECURE)) panic();] *)
Definition panic_unless_insecure (pdata : rifsc_platdata) : mmio unit :=
  if insecure pdata then Ret tt else Panic.

Definition stm32_rimu_errata_ahbrisab (pdata : rifsc_platdata) (rimu : rimu_cfg)
  : mmio rimu_cfg :=
  if negb (errata_ahbrisab pdata) then Ret rimu
  else
    let rimu :=
      match find (fun p => fst p =? rimu_id rimu) (rimu_risup pdata) with
      | Some p => set_rimu_risup_id rimu (snd p)
      | None => rimu
      end in
    if nz (Z.land (rimu_attr rimu) RIFSC_RIMC_CIDSEL_MASK) then
      when (Z.shiftr (Z.land (rimu_attr rimu) RIFSC_RIMC_MCID_MASK) RIFSC_RIMC_MCID_SHIFT
            =? RIF_CID0)
        (panic_unless_insecure pdata) ;;;
      Ret rimu
    else if rimu_risup_id rimu =? 0 then
      panic_unless_insecure pdata ;;; Ret rimu
    else
      match find (fun r => rimu_risup_id rimu =? id r)
                 (take (Z.to_nat (nrisup pdata)) (risup pdata)) with
      | None => Panic
      | Some r =>
          risup_cidcfgr <- io_read32 (cidcfgr_addr (base pdata) (id r)) ;;
          when (negb (nz (Z.land risup_cidcfgr RIFSC_RISC_CIDCFGR_CFEN_MASK))
                || (negb (nz (Z.land risup_cidcfgr RIFSC_RISC_CIDCFGR_SEM_EN_MASK))
                    && (Z.shiftr (Z.land risup_cidcfgr RIFSC_RISC_CIDCFGR_SCID_MASK)
                          RIFSC_RISC_CIDCFGR_SCID_SHIFT =? RIF_CID0))
                || (nz (Z.land risup_cidcfgr RIFSC_RISC_CIDCFGR_SEM_EN_MASK)
                    && nz (Z.land risup_cidcfgr (BIT RIFSC_RISC_CIDCFGR_SEML_SHIFT))))
            (panic_unless_insecure pdata) ;;;
          Ret rimu
      end.

Definition stm32_rimu_cfg (pdata : rifsc_platdata) (rimu : rimu_cfg) : mmio TEE_Result :=
  let offset := _RIFSC_RIMC_ATTR0 + 4 * rimu_id rimu in
  if nb_rimu (drv_data pdata) <=? rimu_id rimu then Ret TEE_ERROR_BAD_PARAMETERS
  else
    rimu <- stm32_rimu_errata_ahbrisab pdata rimu ;;
    when (rif_en (drv_data pdata)) (io_write32 (base pdata + offset) (rimu_attr rimu)) ;;;
    Ret TEE_SUCCESS.

Definition set_risup_attrs (r : risup_cfg) (attr : Z) (s p : bool) : risup_cfg :=
  {| cid_attr := attr; id := id r; sec := s; priv := p; lock := lock r;
     pm_sem := pm_sem r |}.

(** The routine works on the table entry [rifsc_pdata.risup[risup_id]] in
    place, so the table comes back with the result. An index past the end
    of the table is undefined in C; the model stops there. *)
Definition stm32_rifsc_reconfigure_risup (pdata : rifsc_platdata)
  (risup_id cid : Z) (sec priv cfen : bool) : mmio (TEE_Result * rifsc_platdata) :=
  let offset := 4 * (risup_id / _PERIPH_IDS_PER_REG) in
  if (nb_risup (drv_data pdata) <? risup_id) || (MAX_CID_SUPPORTED <? cid)
  then Ret (TEE_ERROR_BAD_PARAMETERS, pdata)
  else
    lockr <- io_read32 (base pdata + _RIFSC_RISC_RCFGLOCKR0 + offset) ;;
    if nz (Z.land lockr (BIT (risup_id mod _PERIPH_IDS_PER_REG)))
    then Ret (TEE_ERROR_ACCESS_DENIED, pdata)
    else
      match risup pdata !! Z.to_nat risup_id with
      | None => Panic
      | Some r =>
          let attr := wrap32 (Z.shiftl cid RIFSC_RISC_CIDCFGR_SCID_SHIFT) in
          let attr :=
            if cfen then Z.lor attr RIFSC_RISC_CIDCFGR_CFEN_MASK
            else Z.land attr (not32 RIFSC_RISC_CIDCFGR_CFEN_MASK) in
          let r := set_risup_attrs r attr sec priv in
          let pdata := set_risup pdata (<[Z.to_nat risup_id := r]> (risup pdata)) in
          res <- stm32_risup_cfg pdata r ;;
          Ret (res, pdata)
      end.

(** A firewall query: its argument cells ([arg_count] is their number). *)
Definition firewall_query : Type := list Z.

Definition stm32_rifsc_set_config (b : rif_bindings) (pdata : rifsc_platdata)
  (firewall : firewall_query) : mmio TEE_Result :=
  match firewall with
  | [conf] =>
      let id_ := Z.land conf (RIF_PER_ID_MASK b) in
      if id_ <? RIMU_ID_OFFSET b then
        let r := {| cid_attr := _RIF_FLD_GET (RIF_PERx_CID_MASK b) (RIF_PERx_CID_SHIFT b) conf;
                    id := id_;
                    sec := nz (Z.land (BIT (RIF_SEC_SHIFT b)) conf);
                    priv := nz (Z.land (BIT (RIF_PRIV_SHIFT b)) conf);
                    lock := nz (Z.land (BIT (RIF_LOCK_SHIFT b)) conf);
                    pm_sem := false |} in
        if negb (is_tdcid pdata) then
          cidcfgr <- io_read32 (base pdata + _OFFSET_PERX_CIDCFGR * id r
                                + _RIFSC_RISC_PER0_CIDCFGR) ;;
          if negb (cidcfgr =? cid_attr r) then Ret TEE_ERROR_BAD_PARAMETERS
          else stm32_risup_cfg pdata r
        else stm32_risup_cfg pdata r
      else if negb (is_tdcid pdata) then Ret TEE_ERROR_ACCESS_DENIED
      else
        let rimu :=
          {| rimu_id := wrap32 (_RIF_FLD_GET (RIMUPROT_RIMC_M_ID_MASK b)
                                  (RIMUPROT_RIMC_M_ID_SHIFT b) conf - RIMU_ID_OFFSET b);
             rimu_risup_id := 0;
             rimu_attr := _RIF_FLD_GET (RIMUPROT_RIMC_ATTRx_MASK b)
                            (RIMUPROT_RIMC_ATTRx_SHIFT b) conf |} in
        stm32_rimu_cfg pdata rimu
  | _ => Ret TEE_ERROR_BAD_PARAMETERS
  end.

(** ** The semaphore handshake as seen on the register

    What a run of the release and acquire routines does to the semaphore
    register at [addr], and the code it returns. Every value read is a
    32-bit word. *)

Inductive release_run (addr nb_cid_supp : Z) : list event -> TEE_Result -> Prop :=
| release_already_free v1 :
    semaphore_taken v1 = false ->
    release_run addr nb_cid_supp [EvRead addr v1] TEE_SUCCESS
| release_now_free v1 v2 v3 :
    semaphore_taken v1 = true ->
    semaphore_taken v3 = false ->
    release_run addr nb_cid_supp
      [EvRead addr v1; EvRead addr v2; EvWrite addr (Z.clearbit v2 0); EvRead addr v3]
      TEE_SUCCESS
| release_taken_by_other v1 v2 v3 v4 :
    semaphore_taken v1 = true ->
    semaphore_taken v3 = true ->
    semaphore_holder nb_cid_supp v4 <> RIF_CID1 ->
    release_run addr nb_cid_supp
      [EvRead addr v1; EvRead addr v2; EvWrite addr (Z.clearbit v2 0); EvRead addr v3;
       EvRead addr v4]
      TEE_SUCCESS
| release_still_held v1 v2 v3 v4 :
    semaphore_taken v1 = true ->
    semaphore_taken v3 = true ->
    semaphore_holder nb_cid_supp v4 = RIF_CID1 ->
    release_run addr nb_cid_supp
      [EvRead addr v1; EvRead addr v2; EvWrite addr (Z.clearbit v2 0); EvRead addr v3;
       EvRead addr v4]
      TEE_ERROR_ACCESS_DENIED.

Inductive acquire_run (addr nb_cid_supp : Z) : list event -> TEE_Result -> Prop :=
| acquire_not_taken v0 v1 :
    semaphore_taken v1 = false ->
    acquire_run addr nb_cid_supp
      [EvRead addr v0; EvWrite addr (Z.setbit v0 0); EvRead addr v1]
      TEE_ERROR_ACCESS_DENIED
| acquire_lost v0 v1 v2 :
    semaphore_taken v1 = true ->
    semaphore_holder nb_cid_supp v2 <> RIF_CID1 ->
    acquire_run addr nb_cid_supp
      [EvRead addr v0; EvWrite addr (Z.setbit v0 0); EvRead addr v1; EvRead addr v2]
      TEE_ERROR_ACCESS_DENIED
| acquire_held v0 v1 v2 :
    semaphore_taken v1 = true ->
    semaphore_holder nb_cid_supp v2 = RIF_CID1 ->
    acquire_run addr nb_cid_supp
      [EvRead addr v0; EvWrite addr (Z.setbit v0 0); EvRead addr v1; EvRead addr v2]
      TEE_SUCCESS.

(** *** The configuration sequence of one RISUP, step by step

    The three steps of the configuration routine as the design states them:
    the security and privilege bits, then the CID-filtering word and the
    lock bit, which only the TDCID writes, then the semaphore, which is
    settled whoever runs the code. None of them looks at [is_tdcid]. *)

Definition risup_sec_priv_writes (rifsc_base : Z) (drv : rifsc_driver_data)
  (r : risup_cfg) : mmio unit :=
  when (sec_en drv)
    (io_clrsetbits32 (seccfgr_addr rifsc_base (id r)) (BIT (risup_shift (id r)))
       (wrap32 (Z.shiftl (Z.b2z (sec r)) (risup_shift (id r))))) ;;;
  when (priv_en drv)
    (io_clrsetbits32 (privcfgr_addr rifsc_base (id r)) (BIT (risup_shift (id r)))
       (wrap32 (Z.shiftl (Z.b2z (priv r)) (risup_shift (id r))))).

Definition risup_cid_lock_writes (rifsc_base : Z) (drv : rifsc_driver_data)
  (r : risup_cfg) : mmio unit :=
  when (rif_en drv) (io_write32 (cidcfgr_addr rifsc_base (id r)) (cid_attr r)) ;;;
  when (lock r)
    (io_setbits32 (rcfglockr_addr rifsc_base (id r)) (BIT (risup_shift (id r)))).

Definition settle (m : mmio TEE_Result) : mmio TEE_Result :=
  res <- m ;; if is_error res then Ret TEE_ERROR_ACCESS_DENIED else Ret TEE_SUCCESS.

Definition risup_semaphore_step (rifsc_base : Z) (r : risup_cfg) : mmio TEE_Result :=
  if SEM_MODE_INCORRECT (cid_attr r)
  then settle (stm32_rif_release_semaphore (semcr_addr rifsc_base (id r)) MAX_CID_SUPPORTED)
  else
    seccfgr <- io_read32 (seccfgr_addr rifsc_base (id r)) ;;
    if Z.testbit seccfgr (risup_shift (id r))
    then settle (stm32_rif_acquire_semaphore (semcr_addr rifsc_base (id r)) MAX_CID_SUPPORTED)
    else settle (stm32_rif_release_semaphore (semcr_addr rifsc_base (id r)) MAX_CID_SUPPORTED).

Definition risup_cfg_steps (rifsc_base : Z) (drv : rifsc_driver_data)
  (r : risup_cfg) (tdcid : bool) : mmio TEE_Result :=
  if nb_risup drv <=? id r then Ret TEE_ERROR_BAD_PARAMETERS
  else
    risup_sec_priv_writes rifsc_base drv r ;;;
    when tdcid (risup_cid_lock_writes rifsc_base drv r) ;;;
    risup_semaphore_step rifsc_base r.

Definition set_is_tdcid (pdata : rifsc_platdata) (t : bool) : rifsc_platdata :=
  {| base := base pdata; drv_data := drv_data pdata; risup := risup pdata;
     nrisup := nrisup pdata; is_tdcid := t;
     errata_ahbrisab := errata_ahbrisab pdata; rimu_risup := rimu_risup pdata;
     insecure := insecure pdata |}.

(** The CID-filtering and configuration-lock registers of the RISUPs the
    hardware can have ([nb_risup] is a [uint8_t]). *)
Definition is_cidcfgr_addr (rifsc_base a : Z) : Prop :=
  exists j, 0 <= j <= 255 /\ a = cidcfgr_addr rifsc_base j.

Definition is_rcfglockr_addr (rifsc_base a : Z) : Prop :=
  exists j, 0 <= j <= 255 /\ a = rcfglockr_addr rifsc_base j.

Definition ev_addr (e : event) : Z :=
  match e with EvRead a _ => a | EvWrite a _ => a | EvRead8 a _ => a end.

(** A trace that only touches registers whose address satisfies [P]. *)
Definition touches_only (P : Z -> Prop) (t : list event) : Prop :=
  Forall (fun e => P (ev_addr e)) t.

(** A step that returns without a value, cannot panic and only touches
    registers in [P]. *)
Definition plain_step (d : device) (P : Z -> Prop) (m : mmio unit) : Prop :=
  forall s : hw d, exists s' t, run d m s = (Done tt, s', t) /\ touches_only P t.

(** Two routines that cannot be told apart on any device. *)
Definition same_runs {A : Type} (m1 m2 : mmio A) : Prop :=
  forall (d : device) (s : hw d), run d m1 s = run d m2 s.

(** What the last reads of a semaphore step show about the register at
    [addr]: held by compartment 1, or not held by it (free, or taken by
    another compartment). *)
Definition held_by_cid1 (addr : Z) (t : list event) : Prop :=
  exists t' v1 v2, t = t' ++ [EvRead addr v1; EvRead addr v2] /\
    semaphore_taken v1 = true /\ semaphore_holder MAX_CID_SUPPORTED v2 = RIF_CID1.

Definition not_held_by_cid1 (addr : Z) (t : list event) : Prop :=
  (exists t' v, t = t' ++ [EvRead addr v] /\ semaphore_taken v = false) \/
  (exists t' v1 v2, t = t' ++ [EvRead addr v1; EvRead addr v2] /\
     semaphore_taken v1 = true /\ semaphore_holder MAX_CID_SUPPORTED v2 <> RIF_CID1).

(** ** A sample platform

    Scenario B of the design: resource 3 with filtering and semaphore mode
    on and compartments 1 and 2 white-listed, configured by a compartment
    that is not the TDCID. The semaphore register starts free with its
    holder field at compartment 1. *)
Definition sample_drv_data : rifsc_driver_data :=
  {| nb_rimu := 16; nb_risup := 128; rif_en := true; sec_en := true; priv_en := true |}.

Definition sample_risup : risup_cfg :=
  {| cid_attr := 0x60003; id := 3; sec := true; priv := false; lock := false;
     pm_sem := false |}.

Definition sample_pdata : rifsc_platdata :=
  {| base := 0x42080000; drv_data := sample_drv_data;
     risup := [sample_risup]; nrisup := 1; is_tdcid := false;
     errata_ahbrisab := false; rimu_risup := []; insecure := false |}.

Definition sample_regs : hw regfile :=
  fun a => if a =? semcr_addr 0x42080000 3 then 0x10 else 0.

(** ** Bitmaps of the cell parser

    [l'] keeps every bit of [l]: the two tables have the same length and no
    word of [l] loses a bit in [l']. *)
Definition bits_kept (l l' : list Z) : Prop :=
  length l' = length l /\
  forall (k : nat) (w : Z), l !! k = Some w ->
    exists w', l' !! k = Some w' /\
               forall j, Z.testbit w j = true -> Z.testbit w' j = true.

Definition lock_bits_kept (l l' : option (list Z)) : Prop :=
  match l, l' with
  | Some t, Some t' => bits_kept t t'
  | None, None => True
  | _, _ => False
  end.

(** ** [stm32_rifsc.c]: capabilities, set-up loop, access requests, suspend
    and resume *)

Definition _RIFSC_HWCFGR2 : Z := 0xFEC.
Definition _RIFSC_HWCFGR1 : Z := 0xFF0.
Definition _RIFSC_VERR : Z := 0xFF4.

Definition _RIFSC_HWCFGR2_CFG1_MASK : Z := GENMASK_32 15 0.
Definition _RIFSC_HWCFGR2_CFG1_SHIFT : Z := 0.
Definition _RIFSC_HWCFGR2_CFG2_MASK : Z := GENMASK_32 23 16.
Definition _RIFSC_HWCFGR2_CFG2_SHIFT : Z := 16.

Definition _RIFSC_HWCFGR1_CFG1_MASK : Z := GENMASK_32 3 0.
Definition _RIFSC_HWCFGR1_CFG1_SHIFT : Z := 0.
Definition _RIFSC_HWCFGR1_CFG2_MASK : Z := GENMASK_32 7 4.
Definition _RIFSC_HWCFGR1_CFG2_SHIFT : Z := 4.
Definition _RIFSC_HWCFGR1_CFG3_MASK : Z := GENMASK_32 11 8.
Definition _RIFSC_HWCFGR1_CFG3_SHIFT : Z := 8.


(** The capabilities read from the two hardware-configuration registers.
    [nb_risup] and [nb_rimu] are [uint8_t] members: the value stored is the
    field cut to its low byte. The version register is then read as a
    byte; its value goes to the debug message only. *)
Definition stm32_rifsc_get_driverdata (rifsc_base : Z) : mmio rifsc_driver_data :=
  regval1 <- io_read32 (rifsc_base + _RIFSC_HWCFGR1) ;;
  regval2 <- io_read32 (rifsc_base + _RIFSC_HWCFGR2) ;;
  io_read8 (rifsc_base + _RIFSC_VERR) ;;;
  Ret {| nb_rimu :=
           _RIF_FLD_GET _RIFSC_HWCFGR2_CFG2_MASK _RIFSC_HWCFGR2_CFG2_SHIFT regval2 mod 2 ^ 8;
         nb_risup :=
           _RIF_FLD_GET _RIFSC_HWCFGR2_CFG1_MASK _RIFSC_HWCFGR2_CFG1_SHIFT regval2 mod 2 ^ 8;
         rif_en :=
           nz (_RIF_FLD_GET _RIFSC_HWCFGR1_CFG1_MASK _RIFSC_HWCFGR1_CFG1_SHIFT regval1);
         sec_en :=
           nz (_RIF_FLD_GET _RIFSC_HWCFGR1_CFG2_MASK _RIFSC_HWCFGR1_CFG2_SHIFT regval1);
         priv_en :=
           nz (_RIF_FLD_GET _RIFSC_HWCFGR1_CFG3_MASK _RIFSC_HWCFGR1_CFG3_SHIFT regval1) |}.

(** One entry of the "st,protreg" list as [stm32_rifsc_dt_conf_risup] stores
    it in the [calloc]ed table ([pm_sem] stays clear). *)
Definition risup_of_cell (b : rif_bindings) (value : Z) : risup_cfg :=
  {| cid_attr := _RIF_FLD_GET (RIF_PERx_CID_MASK b) (RIF_PERx_CID_SHIFT b) value;
     id := _RIF_FLD_GET (RIF_PER_ID_MASK b) (RIF_PER_ID_SHIFT b) value;
     sec := nz (Z.land value (BIT (RIF_SEC_SHIFT b)));
     priv := nz (Z.land value (BIT (RIF_PRIV_SHIFT b)));
     lock := nz (Z.land value (BIT (RIF_LOCK_SHIFT b)));
     pm_sem := false |}.

(** [protreg] is the "st,protreg" property, [None] when the node has none;
    the result carries [*nrisup] and [*risups]. The allocation is taken to
    succeed. *)
Definition stm32_rifsc_dt_conf_risup (b : rif_bindings) (protreg : option (list Z))
  : TEE_Result * Z * list risup_cfg :=
  match protreg with
  | None => (TEE_ERROR_ITEM_NOT_FOUND, 0, [])
  | Some cells => (TEE_SUCCESS, Z.of_nat (length cells), map (risup_of_cell b) cells)
  end.

(** The loop of [stm32_risup_setup] over the entries still to configure. *)
Fixpoint risup_setup_loop (pdata : rifsc_platdata) (rs : list risup_cfg)
  : mmio TEE_Result :=
  match rs with
  | [] => Ret TEE_SUCCESS
  | r :: rs' =>
      res <- stm32_risup_cfg pdata r ;;
      if is_error res then Ret res else risup_setup_loop pdata rs'
  end.

(** [i] runs while [i < pdata->nrisup && i < drv_data->nb_risup] over a
    table of [nrisup] entries. *)
Definition stm32_risup_setup (pdata : rifsc_platdata) : mmio TEE_Result :=
  risup_setup_loop pdata
    (take (Z.to_nat (Z.min (nrisup pdata) (nb_risup (drv_data pdata)))) (risup pdata)).

(** [_OFFSET_PERX_CIDCFGR * id] on [unsigned int]. *)
Definition cid_reg_offset (resource_id : Z) : Z :=
  wrap32 (_OFFSET_PERX_CIDCFGR * resource_id).

(** [RIFSC_BASE] comes from the platform configuration, which is not among
    the sources; it is the parameter [rifsc_base]. *)
Definition stm32_rifsc_cid_is_enabled (rifsc_base rifc_id : Z) : mmio bool :=
  cidcfgr <- io_read32 (rifsc_base + _RIFSC_RISC_PER0_CIDCFGR + cid_reg_offset rifc_id) ;;
  Ret (Z.land cidcfgr _CIDCFGR_CFEN =? _CIDCFGR_CFEN).

Definition stm32_rifsc_cid_enable (rifsc_base rifc_id : Z) : mmio unit :=
  io_setbits32_stm32shregs (rifsc_base + _RIFSC_RISC_PER0_CIDCFGR + cid_reg_offset rifc_id)
    _CIDCFGR_CFEN.

Definition stm32_rifsc_cid_disable (rifsc_base rifc_id : Z) : mmio unit :=
  io_clrbits32_stm32shregs (rifsc_base + _RIFSC_RISC_PER0_CIDCFGR + cid_reg_offset rifc_id)
    _CIDCFGR_CFEN.

(** The three access callbacks work on the file-scope [rifsc_pdata.base],
    which their leading assertion takes to be set. *)
Definition stm32_rifsc_check_access (b : rif_bindings) (rifsc_base : Z)
  (firewall : firewall_query) : mmio TEE_Result :=
  match firewall with
  | [arg0] =>
      let resource_id := Z.land arg0 (RIF_PER_ID_MASK b) in
      if RIMU_ID_OFFSET b <=? resource_id then Ret TEE_SUCCESS
      else
        let reg_id := resource_id / _PERIPH_IDS_PER_REG in
        let periph_offset := resource_id mod _PERIPH_IDS_PER_REG in
        cidcfgr <- io_read32 (rifsc_base + _RIFSC_RISC_PER0_CIDCFGR
                              + cid_reg_offset resource_id) ;;
        seccfgr <- io_read32 (rifsc_base + _RIFSC_RISC_SECCFGR0 + 0x4 * reg_id) ;;
        privcfgr <- io_read32 (rifsc_base + _RIFSC_RISC_PRIVCFGR0 + 0x4 * reg_id) ;;
        let sec_check := nz (Z.land (BIT (RIF_SEC_SHIFT b)) arg0) in
        let priv_check := nz (Z.land (BIT (RIF_PRIV_SHIFT b)) arg0) in
        let cid_to_check := Z.shiftr (Z.land arg0 (RIF_SCID_MASK b)) (RIF_SCID_SHIFT b) in
        if negb sec_check && nz (Z.land seccfgr (BIT periph_offset))
        then Ret TEE_ERROR_ACCESS_DENIED
        else if negb priv_check && nz (Z.land privcfgr (BIT periph_offset))
        then Ret TEE_ERROR_ACCESS_DENIED
        else if negb (nz (Z.land cidcfgr _CIDCFGR_CFEN)) then Ret TEE_SUCCESS
        else if (nz (Z.land cidcfgr _CIDCFGR_SEMEN)
                 && negb (SEM_EN_AND_OK cidcfgr cid_to_check))
                || (negb (nz (Z.land cidcfgr _CIDCFGR_SEMEN))
                    && negb (SCID_OK cidcfgr RIFSC_RISC_CIDCFGR_SCID_MASK cid_to_check))
        then Ret TEE_ERROR_BAD_PARAMETERS
        else Ret TEE_SUCCESS
  | _ => Ret TEE_ERROR_BAD_PARAMETERS
  end.

Definition stm32_rifsc_acquire_access (b : rif_bindings) (rifsc_base : Z)
  (firewall : firewall_query) : mmio TEE_Result :=
  match firewall with
  | [] => Ret TEE_ERROR_BAD_PARAMETERS
  | arg0 :: _ =>
      let resource_id := Z.land arg0 (RIF_PER_ID_MASK b) in
      if RIMU_ID_OFFSET b <=? resource_id then Ret TEE_SUCCESS
      else
        let reg_id := resource_id / _PERIPH_IDS_PER_REG in
        let periph_offset := resource_id mod _PERIPH_IDS_PER_REG in
        cidcfgr <- io_read32 (rifsc_base + _RIFSC_RISC_PER0_CIDCFGR
                              + cid_reg_offset resource_id) ;;
        seccfgr <- io_read32 (rifsc_base + _RIFSC_RISC_SECCFGR0 + 0x4 * reg_id) ;;
        if negb (nz (Z.land seccfgr (BIT periph_offset))) then Ret TEE_ERROR_ACCESS_DENIED
        else if negb (nz (Z.land cidcfgr _CIDCFGR_CFEN)) then Ret TEE_SUCCESS
        else if nz (Z.land cidcfgr _CIDCFGR_SEMEN) then
          if negb (SEM_EN_AND_OK cidcfgr RIF_CID1) then Ret TEE_ERROR_BAD_PARAMETERS
          else stm32_rif_acquire_semaphore
                 (rifsc_base + _RIFSC_RISC_PER0_SEMCR + cid_reg_offset resource_id)
                 MAX_CID_SUPPORTED
        else if negb (SCID_OK cidcfgr RIFSC_RISC_CIDCFGR_SCID_MASK RIF_CID1)
        then Ret TEE_ERROR_ACCESS_DENIED
        else Ret TEE_SUCCESS
  end.

(** The whole cell is taken as the resource id. A query without argument
    stops at the assertion. *)
Definition stm32_rifsc_release_access (b : rif_bindings) (rifsc_base : Z)
  (firewall : firewall_query) : mmio unit :=
  match firewall with
  | [] => Panic
  | id_ :: _ =>
      if RIMU_ID_OFFSET b <=? id_ then Ret tt
      else
        cidcfgr <- io_read32 (rifsc_base + _RIFSC_RISC_PER0_CIDCFGR + cid_reg_offset id_) ;;
        if SEM_EN_AND_OK cidcfgr RIF_CID1 then
          res <- stm32_rif_release_semaphore
                   (rifsc_base + _RIFSC_RISC_PER0_SEMCR + cid_reg_offset id_)
                   MAX_CID_SUPPORTED ;;
          if is_error res then Panic else Ret tt
        else Ret tt
  end.

Definition set_pm_sem (r : risup_cfg) (saved : bool) : risup_cfg :=
  {| cid_attr := cid_attr r; id := id r; sec := sec r; priv := priv r; lock := lock r;
     pm_sem := saved |}.

(** The loop of [stm32_rifsc_sem_pm_suspend]: the semaphore register read
    for the entry at index [i] is the one at offset
    [_OFFSET_PERX_CIDCFGR * i]. *)
Fixpoint sem_pm_suspend_loop (rifsc_base i : Z) (rs : list risup_cfg)
  : mmio (list risup_cfg) :=
  match rs with
  | [] => Ret []
  | r :: rs' =>
      semcfgr <- io_read32 (rifsc_base + _RIFSC_RISC_PER0_SEMCR + _OFFSET_PERX_CIDCFGR * i) ;;
      let r' :=
        set_pm_sem r
          (nz (Z.land semcfgr _SEMCR_MUTEX)
           && (Z.shiftr (Z.land semcfgr _SEMCR_SEMCID_MASK) _SEMCR_SEMCID_SHIFT =? RIF_CID1)) in
      rest <- sem_pm_suspend_loop rifsc_base (i + 1) rs' ;;
      Ret (r' :: rest)
  end.

Definition stm32_rifsc_sem_pm_suspend (pdata : rifsc_platdata)
  : mmio (TEE_Result * rifsc_platdata) :=
  let n := Z.to_nat (Z.min (nrisup pdata) (nb_risup (drv_data pdata))) in
  saved <- sem_pm_suspend_loop (base pdata) 0 (take n (risup pdata)) ;;
  Ret (TEE_SUCCESS, set_risup pdata (saved ++ drop n (risup pdata))).

(** One turn of the loop of [stm32_rifsc_sem_pm_resume]: the entry is
    refreshed from the registers, then the semaphore is taken again if it
    was saved. The code is [TEE_SUCCESS] when the loop goes on. *)
Definition sem_pm_resume_entry (rifsc_base : Z) (r : risup_cfg)
  : mmio (TEE_Result * risup_cfg) :=
  let cidcfgr_offset := cid_reg_offset (id r) in
  let offset := 4 * (id r / _PERIPH_IDS_PER_REG) in
  let perih_offset := id r mod _PERIPH_IDS_PER_REG in
  seccgfr <- io_read32 (rifsc_base + _RIFSC_RISC_SECCFGR0 + offset) ;;
  privcgfr <- io_read32 (rifsc_base + _RIFSC_RISC_PRIVCFGR0 + offset) ;;
  lockcfgr <- io_read32 (rifsc_base + _RIFSC_RISC_RCFGLOCKR0 + offset) ;;
  cidcfgr <- io_read32 (rifsc_base + _RIFSC_RISC_PER0_CIDCFGR + cidcfgr_offset) ;;
  let r' := {| cid_attr := cidcfgr; id := id r;
               sec := nz (Z.land seccgfr (BIT perih_offset));
               priv := nz (Z.land privcgfr (BIT perih_offset));
               lock := nz (Z.land lockcfgr (BIT perih_offset));
               pm_sem := pm_sem r |} in
  if SEM_MODE_INCORRECT cidcfgr || negb (pm_sem r) then Ret (TEE_SUCCESS, r')
  else
    res <- stm32_rif_acquire_semaphore
             (rifsc_base + _RIFSC_RISC_PER0_SEMCR + cidcfgr_offset) MAX_CID_SUPPORTED ;;
    if is_error res then Ret (TEE_ERROR_ACCESS_DENIED, r') else Ret (TEE_SUCCESS, r').

(** The entries come back as far as the loop went: a failed acquire
    returns at once and leaves the rest of the table as it was. *)
Fixpoint sem_pm_resume_loop (rifsc_base : Z) (rs : list risup_cfg)
  : mmio (TEE_Result * list risup_cfg) :=
  match rs with
  | [] => Ret (TEE_SUCCESS, [])
  | r :: rs' =>
      p <- sem_pm_resume_entry rifsc_base r ;;
      if is_error (fst p) then Ret (fst p, snd p :: rs')
      else
        q <- sem_pm_resume_loop rifsc_base rs' ;;
        Ret (fst q, snd p :: snd q)
  end.

Definition stm32_rifsc_sem_pm_resume (pdata : rifsc_platdata)
  : mmio (TEE_Result * rifsc_platdata) :=
  let n := Z.to_nat (Z.min (nrisup pdata) (nb_risup (drv_data pdata))) in
  q <- sem_pm_resume_loop (base pdata) (take n (risup pdata)) ;;
  Ret (fst q, set_risup pdata (snd q ++ drop n (risup pdata))).


(** ** [stm32_risaf.c] *)

Module Risaf.

(** Pointers and sizes are 64-bit on the SoCs that carry a RISAF. *)
Definition wrap64 (x : Z) : Z := x mod 2 ^ 64.

(** The cell layout of the RISAF bindings header and the platform's secure
    DRAM window, neither of which is among the sources. [mp21] is
    [CFG_STM32MP21]. *)
Record risaf_bindings : Type := {
  DT_RISAF_REG_ID_MASK : Z;
  DT_RISAF_EN_MASK : Z;
  DT_RISAF_EN_SHIFT : Z;
  DT_RISAF_SEC_MASK : Z;
  DT_RISAF_SEC_SHIFT : Z;
  DT_RISAF_ENC_MASK : Z;
  DT_RISAF_ENC_SHIFT : Z;
  DT_RISAF_PRIV_MASK : Z;
  DT_RISAF_PRIV_SHIFT : Z;
  DT_RISAF_READ_MASK : Z;
  DT_RISAF_READ_SHIFT : Z;
  DT_RISAF_WRITE_MASK : Z;
  DT_RISAF_WRITE_SHIFT : Z;
  TZDRAM_BASE : Z;
  TZDRAM_RESERVED_SIZE : Z;
  mp21 : bool
}.

Definition _RISAF_REG_BASE : Z := 0x40.
Definition _RISAF_REG_SIZE : Z := 0x40.
Definition _RISAF_REG (n : Z) : Z :=
  wrap32 (_RISAF_REG_BASE + wrap32 (wrap32 (n - 1) * _RISAF_REG_SIZE)).
Definition _RISAF_REG_CFGR (n : Z) : Z := wrap32 (_RISAF_REG n + 0x0).
Definition _RISAF_REG_STARTR (n : Z) : Z := wrap32 (_RISAF_REG n + 0x4).
Definition _RISAF_REG_ENDR (n : Z) : Z := wrap32 (_RISAF_REG n + 0x8).
Definition _RISAF_REG_CIDCFGR (n : Z) : Z := wrap32 (_RISAF_REG n + 0xC).

Definition _RISAF_REG_CFGR_BREN : Z := BIT 0.
Definition _RISAF_REG_CFGR_SEC_SHIFT : Z := 8.
Definition _RISAF_REG_CFGR_SEC : Z := BIT _RISAF_REG_CFGR_SEC_SHIFT.
Definition _RISAF_REG_CFGR_ENC_SHIFT (b : risaf_bindings) : Z :=
  if mp21 b then 14 else 15.
Definition _RISAF_REG_CFGR_ENC (b : risaf_bindings) : Z :=
  if mp21 b then GENMASK_32 15 14 else BIT 15.
Definition _RISAF_REG_CFGR_PRIVC_SHIFT : Z := 16.
Definition _RISAF_REG_CFGR_PRIVC_MASK : Z := GENMASK_32 23 16.
Definition _RISAF_REG_CFGR_ALL_MASK (b : risaf_bindings) : Z :=
  Z.lor (Z.lor (Z.lor _RISAF_REG_CFGR_BREN _RISAF_REG_CFGR_SEC) (_RISAF_REG_CFGR_ENC b))
    _RISAF_REG_CFGR_PRIVC_MASK.

Definition _RISAF_REG_CIDCFGR_RDENC_SHIFT : Z := 0.
Definition _RISAF_REG_CIDCFGR_RDENC_MASK : Z := GENMASK_32 7 0.
Definition _RISAF_REG_CIDCFGR_WRENC_SHIFT : Z := 16.
Definition _RISAF_REG_CIDCFGR_WRENC_MASK : Z := GENMASK_32 23 16.
Definition _RISAF_REG_CIDCFGR_ALL_MASK : Z :=
  Z.lor _RISAF_REG_CIDCFGR_RDENC_MASK _RISAF_REG_CIDCFGR_WRENC_MASK.

Definition _RISAF_REG_READ_OK (reg cid : Z) : Z :=
  Z.land reg (wrap32 (Z.shiftl (BIT cid) _RISAF_REG_CIDCFGR_RDENC_SHIFT)).
Definition _RISAF_REG_WRITE_OK (reg cid : Z) : Z :=
  Z.land reg (wrap32 (Z.shiftl (BIT cid) _RISAF_REG_CIDCFGR_WRENC_SHIFT)).

Definition dt_field (cfg mask from to : Z) : Z :=
  wrap32 (Z.shiftl (Z.shiftr (Z.land cfg mask) from) to).

Definition _RISAF_GET_REGION_ID (b : risaf_bindings) (cfg : Z) : Z :=
  Z.land cfg (DT_RISAF_REG_ID_MASK b).

Definition _RISAF_GET_REGION_CFG (b : risaf_bindings) (cfg : Z) : Z :=
  Z.lor
    (Z.lor
       (Z.lor (dt_field cfg (DT_RISAF_EN_MASK b) (DT_RISAF_EN_SHIFT b) 0)
              (dt_field cfg (DT_RISAF_SEC_MASK b) (DT_RISAF_SEC_SHIFT b)
                 _RISAF_REG_CFGR_SEC_SHIFT))
       (dt_field cfg (DT_RISAF_ENC_MASK b)
          (if mp21 b then DT_RISAF_ENC_SHIFT b else DT_RISAF_ENC_SHIFT b + 1)
          (_RISAF_REG_CFGR_ENC_SHIFT b)))
    (dt_field cfg (DT_RISAF_PRIV_MASK b) (DT_RISAF_PRIV_SHIFT b)
       _RISAF_REG_CFGR_PRIVC_SHIFT).

Definition _RISAF_GET_REGION_CID_CFG (b : risaf_bindings) (cfg : Z) : Z :=
  Z.lor (dt_field cfg (DT_RISAF_WRITE_MASK b) (DT_RISAF_WRITE_SHIFT b)
           _RISAF_REG_CIDCFGR_WRENC_SHIFT)
        (dt_field cfg (DT_RISAF_READ_MASK b) (DT_RISAF_READ_SHIFT b)
           _RISAF_REG_CIDCFGR_RDENC_SHIFT).

Record stm32_risaf_region : Type := {
  cfg : Z;
  addr : Z;
  len : Z
}.

Record stm32_risaf_pdata : Type := {
  base : Z;
  regions : list stm32_risaf_region;
  nregions : Z;
  mem_base : Z;
  mem_size : Z;
  enc_supported : bool
}.

Record stm32_risaf_ddata : Type := {
  mask_regions : Z;
  max_base_regions : Z;
  granularity : Z
}.

Record stm32_risaf_instance : Type := {
  pdata : stm32_risaf_pdata;
  ddata : stm32_risaf_ddata
}.

Definition risaf_base (risaf : stm32_risaf_instance) : Z := base (pdata risaf).

Definition risaf_check_region_boundaries (risaf : stm32_risaf_instance)
  (region : stm32_risaf_region) : TEE_Result :=
  if addr region <? mem_base (pdata risaf) then TEE_ERROR_BAD_PARAMETERS
  else
    let end_paddr := wrap64 (mem_base (pdata risaf) + wrap64 (mem_size (pdata risaf) - 1)) in
    if (end_paddr <? addr region)
       || (end_paddr <? wrap64 (wrap64 (addr region - 1) + len region))
    then TEE_ERROR_BAD_PARAMETERS
    else if (granularity (ddata risaf) =? 0)
            || nz (addr region mod granularity (ddata risaf))
            || nz (len region mod granularity (ddata risaf))
    then TEE_ERROR_BAD_PARAMETERS
    else TEE_SUCCESS.

(** Modelled from the spec: [core_is_buffer_intersect] lives in
    [tee_misc.c], which is not among the sources; it is the pairwise
    intersection test of the half-open ranges [[b, b+bl)] and [[a, a+al)]. *)
Definition core_is_buffer_intersect (b bl a al : Z) : bool :=
  Z.max a b <? Z.min (a + al) (b + bl).

(** The scan of [risaf_check_overlap] over the entries before [index]. *)
Fixpoint overlap_scan (cur : stm32_risaf_region) (before : list stm32_risaf_region)
  : TEE_Result :=
  match before with
  | [] => TEE_SUCCESS
  | r :: rest =>
      if negb (nz (cfg r)) then overlap_scan cur rest
      else if core_is_buffer_intersect (addr cur) (len cur) (addr r) (len r)
      then TEE_ERROR_GENERIC
      else overlap_scan cur rest
  end.

Definition zero_region : stm32_risaf_region := {| cfg := 0; addr := 0; len := 0 |}.

(** [region] is the table and [index] the entry under test; the caller
    keeps [index] inside the table. *)
Definition risaf_check_overlap (region : list stm32_risaf_region) (index : nat)
  : TEE_Result :=
  overlap_scan (nth index region zero_region) (take index region).

(** The register sequence and the encryption checks; the read-backs that
    only feed the debug trace are left out. *)
Definition risaf_configure_region (b : risaf_bindings) (risaf : stm32_risaf_instance)
  (region_id cfg cid_cfg saddr eaddr : Z) : mmio TEE_Result :=
  let base := risaf_base risaf in
  let mask := mask_regions (ddata risaf) in
  io_clrbits32 (base + _RISAF_REG_CFGR region_id) _RISAF_REG_CFGR_BREN ;;;
  io_clrsetbits32 (base + _RISAF_REG_STARTR region_id) mask
    (Z.land (wrap64 (saddr - mem_base (pdata risaf))) mask) ;;;
  io_clrsetbits32 (base + _RISAF_REG_ENDR region_id) mask
    (Z.land (wrap64 (eaddr - mem_base (pdata risaf))) mask) ;;;
  io_clrsetbits32 (base + _RISAF_REG_CIDCFGR region_id) _RISAF_REG_CIDCFGR_ALL_MASK
    (Z.land cid_cfg _RISAF_REG_CIDCFGR_ALL_MASK) ;;;
  io_clrsetbits32 (base + _RISAF_REG_CFGR region_id) (_RISAF_REG_CFGR_ALL_MASK b)
    (Z.land cfg (_RISAF_REG_CFGR_ALL_MASK b)) ;;;
  if nz (Z.land cfg (_RISAF_REG_CFGR_ENC b)) then
    if negb (enc_supported (pdata risaf)) then Ret TEE_ERROR_GENERIC
    else if negb (mp21 b) && nz (Z.land cfg (BIT 14)) then Ret TEE_ERROR_NOT_SUPPORTED
    else if negb (Z.land cfg _RISAF_REG_CFGR_SEC =? _RISAF_REG_CFGR_SEC)
    then Ret TEE_ERROR_GENERIC
    else Ret TEE_SUCCESS
  else Ret TEE_SUCCESS.

(** [is_tdcid] is the file-scope flag set at probe time; [clk_res] is what
    [clk_enable] on the instance clock returns. *)
Definition stm32_risaf_acquire_access (b : risaf_bindings) (is_tdcid : bool)
  (clk_res : TEE_Result) (risaf : stm32_risaf_instance) (fw : firewall_query)
  (read write : bool) : mmio TEE_Result :=
  let base := risaf_base risaf in
  match fw with
  | [arg0] =>
      let id := _RISAF_GET_REGION_ID b arg0 in
      if (id =? 0) || (nregions (pdata risaf) <=? id) then Ret TEE_ERROR_BAD_PARAMETERS
      else if is_error clk_res then Ret clk_res
      else
        cfgr <- io_read32 (base + _RISAF_REG_CFGR id) ;;
        cidcfgr <- io_read32 (base + _RISAF_REG_CIDCFGR id) ;;
        if (negb (nz (Z.land cfgr _RISAF_REG_CFGR_BREN)) && negb is_tdcid)
           || negb (nz (Z.land cfgr _RISAF_REG_CFGR_SEC))
           || (nz cidcfgr
               && ((read && negb (nz (_RISAF_REG_READ_OK cidcfgr RIF_CID1)))
                   || (write && negb (nz (_RISAF_REG_WRITE_OK cidcfgr RIF_CID1)))))
        then Ret TEE_ERROR_ACCESS_DENIED
        else Ret TEE_SUCCESS
  | _ => Ret TEE_ERROR_BAD_PARAMETERS
  end.

(** *** The region loop of [stm32_risaf_probe]

    One entry of the "memory-region" list as the device tree gives it: the
    node offset found for the phandle (negative when there is none), the
    node's base address and size, and its "st,protreg" cell if any. *)
Record dt_memory_region : Type := {
  dt_pnode : Z;
  dt_reg_base : Z;
  dt_reg_size : Z;
  dt_protreg : option Z
}.

Definition set_region (rs : list stm32_risaf_region) (i : nat)
  (r : stm32_risaf_region) : list stm32_risaf_region := <[i := r]> rs.

(** [regions[i]] once address, size and "st,protreg" cell are stored. *)
Definition region_of_entry (e : dt_memory_region) (prop : Z) : stm32_risaf_region :=
  {| cfg := wrap32 prop; addr := dt_reg_base e; len := dt_reg_size e |}.

(** The body of the loop for entry [i]; [rs] is the [calloc]ed table. The
    debug assertion on the region id is left out: it can only add panics. *)
Definition probe_region (b : risaf_bindings) (risaf : stm32_risaf_instance)
  (rs : list stm32_risaf_region) (i : nat) (e : dt_memory_region)
  : mmio (list stm32_risaf_region) :=
  if dt_pnode e <? 0 then Ret rs
  else
    let c0 := cfg (nth i rs zero_region) in
    let rs := set_region rs i {| cfg := c0; addr := dt_reg_base e; len := dt_reg_size e |} in
    if dt_reg_size e =? 0 then Ret rs
    else if (dt_reg_base e =? TZDRAM_BASE b) && (dt_reg_size e =? TZDRAM_RESERVED_SIZE b)
    then Ret rs
    else
      match dt_protreg e with
      | None => Ret rs
      | Some prop =>
          let r := region_of_entry e prop in
          let rs := set_region rs i r in
          if is_error (risaf_check_region_boundaries risaf r)
             || is_error (risaf_check_overlap rs i)
          then Panic
          else
            let start_addr := addr r in
            let end_addr := wrap64 (wrap64 (start_addr + len r) - 1) in
            res <- risaf_configure_region b risaf (_RISAF_GET_REGION_ID b (cfg r))
                     (_RISAF_GET_REGION_CFG b (cfg r))
                     (_RISAF_GET_REGION_CID_CFG b (cfg r)) start_addr end_addr ;;
            if is_error res then Panic else Ret rs
      end.

Fixpoint probe_regions_from (b : risaf_bindings) (risaf : stm32_risaf_instance)
  (rs : list stm32_risaf_region) (i : nat) (es : list dt_memory_region)
  : mmio (list stm32_risaf_region) :=
  match es with
  | [] => Ret rs
  | e :: es' =>
      rs' <- probe_region b risaf rs i e ;;
      probe_regions_from b risaf rs' (S i) es'
  end.

Definition probe_regions (b : risaf_bindings) (risaf : stm32_risaf_instance)
  (es : list dt_memory_region) : mmio (list stm32_risaf_region) :=
  probe_regions_from b risaf (replicate (length es) zero_region) 0 es.

(** An entry that the loop takes up with a non-zero configuration. *)
Definition configured (b : risaf_bindings) (e : dt_memory_region) : Prop :=
  0 <= dt_pnode e /\ dt_reg_size e <> 0 /\
  ~ (dt_reg_base e = TZDRAM_BASE b /\ dt_reg_size e = TZDRAM_RESERVED_SIZE b) /\
  exists prop, dt_protreg e = Some prop /\ wrap32 prop <> 0.

(** The half-open ranges of two entries intersect. *)
Definition ranges_intersect (e1 e2 : dt_memory_region) : Prop :=
  exists x, dt_reg_base e1 <= x < dt_reg_base e1 + dt_reg_size e1 /\
            dt_reg_base e2 <= x < dt_reg_base e2 + dt_reg_size e2.

(** A sample instance: a 256 MiB window at 0x80000000 cut in 4 KiB grains,
    a cell placement for the missing bindings header, and two entries that
    overlap as in Scenario A of the design. *)
Definition sample_risaf : stm32_risaf_instance :=
  {| pdata := {| base := 0x420D0000; regions := []; nregions := 4;
                 mem_base := 0x80000000; mem_size := 0x10000000;
                 enc_supported := false |};
     ddata := {| mask_regions := GENMASK_32 27 12; max_base_regions := 4;
                 granularity := 0x1000 |} |}.

Definition sample_region : stm32_risaf_region :=
  {| cfg := 0x1; addr := 0x80001000; len := 0x2000 |}.

Definition sample_bindings : risaf_bindings :=
  {| DT_RISAF_REG_ID_MASK := 0xF;
     DT_RISAF_EN_MASK := BIT 4; DT_RISAF_EN_SHIFT := 4;
     DT_RISAF_SEC_MASK := BIT 5; DT_RISAF_SEC_SHIFT := 5;
     DT_RISAF_ENC_MASK := GENMASK_32 7 6; DT_RISAF_ENC_SHIFT := 6;
     DT_RISAF_PRIV_MASK := GENMASK_32 15 8; DT_RISAF_PRIV_SHIFT := 8;
     DT_RISAF_READ_MASK := GENMASK_32 23 16; DT_RISAF_READ_SHIFT := 16;
     DT_RISAF_WRITE_MASK := GENMASK_32 31 24; DT_RISAF_WRITE_SHIFT := 24;
     TZDRAM_BASE := 0x82000000; TZDRAM_RESERVED_SIZE := 0x2000000;
     mp21 := false |}.

Definition scenario_a : list dt_memory_region :=
  [ {| dt_pnode := 0x100; dt_reg_base := 0x80001000; dt_reg_size := 0x2000;
       dt_protreg := Some 0x01010031 |};
    {| dt_pnode := 0x140; dt_reg_base := 0x80002000; dt_reg_size := 0x2000;
       dt_protreg := Some 0x01010032 |} ].

(** *** Hardware configuration, access check and reconfiguration *)

Definition _RISAF_HWCFGR : Z := 0xFF0.

Definition _RISAF_HWCFGR_CFG1_SHIFT : Z := 0.
Definition _RISAF_HWCFGR_CFG1_MASK : Z := GENMASK_32 7 0.
Definition _RISAF_HWCFGR_CFG3_SHIFT : Z := 16.
Definition _RISAF_HWCFGR_CFG3_MASK : Z := GENMASK_32 23 16.
Definition _RISAF_HWCFGR_CFG4_SHIFT : Z := 24.
Definition _RISAF_HWCFGR_CFG4_MASK : Z := GENMASK_32 31 24.

(** The allocation of the [ddata] block is taken to succeed. The register
    is read twice, once for the mask and once for the granularity. *)
Definition stm32_risaf_init_ddata (risaf_base_ : Z) : mmio stm32_risaf_ddata :=
  hwcfgr <- io_read32 (risaf_base_ + _RISAF_HWCFGR) ;;
  let mask_lsb := Z.shiftr (Z.land hwcfgr _RISAF_HWCFGR_CFG3_MASK) _RISAF_HWCFGR_CFG3_SHIFT in
  let mask_msb :=
    wrap32 (wrap32 (mask_lsb + Z.shiftr (Z.land hwcfgr _RISAF_HWCFGR_CFG4_MASK)
                                 _RISAF_HWCFGR_CFG4_SHIFT) - 1) in
  granularity_ <- io_read32 (risaf_base_ + _RISAF_HWCFGR) ;;
  Ret {| mask_regions := GENMASK_32 mask_msb mask_lsb;
         max_base_regions :=
           Z.shiftr (Z.land hwcfgr _RISAF_HWCFGR_CFG1_MASK) _RISAF_HWCFGR_CFG1_SHIFT;
         granularity :=
           BIT (Z.shiftr (Z.land granularity_ _RISAF_HWCFGR_CFG3_MASK)
                  _RISAF_HWCFGR_CFG3_SHIFT) |}.

(** [is_tdcid] and [clk_res] as for [stm32_risaf_acquire_access]. *)
Definition stm32_risaf_check_access (b : risaf_bindings) (is_tdcid : bool)
  (clk_res : TEE_Result) (risaf : stm32_risaf_instance) (fw : firewall_query)
  : mmio TEE_Result :=
  let base := risaf_base risaf in
  match fw with
  | [q_config] =>
      let id := _RISAF_GET_REGION_ID b q_config in
      if (id =? 0) || (nregions (pdata risaf) <=? id) then Ret TEE_ERROR_BAD_PARAMETERS
      else if is_error clk_res then Ret clk_res
      else
        cfgr <- io_read32 (base + _RISAF_REG_CFGR id) ;;
        cidcfgr <- io_read32 (base + _RISAF_REG_CIDCFGR id) ;;
        if (negb (nz (Z.land cfgr _RISAF_REG_CFGR_BREN)) && negb is_tdcid)
           || (nz (Z.land (_RISAF_GET_REGION_CFG b q_config) _RISAF_REG_CFGR_SEC)
               && negb (nz (Z.land cfgr _RISAF_REG_CFGR_SEC)))
        then Ret TEE_ERROR_ACCESS_DENIED
        else
          let cid_list := Z.land (_RISAF_GET_REGION_CFG b q_config)
                            _RISAF_REG_CFGR_PRIVC_MASK in
          if negb (cid_list =? Z.land cfgr cid_list) then Ret TEE_ERROR_ACCESS_DENIED
          else
            let cid_list := Z.land (_RISAF_GET_REGION_CID_CFG b q_config)
                              _RISAF_REG_CIDCFGR_RDENC_MASK in
            if negb (cid_list =? Z.land cidcfgr cid_list) then Ret TEE_ERROR_ACCESS_DENIED
            else
              let cid_list := Z.land (_RISAF_GET_REGION_CID_CFG b q_config)
                                _RISAF_REG_CIDCFGR_WRENC_MASK in
              if negb (cid_list =? Z.land cidcfgr cid_list)
              then Ret TEE_ERROR_ACCESS_DENIED
              else Ret TEE_SUCCESS
  | _ => Ret TEE_ERROR_BAD_PARAMETERS
  end.

(** The first table entry, among the [nregions] first, that carries the
    region id: where the search loop of [stm32_risaf_reconfigure_region]
    stops. *)
Definition region_with_id (b : risaf_bindings) (risaf : stm32_risaf_instance) (id : Z)
  : option stm32_risaf_region :=
  find (fun r => id =? _RISAF_GET_REGION_ID b (cfg r))
       (take (Z.to_nat (nregions (pdata risaf))) (regions (pdata risaf))).

Definition stm32_risaf_reconfigure_region (b : risaf_bindings) (clk_res : TEE_Result)
  (risaf : stm32_risaf_instance) (fw : firewall_query) (paddr size : Z)
  : mmio TEE_Result :=
  match fw with
  | [q_config] =>
      let id := _RISAF_GET_REGION_ID b q_config in
      if (id =? 0) || (nregions (pdata risaf) <=? id) then Ret TEE_ERROR_BAD_PARAMETERS
      else
        match region_with_id b risaf id with
        | None => Ret TEE_ERROR_ITEM_NOT_FOUND
        | Some region =>
            if negb (addr region =? paddr) || negb (len region =? size)
            then Ret TEE_ERROR_GENERIC
            else if is_error clk_res then Ret clk_res
            else
              risaf_configure_region b risaf id
                (_RISAF_GET_REGION_CFG b q_config)
                (_RISAF_GET_REGION_CID_CFG b q_config)
                (addr region)
                (wrap64 (wrap64 (addr region + len region) - 1))
        end
  | _ => Ret TEE_ERROR_BAD_PARAMETERS
  end.

(** Two entries that do not overlap, for the sample instance. *)
Definition scenario_disjoint : list dt_memory_region :=
  [ {| dt_pnode := 0x100; dt_reg_base := 0x80001000; dt_reg_size := 0x1000;
       dt_protreg := Some 0x01010031 |};
    {| dt_pnode := 0x140; dt_reg_base := 0x80002000; dt_reg_size := 0x2000;
       dt_protreg := Some 0x01010032 |} ].

(** A table of three entries for the sample instance, two of them
    configured, as a probe leaves it. *)
Definition sample_risaf_probed : stm32_risaf_instance :=
  {| pdata := {| base := 0x420D0000;
                 regions := [ {| cfg := 0x01010031; addr := 0x80001000; len := 0x1000 |};
                              {| cfg := 0x01010032; addr := 0x80002000; len := 0x2000 |};
                              zero_region ];
                 nregions := 3;
                 mem_base := 0x80000000; mem_size := 0x10000000;
                 enc_supported := false |};
     ddata := {| mask_regions := GENMASK_32 27 12; max_base_regions := 4;
                 granularity := 0x1000 |} |}.

End Risaf.

(** ** [stm32_etzpc.c] *)

Module Etzpc.

Inductive etzpc_decprot_attributes : Type :=
| ETZPC_DECPROT_S_RW
| ETZPC_DECPROT_NS_R_S_W
| ETZPC_DECPROT_MCU_ISOLATION
| ETZPC_DECPROT_NS_RW
| ETZPC_DECPROT_MAX.

Definition attr_to_Z (a : etzpc_decprot_attributes) : Z :=
  match a with
  | ETZPC_DECPROT_S_RW => 0
  | ETZPC_DECPROT_NS_R_S_W => 1
  | ETZPC_DECPROT_MCU_ISOLATION => 2
  | ETZPC_DECPROT_NS_RW => 3
  | ETZPC_DECPROT_MAX => 4
  end.

(** The cast of a 2-bit field to the enumeration. *)
Definition attr_of_Z (v : Z) : etzpc_decprot_attributes :=
  if v =? 0 then ETZPC_DECPROT_S_RW
  else if v =? 1 then ETZPC_DECPROT_NS_R_S_W
  else if v =? 2 then ETZPC_DECPROT_MCU_ISOLATION
  else if v =? 3 then ETZPC_DECPROT_NS_RW
  else ETZPC_DECPROT_MAX.

Definition attr_eqb (a b : etzpc_decprot_attributes) : bool :=
  attr_to_Z a =? attr_to_Z b.

(** The bindings header, the platform memory map and two helpers of the
    platform layer are not among the sources; they are parameters.
    [mp15] is [CFG_STM32MP15], [with_pager] is [CFG_WITH_PAGER]. *)
Record etzpc_platform : Type := {
  ETZPC_ID_MASK : Z;
  ETZPC_LOCK_MASK : Z;
  ETZPC_MODE_SHIFT : Z;
  ETZPC_MODE_MASK : Z;
  DECPROT_S_RW : Z;
  DECPROT_NS_R_S_W : Z;
  DECPROT_MCU_ISOLATION : Z;
  DECPROT_NS_RW : Z;
  ETZPC_TZMA0_ID : Z;
  ETZPC_TZMA1_ID : Z;
  STM32MP1_ETZPC_SRAM1_ID : Z;
  STM32MP1_ETZPC_SRAM2_ID : Z;
  STM32MP1_ETZPC_SRAM3_ID : Z;
  STM32MP1_ETZPC_SRAM4_ID : Z;
  STM32MP1_ETZPC_RETRAM_ID : Z;
  ROM_BASE : Z; ROM_SIZE : Z;
  SYSRAM_BASE : Z; SYSRAM_SIZE : Z; SYSRAM_SEC_SIZE : Z;
  SRAM1_BASE : Z; SRAM1_SIZE : Z;
  SRAM2_BASE : Z; SRAM2_SIZE : Z;
  SRAM3_BASE : Z; SRAM3_SIZE : Z;
  SRAM4_BASE : Z; SRAM4_SIZE : Z;
  RETRAM_BASE : Z; RETRAM_SIZE : Z;
  mp15 : bool;
  with_pager : bool;
  stm32mp1_pa_or_sram_alias_pa : Z -> Z;
  stm32mp1_ram_intersect_pager_ram : Z -> Z -> bool
}.

Definition SMALL_PAGE_SIZE : Z := 0x1000.

Definition ETZPC_TZMA0_SIZE : Z := 0x000.
Definition ETZPC_DECPROT0 : Z := 0x010.
Definition ETZPC_DECPROT_LOCK0 : Z := 0x030.
Definition ETZPC_TZMA0_SIZE_LOCK : Z := BIT 31.
Definition ETZPC_DECPROT0_MASK : Z := GENMASK_32 1 0.
Definition DECPROT_SHIFT : Z := 1.
Definition IDS_PER_DECPROT_REGS : Z := 16.
Definition IDS_PER_DECPROT_LOCK_REGS : Z := 32.

Record etzpc_device : Type := {
  base : Z;
  num_tzma : Z;
  num_per_sec : Z;
  num_ahb_sec : Z
}.

Definition etzpc_binding2decprot (pf : etzpc_platform) (mode : Z)
  : mmio etzpc_decprot_attributes :=
  if mode =? DECPROT_S_RW pf then Ret ETZPC_DECPROT_S_RW
  else if mode =? DECPROT_NS_R_S_W pf then Ret ETZPC_DECPROT_NS_R_S_W
  else if mp15 pf && (mode =? DECPROT_MCU_ISOLATION pf) then Ret ETZPC_DECPROT_MCU_ISOLATION
  else if mode =? DECPROT_NS_RW pf then Ret ETZPC_DECPROT_NS_RW
  else Panic.

Definition decprot_addr (dev : etzpc_device) (decprot_id : Z) : Z :=
  base dev + ETZPC_DECPROT0 + 4 * (decprot_id / IDS_PER_DECPROT_REGS).

Definition decprot_shift (decprot_id : Z) : Z :=
  wrap32 (Z.shiftl (decprot_id mod IDS_PER_DECPROT_REGS) DECPROT_SHIFT).

Definition decprot_lock_addr (dev : etzpc_device) (decprot_id : Z) : Z :=
  base dev + 4 * (decprot_id / IDS_PER_DECPROT_LOCK_REGS) + ETZPC_DECPROT_LOCK0.

Definition tzma_addr (dev : etzpc_device) (tzma_id : Z) : Z :=
  base dev + ETZPC_TZMA0_SIZE + 4 * tzma_id.

Definition etzpc_do_configure_decprot (dev : etzpc_device) (decprot_id : Z)
  (attr : etzpc_decprot_attributes) : mmio unit :=
  let shift := decprot_shift decprot_id in
  let masked_decprot := Z.land (attr_to_Z attr) ETZPC_DECPROT0_MASK in
  io_clrsetbits32 (decprot_addr dev decprot_id)
    (wrap32 (Z.shiftl ETZPC_DECPROT0_MASK shift))
    (wrap32 (Z.shiftl masked_decprot shift)).

Definition etzpc_do_get_decprot (dev : etzpc_device) (decprot_id : Z)
  : mmio etzpc_decprot_attributes :=
  v <- io_read32 (decprot_addr dev decprot_id) ;;
  Ret (attr_of_Z (Z.land (Z.shiftr v (decprot_shift decprot_id)) ETZPC_DECPROT0_MASK)).

Definition etzpc_do_lock_decprot (dev : etzpc_device) (decprot_id : Z) : mmio unit :=
  io_write32 (decprot_lock_addr dev decprot_id)
    (BIT (decprot_id mod IDS_PER_DECPROT_LOCK_REGS)).

Definition decprot_is_locked (dev : etzpc_device) (decprot_id : Z) : mmio bool :=
  v <- io_read32 (decprot_lock_addr dev decprot_id) ;;
  Ret (nz (Z.land v (BIT (decprot_id mod IDS_PER_DECPROT_LOCK_REGS)))).

(** [tzma_value] is a [uint16_t]. *)
Definition etzpc_do_configure_tzma (dev : etzpc_device) (tzma_id tzma_value : Z)
  : mmio unit :=
  io_write32 (tzma_addr dev tzma_id) (tzma_value mod 2 ^ 16).

Definition etzpc_do_get_tzma (dev : etzpc_device) (tzma_id : Z) : mmio Z :=
  v <- io_read32 (tzma_addr dev tzma_id) ;; Ret (v mod 2 ^ 16).

Definition etzpc_do_lock_tzma (dev : etzpc_device) (tzma_id : Z) : mmio unit :=
  io_setbits32 (tzma_addr dev tzma_id) ETZPC_TZMA0_SIZE_LOCK.

Definition tzma_is_locked (dev : etzpc_device) (tzma_id : Z) : mmio bool :=
  v <- io_read32 (tzma_addr dev tzma_id) ;; Ret (nz (Z.land v ETZPC_TZMA0_SIZE_LOCK)).

Definition stm32_etzpc_check_access (pf : etzpc_platform) (dev : etzpc_device)
  (firewall : firewall_query) : mmio TEE_Result :=
  match firewall with
  | [arg0] =>
      let id := Z.land arg0 (ETZPC_ID_MASK pf) in
      attr_req <- etzpc_binding2decprot pf
                    (Z.shiftr (Z.land arg0 (ETZPC_MODE_MASK pf)) (ETZPC_MODE_SHIFT pf)) ;;
      if id <? num_per_sec dev then
        attr <- etzpc_do_get_decprot dev id ;;
        if attr_eqb attr attr_req
           || ((attr_eqb attr_req ETZPC_DECPROT_S_RW
                || attr_eqb attr_req ETZPC_DECPROT_NS_R_S_W)
               && negb (attr_eqb attr ETZPC_DECPROT_MCU_ISOLATION))
           || ((attr_eqb attr_req ETZPC_DECPROT_NS_RW
                || attr_eqb attr_req ETZPC_DECPROT_NS_R_S_W)
               && negb (attr_eqb attr ETZPC_DECPROT_MCU_ISOLATION)
               && negb (attr_eqb attr ETZPC_DECPROT_S_RW))
        then Ret TEE_SUCCESS
        else Ret TEE_ERROR_ACCESS_DENIED
      else Ret TEE_ERROR_BAD_PARAMETERS
  | _ => Ret TEE_ERROR_BAD_PARAMETERS
  end.

Definition pager_permits_decprot_config (pf : etzpc_platform) (decprot_id : Z)
  (attr : etzpc_decprot_attributes) : bool :=
  if negb (with_pager pf) then true
  else
    let check (ram_base ram_size : Z) :=
      negb (stm32mp1_ram_intersect_pager_ram pf ram_base ram_size
            && negb (attr_eqb attr ETZPC_DECPROT_S_RW)) in
    if decprot_id =? ETZPC_TZMA1_ID pf then check (SYSRAM_BASE pf) (SYSRAM_SEC_SIZE pf)
    else if decprot_id =? STM32MP1_ETZPC_SRAM1_ID pf then check (SRAM1_BASE pf) (SRAM1_SIZE pf)
    else if decprot_id =? STM32MP1_ETZPC_SRAM2_ID pf then check (SRAM2_BASE pf) (SRAM2_SIZE pf)
    else if decprot_id =? STM32MP1_ETZPC_SRAM3_ID pf then check (SRAM3_BASE pf) (SRAM3_SIZE pf)
    else if decprot_id =? STM32MP1_ETZPC_SRAM4_ID pf then check (SRAM4_BASE pf) (SRAM4_SIZE pf)
    else true.

(** The tail shared by the peripheral and the internal-RAM paths: the lock
    test, then the configuration and the optional lock. *)
Definition configure_decprot_unless_locked (pf : etzpc_platform) (dev : etzpc_device)
  (arg0 id : Z) (attr : etzpc_decprot_attributes) : mmio TEE_Result :=
  locked <- decprot_is_locked dev id ;;
  if locked then
    cur <- etzpc_do_get_decprot dev id ;;
    if negb (attr_eqb cur attr) then Ret TEE_ERROR_ACCESS_DENIED else Ret TEE_SUCCESS
  else if mp15 pf && negb (pager_permits_decprot_config pf id attr)
  then Ret TEE_ERROR_ACCESS_DENIED
  else
    etzpc_do_configure_decprot dev id attr ;;;
    when (nz (Z.land arg0 (ETZPC_LOCK_MASK pf))) (etzpc_do_lock_decprot dev id) ;;;
    Ret TEE_SUCCESS.

Definition stm32_etzpc_configure (pf : etzpc_platform) (dev : etzpc_device)
  (firewall : firewall_query) : mmio TEE_Result :=
  match firewall with
  | [arg0] =>
      let id := Z.land arg0 (ETZPC_ID_MASK pf) in
      if id <? num_per_sec dev then
        attr <- etzpc_binding2decprot pf
                  (Z.shiftr (Z.land arg0 (ETZPC_MODE_MASK pf)) (ETZPC_MODE_SHIFT pf)) ;;
        configure_decprot_unless_locked pf dev arg0 id attr
      else Ret TEE_ERROR_BAD_PARAMETERS
  | _ => Ret TEE_ERROR_BAD_PARAMETERS
  end.

Definition is_sram_id (pf : etzpc_platform) (id : Z) : bool :=
  (id =? STM32MP1_ETZPC_SRAM1_ID pf) || (id =? STM32MP1_ETZPC_SRAM2_ID pf)
  || (mp15 pf && ((id =? STM32MP1_ETZPC_SRAM4_ID pf) || (id =? STM32MP1_ETZPC_RETRAM_ID pf)))
  || (id =? STM32MP1_ETZPC_SRAM3_ID pf).

(** The window that an internal-RAM id stands for; [None] is the
    [default: panic()] of the switch. *)
Definition sram_window (pf : etzpc_platform) (id : Z) : option (Z * Z) :=
  if id =? STM32MP1_ETZPC_SRAM1_ID pf then Some (SRAM1_BASE pf, SRAM1_SIZE pf)
  else if id =? STM32MP1_ETZPC_SRAM2_ID pf then Some (SRAM2_BASE pf, SRAM2_SIZE pf)
  else if id =? STM32MP1_ETZPC_SRAM3_ID pf then Some (SRAM3_BASE pf, SRAM3_SIZE pf)
  else if mp15 pf && (id =? STM32MP1_ETZPC_SRAM4_ID pf)
  then Some (SRAM4_BASE pf, SRAM4_SIZE pf)
  else if mp15 pf && (id =? STM32MP1_ETZPC_RETRAM_ID pf)
  then Some (RETRAM_BASE pf, RETRAM_SIZE pf)
  else None.

(** Modelled from the spec: the rounding macros of [util.h]; a TZMA size
    is a count of small pages. *)
Definition IS_ALIGNED (x a : Z) : bool := Z.land x (a - 1) =? 0.
Definition ROUNDUP_DIV (x y : Z) : Z := (x + y - 1) / y.

Definition configure_tzma_unless_locked (dev : etzpc_device) (tzma_id size : Z)
  : mmio TEE_Result :=
  if negb (IS_ALIGNED size SMALL_PAGE_SIZE) then Ret TEE_ERROR_BAD_PARAMETERS
  else
    let total_sz := wrap32 (ROUNDUP_DIV size SMALL_PAGE_SIZE) in
    locked <- tzma_is_locked dev tzma_id ;;
    if locked then
      cur <- etzpc_do_get_tzma dev tzma_id ;;
      if negb (cur =? total_sz) then Ret TEE_ERROR_ACCESS_DENIED else Ret TEE_SUCCESS
    else
      etzpc_do_configure_tzma dev tzma_id total_sz ;;; Ret TEE_SUCCESS.

Definition stm32_etzpc_configure_memory (pf : etzpc_platform) (dev : etzpc_device)
  (firewall : firewall_query) (paddr size : Z) : mmio TEE_Result :=
  match firewall with
  | [arg0] =>
      let id := Z.land arg0 (ETZPC_ID_MASK pf) in
      if (id <? num_per_sec dev) && is_sram_id pf id then
        let paddr := stm32mp1_pa_or_sram_alias_pa pf paddr in
        match sram_window pf id with
        | None => Panic
        | Some (wbase, wsize) =>
            if negb (paddr =? wbase) || negb (size =? wsize)
            then Ret TEE_ERROR_BAD_PARAMETERS
            else
              attr <- etzpc_binding2decprot pf
                        (Z.shiftr (Z.land arg0 (ETZPC_MODE_MASK pf)) (ETZPC_MODE_SHIFT pf)) ;;
              configure_decprot_unless_locked pf dev arg0 id attr
        end
      else if id =? ETZPC_TZMA0_ID pf then
        if negb (paddr =? ROM_BASE pf) || (ROM_SIZE pf <? size)
        then Ret TEE_ERROR_BAD_PARAMETERS
        else configure_tzma_unless_locked dev 0 size
      else if id =? ETZPC_TZMA1_ID pf then
        if negb (paddr =? SYSRAM_BASE pf) || (SYSRAM_SIZE pf <? size)
        then Ret TEE_ERROR_BAD_PARAMETERS
        else configure_tzma_unless_locked dev 1 size
      else Ret TEE_ERROR_BAD_PARAMETERS
  | _ => Ret TEE_ERROR_BAD_PARAMETERS
  end.

(** Modelled from the spec: a query cell carries the peripheral id, the
    2-bit DECPROT mode and a lock flag. One placement and one memory map,
    to run the routines on concrete cells: peripheral id in bits 7..0, mode
    in bits 9..8, lock flag in bit 16. *)
Definition sample_platform : etzpc_platform :=
  {| ETZPC_ID_MASK := GENMASK_32 7 0;
     ETZPC_LOCK_MASK := BIT 16;
     ETZPC_MODE_SHIFT := 8;
     ETZPC_MODE_MASK := GENMASK_32 9 8;
     DECPROT_S_RW := 0; DECPROT_NS_R_S_W := 1;
     DECPROT_MCU_ISOLATION := 2; DECPROT_NS_RW := 3;
     ETZPC_TZMA0_ID := 200; ETZPC_TZMA1_ID := 201;
     STM32MP1_ETZPC_SRAM1_ID := 80; STM32MP1_ETZPC_SRAM2_ID := 81;
     STM32MP1_ETZPC_SRAM3_ID := 82; STM32MP1_ETZPC_SRAM4_ID := 83;
     STM32MP1_ETZPC_RETRAM_ID := 84;
     ROM_BASE := 0; ROM_SIZE := 0x20000;
     SYSRAM_BASE := 0x2FFC0000; SYSRAM_SIZE := 0x40000; SYSRAM_SEC_SIZE := 0x40000;
     SRAM1_BASE := 0x30000000; SRAM1_SIZE := 0x20000;
     SRAM2_BASE := 0x30020000; SRAM2_SIZE := 0x20000;
     SRAM3_BASE := 0x30040000; SRAM3_SIZE := 0x10000;
     SRAM4_BASE := 0x30050000; SRAM4_SIZE := 0x10000;
     RETRAM_BASE := 0x38000000; RETRAM_SIZE := 0x10000;
     mp15 := true; with_pager := false;
     stm32mp1_pa_or_sram_alias_pa := fun pa => pa;
     stm32mp1_ram_intersect_pager_ram := fun _ _ => false |}.

Definition sample_device : etzpc_device :=
  {| base := 0x5C007000; num_tzma := 2; num_per_sec := 96; num_ahb_sec := 0 |}.

(** *** Acquiring a peripheral, and the state kept across suspend *)

Definition stm32_etzpc_acquire_access (pf : etzpc_platform) (dev : etzpc_device)
  (firewall : firewall_query) : mmio TEE_Result :=
  match firewall with
  | [arg0] =>
      let id := Z.land arg0 (ETZPC_ID_MASK pf) in
      if id <? num_per_sec dev then
        attr <- etzpc_do_get_decprot dev id ;;
        if negb (attr_eqb attr ETZPC_DECPROT_S_RW)
           && negb (attr_eqb attr ETZPC_DECPROT_NS_R_S_W)
        then Ret TEE_ERROR_ACCESS_DENIED
        else Ret TEE_SUCCESS
      else Ret TEE_ERROR_BAD_PARAMETERS
  | _ => Ret TEE_ERROR_BAD_PARAMETERS
  end.

Definition PERIPH_PM_LOCK_BIT : Z := BIT 7.
Definition PERIPH_PM_ATTR_MASK : Z := GENMASK_32 2 0.
Definition TZMA_PM_LOCK_BIT : Z := BIT 15.
Definition TZMA_PM_VALUE_MASK : Z := GENMASK_32 9 0.

(** [etzpc_do_configure_decprot] on the integer behind the enumeration:
    the resume path casts a saved 3-bit value to the enumeration, and the
    routine keeps its two low bits. *)
Definition etzpc_do_configure_decprot_word (dev : etzpc_device) (decprot_id attr : Z)
  : mmio unit :=
  let shift := decprot_shift decprot_id in
  let masked_decprot := Z.land attr ETZPC_DECPROT0_MASK in
  io_clrsetbits32 (decprot_addr dev decprot_id)
    (wrap32 (Z.shiftl ETZPC_DECPROT0_MASK shift))
    (wrap32 (Z.shiftl masked_decprot shift)).

(** The body of the first suspend loop: [periph_cfg[n]] is a [uint8_t]. *)
Definition pm_save_periph (dev : etzpc_device) (n : Z) : mmio Z :=
  attr <- etzpc_do_get_decprot dev n ;;
  locked <- decprot_is_locked dev n ;;
  let cfg := attr_to_Z attr mod 2 ^ 8 in
  Ret (if locked then Z.lor cfg PERIPH_PM_LOCK_BIT mod 2 ^ 8 else cfg).

(** The body of the second suspend loop: the size read is cast to
    [uint8_t] before it is stored in the [uint16_t] [tzma_cfg[n]]. *)
Definition pm_save_tzma (dev : etzpc_device) (n : Z) : mmio Z :=
  v <- etzpc_do_get_tzma dev n ;;
  locked <- tzma_is_locked dev n ;;
  let cfg := v mod 2 ^ 8 in
  Ret (if locked then Z.lor cfg TZMA_PM_LOCK_BIT mod 2 ^ 16 else cfg).

(** [for (n = from; n < from + count; n++) out[n] = body(n);] *)
Fixpoint pm_save_loop (body : Z -> mmio Z) (from : Z) (count : nat) : mmio (list Z) :=
  match count with
  | O => Ret []
  | S c =>
      x <- body from ;;
      rest <- pm_save_loop body (from + 1) c ;;
      Ret (x :: rest)
  end.

(** [etzpc_pm] with [PM_OP_SUSPEND]: the two tables it fills. *)
Definition etzpc_pm_suspend (dev : etzpc_device) : mmio (TEE_Result * list Z * list Z) :=
  periph_cfg <- pm_save_loop (pm_save_periph dev) 0 (Z.to_nat (num_per_sec dev)) ;;
  tzma_cfg <- pm_save_loop (pm_save_tzma dev) 0 (Z.to_nat (num_tzma dev)) ;;
  Ret (TEE_SUCCESS, periph_cfg, tzma_cfg).

Definition pm_restore_periph (dev : etzpc_device) (n cfg : Z) : mmio unit :=
  etzpc_do_configure_decprot_word dev n (Z.land cfg PERIPH_PM_ATTR_MASK) ;;;
  when (nz (Z.land cfg PERIPH_PM_LOCK_BIT)) (etzpc_do_lock_decprot dev n).

Definition pm_restore_tzma (dev : etzpc_device) (n cfg : Z) : mmio unit :=
  etzpc_do_configure_tzma dev n (Z.land cfg TZMA_PM_VALUE_MASK) ;;;
  when (nz (Z.land cfg TZMA_PM_LOCK_BIT)) (etzpc_do_lock_tzma dev n).

(** [for (n = from; n < ...; n++) body(n, table[n]);] over the saved table. *)
Fixpoint pm_restore_loop (body : Z -> Z -> mmio unit) (from : Z) (table : list Z)
  : mmio unit :=
  match table with
  | [] => Ret tt
  | cfg :: rest => body from cfg ;;; pm_restore_loop body (from + 1) rest
  end.

(** [etzpc_pm] with [PM_OP_RESUME], on tables of [num_per_sec] and
    [num_tzma] entries. *)
Definition etzpc_pm_resume (dev : etzpc_device) (periph_cfg tzma_cfg : list Z)
  : mmio TEE_Result :=
  pm_restore_loop (pm_restore_periph dev) 0 (take (Z.to_nat (num_per_sec dev)) periph_cfg) ;;;
  pm_restore_loop (pm_restore_tzma dev) 0 (take (Z.to_nat (num_tzma dev)) tzma_cfg) ;;;
  Ret TEE_SUCCESS.

(** The DECPROT field of a peripheral in a state of the register file. *)
Definition decprot_field (dev : etzpc_device) (s : hw regfile) (i : Z) : Z :=
  Z.land (Z.shiftr (wrap32 (s (decprot_addr dev i))) (decprot_shift i)) ETZPC_DECPROT0_MASK.

End Etzpc.

(** ** Sample tables for the cell parser

    Empty tables for an IP with 64 resources: two words per bitmap and one
    CID word per resource. *)
Definition empty_conf_data : rif_conf_data :=
  {| access_mask := [0; 0];
     sec_conf := [0; 0];
     priv_conf := [0; 0];
     cid_confs := replicate 64 0;
     lock_conf := Some [0; 0] |}.

(** ** A locked RISUP on the sample platform

    Resource 3 is non-secure and unfiltered, its semaphore free, and its
    bit in RCFGLOCKR0 set. *)
Definition locked_regs : hw regfile :=
  fun a => if a =? rcfglockr_addr 0x42080000 3 then BIT 3 else 0.

(* ===================================================================== *)
(** * Part II: properties *)
(* ===================================================================== *)

(** ** Words and masks *)

Lemma nz_true_iff x : nz x = true <-> x <> 0.
Proof. unfold nz. rewrite negb_true_iff, Z.eqb_neq. tauto. Qed.

Lemma nz_land_BIT x n :
  0 <= n < 32 -> nz (Z.land x (BIT n)) = Z.testbit x n.
Proof.
  intros Hn. unfold BIT, wrap32.
  rewrite Z.shiftl_1_l, Z.mod_small
    by (split; [apply Z.pow_nonneg; lia | apply Z.pow_lt_mono_r; lia]).
  destruct (Z.testbit x n) eqn:E.
  - apply nz_true_iff. intros H0.
    assert (Z.testbit (Z.land x (2 ^ n)) n = false) by (rewrite H0; apply Z.testbit_0_l).
    rewrite Z.land_spec, E, Z.pow2_bits_true in H by lia. discriminate.
  - unfold nz. apply negb_false_iff, Z.eqb_eq. apply Z.bits_inj'. intros k Hk.
    rewrite Z.land_spec, Z.testbit_0_l, Z.pow2_bits_eqb by lia.
    destruct (Z.eqb_spec n k); subst; [rewrite E | rewrite andb_false_r]; reflexivity.
Qed.

Lemma testbit_out_of_word x n : in_u32 x -> 32 <= n -> Z.testbit x n = false.
Proof.
  intros [H0 H1] Hn. destruct (Z.eq_dec x 0) as [->|Hx]; [apply Z.testbit_0_l|].
  apply Z.bits_above_log2; [lia|].
  assert (Z.log2 x < 32) by (apply Z.log2_lt_pow2; lia). lia.
Qed.

(** ** The SCID mask *)

Lemma cid_bitfield_fits_bound nb :
  in_u32 nb -> cid_bitfield_fits nb -> 0 <= nb <= MAX_CID_SUPPORTED.
Proof.
  unfold in_u32, cid_bitfield_fits, msb_nb_cid_supp, clz32, MAX_CID_BITFIELD,
    MAX_CID_SUPPORTED.
  intros [H0 _] H. split; [assumption|].
  rewrite Z.log2_lor in H by lia.
  destruct (Z.eq_dec nb 0) as [->|Hnz]; [lia|].
  assert (Z.log2 nb < 3) by lia.
  apply Z.log2_lt_pow2 in H1; lia.
Qed.

Lemma scid_mask_cases nb :
  in_u32 nb -> cid_bitfield_fits nb ->
  scid_mask_of nb = 0x10 \/ scid_mask_of nb = 0x30 \/ scid_mask_of nb = 0x70.
Proof.
  intros Hu Hf. destruct (cid_bitfield_fits_bound nb Hu Hf) as [H0 H7].
  unfold MAX_CID_SUPPORTED in H7.
  assert (nb = 0 \/ nb = 1 \/ nb = 2 \/ nb = 3 \/ nb = 4 \/ nb = 5 \/ nb = 6 \/ nb = 7)
    as Hc by lia.
  repeat (destruct Hc as [-> | Hc]); try subst nb; vm_compute; tauto.
Qed.

(** A field whose mask starts at bit 4 equals [cid << 4] exactly when the
    field value is [cid], as long as the shift stays inside the word. *)
Lemma scid_field_eqb c m cid :
  Z.land m 15 = 0 -> 0 <= cid < 2 ^ 28 ->
  (Z.land c m =? wrap32 (Z.shiftl cid _CIDCFGR_SCID_SHIFT))
  = (Z.shiftr (Z.land c m) 4 =? cid).
Proof.
  intros Hm Hcid. unfold _CIDCFGR_SCID_SHIFT, wrap32.
  rewrite Z.shiftl_mul_pow2, Z.shiftr_div_pow2 by lia.
  rewrite Z.mod_small by lia.
  assert (Hlow : Z.land c m mod 2 ^ 4 = 0).
  { rewrite <- Z.land_ones by lia. change (Z.ones 4) with 15.
    rewrite <- Z.land_assoc, Hm. apply Z.land_0_r. }
  pose proof (Z.div_mod (Z.land c m) (2 ^ 4) ltac:(lia)) as Hdm.
  rewrite Hlow in Hdm.
  destruct (Z.eqb_spec (Z.land c m) (cid * 2 ^ 4)) as [E|E];
    destruct (Z.eqb_spec (Z.land c m / 2 ^ 4) cid) as [E'|E']; try reflexivity.
  - exfalso. apply E'. rewrite E. apply Z.div_mul. lia.
  - exfalso. apply E. lia.
Qed.

(** ** C1: the access decision table of [stm32_rif_check_access] *)

(** C1. For every 32-bit CID-filtering word and semaphore word, every
    supported-compartment count accepted by the routine's assertion and
    every requesting CID whose white-list bit [BIT(cid + 16)] is a bit of
    the word (a CID below 16): success when filtering is disabled; with filtering on and semaphore
    mode off, success exactly when the requesting CID is the static CID;
    with filtering and semaphore mode on, success exactly when the CID is
    white-listed and the semaphore is free or held by that CID; every other
    case is [TEE_ERROR_ACCESS_DENIED]. *)
Theorem rif_check_access_decision_table cidcfgr semcr nb_cid_supp cid :
  in_u32 cidcfgr -> in_u32 nb_cid_supp -> cid_bitfield_fits nb_cid_supp ->
  0 <= cid -> cid + _CIDCFGR_SEMWL_SHIFT < 32 ->
  let r := stm32_rif_check_access cidcfgr semcr nb_cid_supp cid in
  (cid_filtering_enabled cidcfgr = false -> r = TEE_SUCCESS) /\
  (cid_filtering_enabled cidcfgr = true -> semaphore_enabled cidcfgr = false ->
   (r = TEE_SUCCESS <-> cid = static_cid nb_cid_supp cidcfgr)) /\
  (cid_filtering_enabled cidcfgr = true -> semaphore_enabled cidcfgr = true ->
   (r = TEE_SUCCESS <->
    semaphore_whitelisted cidcfgr cid = true /\
    (semaphore_taken semcr = false \/ semaphore_holder nb_cid_supp semcr = cid))) /\
  (r <> TEE_SUCCESS -> r = TEE_ERROR_ACCESS_DENIED).
Proof.
  intros Hc Hnb Hfit Hcid0 Hwl r. subst r.
  assert (Hcid : 0 <= cid < 2 ^ 28) by (unfold _CIDCFGR_SEMWL_SHIFT in Hwl; lia).
  unfold _CIDCFGR_SEMWL_SHIFT in Hwl.
  unfold stm32_rif_check_access, SCID_OK, SEM_EN_AND_OK, cid_filtering_enabled,
    semaphore_enabled, semaphore_whitelisted, semaphore_taken, static_cid,
    semaphore_holder, _CIDCFGR_CFEN, _CIDCFGR_SEMEN, _SEMCR_MUTEX, _CIDCFGR_SEMWL,
    _CIDCFGR_SEMWL_SHIFT.
  assert (Hm : Z.land (scid_mask_of nb_cid_supp) 15 = 0).
  { destruct (scid_mask_cases nb_cid_supp Hnb Hfit) as [-> | [-> | ->]]; reflexivity. }
  rewrite (scid_field_eqb _ _ _ Hm Hcid).
  rewrite (nz_land_BIT cidcfgr 0), (nz_land_BIT cidcfgr 1), (nz_land_BIT semcr 0) by lia.
  rewrite (nz_land_BIT cidcfgr (16 + cid)) by lia.
  change _CIDCFGR_SCID_SHIFT with 4.
  set (m := scid_mask_of nb_cid_supp).
  destruct (Z.testbit cidcfgr 0) eqn:E0; destruct (Z.testbit cidcfgr 1) eqn:E1;
    destruct (Z.testbit cidcfgr (16 + cid)) eqn:Ewl;
    destruct (Z.testbit semcr 0) eqn:Emx;
    destruct (Z.eqb_spec (Z.shiftr (Z.land cidcfgr m) 4) cid) as [Es|Es];
    destruct (Z.eqb_spec (Z.shiftr (Z.land semcr m) 4) cid) as [Eh|Eh];
    cbn; repeat split; intros; try discriminate; try congruence; try tauto;
    try (intuition congruence).
Qed.

Lemma rif_check_access_decision_table_witness :
  let r := stm32_rif_check_access 0x20003 0x11 7 1 in
  (cid_filtering_enabled 0x20003 = false -> r = TEE_SUCCESS) /\
  (cid_filtering_enabled 0x20003 = true -> semaphore_enabled 0x20003 = false ->
   (r = TEE_SUCCESS <-> 1 = static_cid 7 0x20003)) /\
  (cid_filtering_enabled 0x20003 = true -> semaphore_enabled 0x20003 = true ->
   (r = TEE_SUCCESS <->
    semaphore_whitelisted 0x20003 1 = true /\
    (semaphore_taken 0x11 = false \/ semaphore_holder 7 0x11 = 1))) /\
  (r <> TEE_SUCCESS -> r = TEE_ERROR_ACCESS_DENIED).
Proof.
  apply (rif_check_access_decision_table 0x20003 0x11 7 1);
    unfold in_u32, cid_bitfield_fits; vm_compute; intuition discriminate.
Defined.

(** Scenario B of the design: with compartments 1 and 2 white-listed and
    the semaphore held by compartment 1, compartment 1 is granted access and
    compartment 3 is denied. *)
Example scenario_b_check_access :
  stm32_rif_check_access 0x60003 0x11 7 1 = TEE_SUCCESS /\
  stm32_rif_check_access 0x60003 0x11 7 3 = TEE_ERROR_ACCESS_DENIED.
Proof. split; reflexivity. Qed.

(** ** Runs of the MMIO monad *)

Lemma wrap32_range x : in_u32 (wrap32 x).
Proof. unfold in_u32, wrap32. apply Z.mod_pos_bound. lia. Qed.

Lemma run_bind {A B : Type} (d : device) (m : mmio A) (f : A -> mmio B) (s : hw d) :
  run d (bind m f) s =
  match run d m s with
  | (Done a, s1, t1) => let '(r, s2, t2) := run d (f a) s1 in (r, s2, t1 ++ t2)
  | (Panicked, s1, t1) => (Panicked, s1, t1)
  end.
Proof.
  revert s. induction m as [a | | addr k IH | addr val k IH | addr k IH]; intros s; simpl.
  - destruct (run d (f a) s) as [[r s2] t2]. reflexivity.
  - reflexivity.
  - destruct (hw_read d s addr) as [v s1]. rewrite IH.
    destruct (run d (k (wrap32 v)) s1) as [[[a|] s2] t1]; [|reflexivity].
    destruct (run d (f a) s2) as [[r s3] t2]. reflexivity.
  - rewrite IH.
    destruct (run d k (hw_write d s addr val)) as [[[a|] s2] t1]; [|reflexivity].
    destruct (run d (f a) s2) as [[r s3] t2]. reflexivity.
  - destruct (hw_read d s addr) as [v s1]. rewrite IH.
    destruct (run d (k (v mod 2 ^ 8)) s1) as [[[a|] s2] t1]; [|reflexivity].
    destruct (run d (f a) s2) as [[r s3] t2]. reflexivity.
Qed.

(** Clearing and setting bit 0 of a 32-bit word, as the helpers compute it. *)
Lemma clear_mutex_word v :
  in_u32 v -> Z.land v (not32 _SEMCR_MUTEX) = Z.clearbit v 0.
Proof.
  intros Hv. change (not32 _SEMCR_MUTEX) with 0xFFFFFFFE.
  apply Z.bits_inj'. intros n Hn.
  rewrite Z.land_spec, Z.clearbit_eqb by lia.
  destruct (Z.eqb_spec 0 n) as [<-|Hne].
  - destruct (Z.testbit v 0); reflexivity.
  - destruct (Z_lt_le_dec n 32) as [Hlt|Hge].
    + replace (Z.testbit 4294967294 n) with true; [reflexivity|].
      change 4294967294 with (Z.shiftl (Z.ones 31) 1).
      rewrite Z.shiftl_spec, Z.ones_spec_low by lia. reflexivity.
    + rewrite (testbit_out_of_word v n) by auto. reflexivity.
Qed.

Lemma set_mutex_word v : Z.lor v _SEMCR_MUTEX = Z.setbit v 0.
Proof. reflexivity. Qed.

Lemma semaphore_taken_mutex v : nz (Z.land v _SEMCR_MUTEX) = semaphore_taken v.
Proof. apply (nz_land_BIT v 0). lia. Qed.

(** ** C7: releasing a semaphore *)

(** Every run of [stm32_rif_release_semaphore] follows [release_run]. *)
Lemma release_semaphore_run (d : device) (s : hw d) (addr nb : Z) :
  let '(r, _, t) := run d (stm32_rif_release_semaphore addr nb) s in
  exists code, r = Done code /\ release_run addr nb t code.
Proof.
  unfold stm32_rif_release_semaphore, stm32_rif_is_semaphore_available,
    io_clrbits32, io_read32, io_write32. simpl.
  destruct (hw_read d s addr) as [x1 s1]. rewrite semaphore_taken_mutex.
  destruct (semaphore_taken (wrap32 x1)) eqn:E1; simpl.
  2:{ eexists; split; [reflexivity|]. constructor. assumption. }
  destruct (hw_read d s1 addr) as [x2 s2]. simpl.
  destruct (hw_read d _ addr) as [x3 s3]. rewrite semaphore_taken_mutex.
  rewrite (clear_mutex_word (wrap32 x2)) by apply wrap32_range.
  destruct (semaphore_taken (wrap32 x3)) eqn:E3; simpl.
  2:{ eexists; split; [reflexivity|]. constructor; assumption. }
  destruct (hw_read d s3 addr) as [x4 s4]. simpl.
  change _CIDCFGR_SCID_SHIFT with 4.
  fold (semaphore_holder nb (wrap32 x4)).
  destruct (Z.eqb_spec (semaphore_holder nb (wrap32 x4)) RIF_CID1) as [Eh|Eh]; simpl;
    (eexists; split; [reflexivity|]).
  - apply release_still_held; assumption.
  - apply release_taken_by_other; assumption.
Qed.

Lemma acquire_semaphore_run (d : device) (s : hw d) (addr nb : Z) :
  let '(r, _, t) := run d (stm32_rif_acquire_semaphore addr nb) s in
  exists code, r = Done code /\ acquire_run addr nb t code.
Proof.
  unfold stm32_rif_acquire_semaphore, stm32_rif_is_semaphore_available,
    io_setbits32, io_read32, io_write32. simpl.
  destruct (hw_read d s addr) as [x0 s0]. simpl.
  destruct (hw_read d _ addr) as [x1 s1]. rewrite semaphore_taken_mutex.
  rewrite set_mutex_word.
  destruct (semaphore_taken (wrap32 x1)) eqn:E1; simpl.
  2:{ eexists; split; [reflexivity|]. constructor; assumption. }
  destruct (hw_read d s1 addr) as [x2 s2]. simpl.
  change _CIDCFGR_SCID_SHIFT with 4.
  fold (semaphore_holder nb (wrap32 x2)).
  destruct (Z.eqb_spec (semaphore_holder nb (wrap32 x2)) RIF_CID1) as [Eh|Eh]; simpl;
    (eexists; split; [reflexivity|]).
  - apply acquire_held; assumption.
  - apply acquire_lost; assumption.
Qed.

(** C7. For every device and every state of the semaphore register:
    when the first read shows the semaphore free the routine returns
    success and its whole run is that single read, with no write; else
    it writes the value read back with the mutex bit cleared, re-reads, and
    returns success when the mutex now reads clear or the holder read next
    is not compartment 1, and [TEE_ERROR_ACCESS_DENIED] only when the mutex
    still reads set with compartment 1 as its holder. *)
Theorem rif_release_semaphore_protocol (d : device) (s : hw d) (addr nb : Z) :
  let '(r, s', t) := run d (stm32_rif_release_semaphore addr nb) s in
  exists code, r = Done code /\ release_run addr nb t code /\
  (semaphore_taken (wrap32 (fst (hw_read d s addr))) = false ->
   code = TEE_SUCCESS /\ writes_of t = [] /\ s' = snd (hw_read d s addr)) /\
  (code = TEE_ERROR_ACCESS_DENIED ->
   exists t0 v3 v4, t = t0 ++ [EvRead addr v3; EvRead addr v4] /\
     In (EvWrite addr (Z.clearbit (wrap32 (fst (hw_read d (snd (hw_read d s addr)) addr))) 0)) t0 /\
     semaphore_taken v3 = true /\ semaphore_holder nb v4 = RIF_CID1).
Proof.
  pose proof (release_semaphore_run d s addr nb) as Hrun.
  unfold stm32_rif_release_semaphore, stm32_rif_is_semaphore_available,
    io_clrbits32, io_read32, io_write32 in *. simpl in *.
  destruct (hw_read d s addr) as [x1 s1]. rewrite semaphore_taken_mutex in *.
  destruct (semaphore_taken (wrap32 x1)) eqn:E1; simpl in *.
  2:{ destruct Hrun as (code & Hc & Hr). inversion Hc; subst code.
      exists TEE_SUCCESS. repeat split; auto; discriminate. }
  destruct (hw_read d s1 addr) as [x2 s2]. simpl in *.
  destruct (hw_read d _ addr) as [x3 s3]. rewrite semaphore_taken_mutex in *.
  rewrite (clear_mutex_word (wrap32 x2)) in * by apply wrap32_range.
  destruct (semaphore_taken (wrap32 x3)) eqn:E3; simpl in *.
  2:{ destruct Hrun as (code & Hc & Hr). inversion Hc; subst code.
      exists TEE_SUCCESS. repeat split; auto; congruence. }
  destruct (hw_read d s3 addr) as [x4 s4]. simpl in *.
  change _CIDCFGR_SCID_SHIFT with 4 in *.
  fold (semaphore_holder nb (wrap32 x4)) in *.
  destruct (Z.eqb_spec (semaphore_holder nb (wrap32 x4)) RIF_CID1) as [Eh|Eh];
    simpl in *; destruct Hrun as (code & Hc & Hr);
    inversion Hc; subst code; eexists; (split; [reflexivity|]);
    (split; [assumption|]); (split; [congruence|]); try discriminate.
  intros _.
  exists [EvRead addr (wrap32 x1); EvRead addr (wrap32 x2);
          EvWrite addr (Z.clearbit (wrap32 x2) 0)], (wrap32 x3), (wrap32 x4).
  repeat split; auto. simpl. auto.
Qed.

(** ** Runs of the register helpers *)

Lemma run_bind_assoc {A B C : Type} (d : device) (m : mmio A) (f : A -> mmio B)
  (g : B -> mmio C) (s : hw d) :
  run d (bind (bind m f) g) s = run d (bind m (fun x => bind (f x) g)) s.
Proof.
  revert s. induction m as [a | | addr k IH | addr val k IH | addr k IH]; intros s; simpl.
  - reflexivity.
  - reflexivity.
  - destruct (hw_read d s addr) as [v s1]. rewrite IH. reflexivity.
  - rewrite IH. reflexivity.
  - destruct (hw_read d s addr) as [v s1]. rewrite IH. reflexivity.
Qed.

Lemma run_bind_ext {A B : Type} (d : device) (m : mmio A) (f g : A -> mmio B) (s : hw d) :
  (forall a s', run d (f a) s' = run d (g a) s') ->
  run d (bind m f) s = run d (bind m g) s.
Proof.
  intros H. rewrite !run_bind.
  destruct (run d m s) as [[[a|] s1] t1]; [rewrite H|]; reflexivity.
Qed.

Lemma touches_only_app P t1 t2 :
  touches_only P t1 -> touches_only P t2 -> touches_only P (t1 ++ t2).
Proof. unfold touches_only. intros. apply Forall_app. split; assumption. Qed.

Lemma touches_only_weaken (P Q : Z -> Prop) t :
  (forall a, P a -> Q a) -> touches_only P t -> touches_only Q t.
Proof. unfold touches_only. intros H Ht. induction Ht; constructor; auto. Qed.

Lemma plain_io_write32 d a v : plain_step d (eq a) (io_write32 a v).
Proof. intros s. simpl. do 2 eexists. split; [reflexivity|]. repeat constructor. Qed.

Lemma plain_io_setbits32 d a m : plain_step d (eq a) (io_setbits32 a m).
Proof.
  intros s. unfold io_setbits32, io_read32, io_write32. simpl.
  destruct (hw_read d s a) as [x s1]. do 2 eexists. split; [reflexivity|].
  repeat constructor.
Qed.

Lemma plain_io_clrsetbits32 d a c v : plain_step d (eq a) (io_clrsetbits32 a c v).
Proof.
  intros s. unfold io_clrsetbits32, io_read32, io_write32. simpl.
  destruct (hw_read d s a) as [x s1]. do 2 eexists. split; [reflexivity|].
  repeat constructor.
Qed.

Lemma plain_when d P c m : plain_step d P m -> plain_step d P (when c m).
Proof.
  intros H s. destruct c; simpl; [apply H|].
  do 2 eexists. split; [reflexivity|]. constructor.
Qed.

Lemma plain_weaken d (P Q : Z -> Prop) m :
  (forall a, P a -> Q a) -> plain_step d P m -> plain_step d Q m.
Proof.
  intros HPQ H s. destruct (H s) as (s' & t & E & Ht).
  exists s', t. split; [assumption|]. eapply touches_only_weaken; eauto.
Qed.

Lemma plain_seq d P m1 m2 :
  plain_step d P m1 -> plain_step d P m2 -> plain_step d P (m1 ;;; m2).
Proof.
  intros H1 H2 s. rewrite run_bind.
  destruct (H1 s) as (s1 & t1 & -> & Ht1).
  destruct (H2 s1) as (s2 & t2 & -> & Ht2).
  exists s2, (t1 ++ t2). split; [reflexivity|]. apply touches_only_app; assumption.
Qed.

(** ** The RISUP configuration sequence *)

Lemma plain_sec_priv_writes d b drv r :
  plain_step d (fun a => a = seccfgr_addr b (id r) \/ a = privcfgr_addr b (id r))
    (risup_sec_priv_writes b drv r).
Proof.
  unfold risup_sec_priv_writes. apply plain_seq; apply plain_when.
  - eapply plain_weaken; [|apply plain_io_clrsetbits32]. intros a <-. auto.
  - eapply plain_weaken; [|apply plain_io_clrsetbits32]. intros a <-. auto.
Qed.

Lemma plain_cid_lock_writes d b drv r :
  plain_step d (fun a => a = cidcfgr_addr b (id r) \/ a = rcfglockr_addr b (id r))
    (risup_cid_lock_writes b drv r).
Proof.
  unfold risup_cid_lock_writes. apply plain_seq; apply plain_when.
  - eapply plain_weaken; [|apply plain_io_write32]. intros a <-. auto.
  - eapply plain_weaken; [|apply plain_io_setbits32]. intros a <-. auto.
Qed.

Lemma release_run_codes addr nb t code :
  release_run addr nb t code ->
  (code = TEE_SUCCESS \/ code = TEE_ERROR_ACCESS_DENIED) /\ touches_only (eq addr) t.
Proof. intros H. inversion H; subst; split; auto; repeat constructor. Qed.

Lemma acquire_run_codes addr nb t code :
  acquire_run addr nb t code ->
  (code = TEE_SUCCESS \/ code = TEE_ERROR_ACCESS_DENIED) /\ touches_only (eq addr) t.
Proof. intros H. inversion H; subst; split; auto; repeat constructor. Qed.

Lemma run_settle_release d (s : hw d) addr nb :
  let '(res, _, t) := run d (settle (stm32_rif_release_semaphore addr nb)) s in
  exists code, res = Done code /\ release_run addr nb t code.
Proof.
  unfold settle. rewrite run_bind.
  pose proof (release_semaphore_run d s addr nb) as H.
  destruct (run d (stm32_rif_release_semaphore addr nb) s) as [[res s1] t].
  destruct H as (code & -> & Hr).
  destruct (release_run_codes _ _ _ _ Hr) as [[-> | ->] _]; simpl;
    rewrite app_nil_r; eexists; split; eauto.
Qed.

Lemma run_settle_acquire d (s : hw d) addr nb :
  let '(res, _, t) := run d (settle (stm32_rif_acquire_semaphore addr nb)) s in
  exists code, res = Done code /\ acquire_run addr nb t code.
Proof.
  unfold settle. rewrite run_bind.
  pose proof (acquire_semaphore_run d s addr nb) as H.
  destruct (run d (stm32_rif_acquire_semaphore addr nb) s) as [[res s1] t].
  destruct H as (code & -> & Hr).
  destruct (acquire_run_codes _ _ _ _ Hr) as [[-> | ->] _]; simpl;
    rewrite app_nil_r; eexists; split; eauto.
Qed.

Lemma risup_shift_range i : 0 <= risup_shift i < 32.
Proof. unfold risup_shift, _PERIPH_IDS_PER_REG. apply Z.mod_pos_bound. lia. Qed.

(** The routine is the three steps in sequence, on every device. *)
Lemma stm32_risup_cfg_steps pdata r :
  same_runs (stm32_risup_cfg pdata r)
    (risup_cfg_steps (base pdata) (drv_data pdata) r (is_tdcid pdata)).
Proof.
  intros d s. unfold stm32_risup_cfg, risup_cfg_steps.
  destruct (nb_risup (drv_data pdata) <=? id r); [reflexivity|].
  unfold risup_sec_priv_writes. rewrite run_bind_assoc.
  apply run_bind_ext. intros _ s1. apply run_bind_ext. intros _ s2.
  apply run_bind_ext. intros _ s3.
  unfold risup_semaphore_step, settle.
  destruct (SEM_MODE_INCORRECT (cid_attr r)); [reflexivity|].
  simpl. destruct (hw_read d s3 _) as [x s4].
  rewrite nz_land_BIT by apply risup_shift_range.
  destruct (Z.testbit (wrap32 x) (risup_shift (id r))); reflexivity.
Qed.

Lemma sem_mode_incorrect_whitelist attr :
  cid_filtering_enabled attr = true -> semaphore_enabled attr = true ->
  SEM_MODE_INCORRECT attr = negb (semaphore_whitelisted attr RIF_CID1).
Proof.
  unfold SEM_MODE_INCORRECT, cid_filtering_enabled, semaphore_enabled,
    semaphore_whitelisted, _CIDCFGR_CFEN, _CIDCFGR_SEMEN, _CIDCFGR_SEMWL,
    _CIDCFGR_SEMWL_SHIFT, RIF_CID1.
  intros H0 H1.
  rewrite (nz_land_BIT attr 0), (nz_land_BIT attr 1), (nz_land_BIT attr (16 + 1)) by lia.
  rewrite H0, H1. simpl. apply andb_true_r.
Qed.

Lemma acquire_run_success addr t :
  acquire_run addr MAX_CID_SUPPORTED t TEE_SUCCESS -> held_by_cid1 addr t.
Proof.
  intros H. inversion H; subst.
  exists [EvRead addr v0; EvWrite addr (Z.setbit v0 0)], v1, v2. auto.
Qed.

Lemma release_run_success addr t :
  release_run addr MAX_CID_SUPPORTED t TEE_SUCCESS -> not_held_by_cid1 addr t.
Proof.
  intros H. inversion H; subst.
  - left. exists [], v1. auto.
  - left. exists [EvRead addr v1; EvRead addr v2; EvWrite addr (Z.clearbit v2 0)], v3. auto.
  - right. exists [EvRead addr v1; EvRead addr v2; EvWrite addr (Z.clearbit v2 0)], v3, v4.
    auto.
Qed.

(** ** C2: the semaphore is settled by the configuration routine *)

(** C2. For a RISUP with a valid index whose configuration word has CID
    filtering and semaphore mode enabled, on every device the routine ends
    with a semaphore step and returns success or
    [TEE_ERROR_ACCESS_DENIED], never anything else: when compartment 1 is
    white-listed and the SECCFGR bit of the resource reads set, the step is
    an acquire, and success means the register read back held by
    compartment 1; when compartment 1 is not white-listed, or the resource
    reads non-secure, the step is a release, and success means the register
    read back free or held by another compartment. The code returned is
    that of the step. *)
Theorem risup_cfg_settles_semaphore (d : device) (s : hw d)
  (pdata : rifsc_platdata) (r : risup_cfg) :
  id r < nb_risup (drv_data pdata) ->
  cid_filtering_enabled (cid_attr r) = true ->
  semaphore_enabled (cid_attr r) = true ->
  let semcr := semcr_addr (base pdata) (id r) in
  let '(res, _, t) := run d (stm32_risup_cfg pdata r) s in
  exists code t0 tsem,
    res = Done code /\ t = t0 ++ tsem /\
    (code = TEE_SUCCESS \/ code = TEE_ERROR_ACCESS_DENIED) /\
    if semaphore_whitelisted (cid_attr r) RIF_CID1 then
      exists t0' vsec,
        t0 = t0' ++ [EvRead (seccfgr_addr (base pdata) (id r)) vsec] /\
        if Z.testbit vsec (risup_shift (id r)) then
          acquire_run semcr MAX_CID_SUPPORTED tsem code /\
          (code = TEE_SUCCESS -> held_by_cid1 semcr tsem)
        else
          release_run semcr MAX_CID_SUPPORTED tsem code /\
          (code = TEE_SUCCESS -> not_held_by_cid1 semcr tsem)
    else
      release_run semcr MAX_CID_SUPPORTED tsem code /\
      (code = TEE_SUCCESS -> not_held_by_cid1 semcr tsem).
Proof.
  intros Hid Hcf Hsem semcr.
  rewrite (stm32_risup_cfg_steps pdata r d s). unfold risup_cfg_steps.
  replace (nb_risup (drv_data pdata) <=? id r) with false
    by (symmetry; apply Z.leb_gt; lia).
  rewrite run_bind.
  destruct (plain_sec_priv_writes d (base pdata) (drv_data pdata) r s)
    as (s1 & t1 & -> & _).
  rewrite run_bind.
  assert (exists s2 t2,
    run d (when (is_tdcid pdata)
             (risup_cid_lock_writes (base pdata) (drv_data pdata) r)) s1
    = (Done tt, s2, t2)) as (s2 & t2 & ->).
  { destruct (plain_when d _ (is_tdcid pdata) _
                (plain_cid_lock_writes d (base pdata) (drv_data pdata) r) s1)
      as (s2 & t2 & E & _). eauto. }
  unfold risup_semaphore_step.
  rewrite (sem_mode_incorrect_whitelist _ Hcf Hsem).
  destruct (semaphore_whitelisted (cid_attr r) RIF_CID1); simpl negb; cbv iota.
  - simpl. destruct (hw_read d s2 _) as [x s3].
    destruct (Z.testbit (wrap32 x) (risup_shift (id r))) eqn:Esec.
    + pose proof (run_settle_acquire d s3 semcr MAX_CID_SUPPORTED) as H.
      fold semcr.
      destruct (run d (settle (stm32_rif_acquire_semaphore semcr MAX_CID_SUPPORTED)) s3)
        as [[res s4] tsem].
      destruct H as (code & -> & Hr).
      exists code, (t1 ++ t2 ++ [EvRead (seccfgr_addr (base pdata) (id r)) (wrap32 x)]), tsem.
      split; [reflexivity|]. split; [rewrite <- !app_assoc; reflexivity|].
      split; [apply (acquire_run_codes _ _ _ _ Hr)|].
      exists (t1 ++ t2), (wrap32 x). split; [rewrite <- app_assoc; reflexivity|].
      rewrite Esec. split; [assumption|]. intros ->. apply acquire_run_success. assumption.
    + pose proof (run_settle_release d s3 semcr MAX_CID_SUPPORTED) as H.
      fold semcr.
      destruct (run d (settle (stm32_rif_release_semaphore semcr MAX_CID_SUPPORTED)) s3)
        as [[res s4] tsem].
      destruct H as (code & -> & Hr).
      exists code, (t1 ++ t2 ++ [EvRead (seccfgr_addr (base pdata) (id r)) (wrap32 x)]), tsem.
      split; [reflexivity|]. split; [rewrite <- !app_assoc; reflexivity|].
      split; [apply (release_run_codes _ _ _ _ Hr)|].
      exists (t1 ++ t2), (wrap32 x). split; [rewrite <- app_assoc; reflexivity|].
      rewrite Esec. split; [assumption|]. intros ->. apply release_run_success. assumption.
  - pose proof (run_settle_release d s2 semcr MAX_CID_SUPPORTED) as H.
    fold semcr.
    destruct (run d (settle (stm32_rif_release_semaphore semcr MAX_CID_SUPPORTED)) s2)
      as [[res s4] tsem].
    destruct H as (code & -> & Hr).
    exists code, (t1 ++ t2), tsem.
    split; [reflexivity|]. split; [rewrite <- !app_assoc; reflexivity|].
    split; [apply (release_run_codes _ _ _ _ Hr)|].
    split; [assumption|]. intros ->. apply release_run_success. assumption.
Qed.

Lemma risup_cfg_settles_semaphore_witness :
  let semcr := semcr_addr (base sample_pdata) (id sample_risup) in
  let '(res, _, t) := run regfile (stm32_risup_cfg sample_pdata sample_risup) sample_regs in
  exists code t0 tsem,
    res = Done code /\ t = t0 ++ tsem /\
    (code = TEE_SUCCESS \/ code = TEE_ERROR_ACCESS_DENIED) /\
    if semaphore_whitelisted (cid_attr sample_risup) RIF_CID1 then
      exists t0' vsec,
        t0 = t0' ++ [EvRead (seccfgr_addr (base sample_pdata) (id sample_risup)) vsec] /\
        if Z.testbit vsec (risup_shift (id sample_risup)) then
          acquire_run semcr MAX_CID_SUPPORTED tsem code /\
          (code = TEE_SUCCESS -> held_by_cid1 semcr tsem)
        else
          release_run semcr MAX_CID_SUPPORTED tsem code /\
          (code = TEE_SUCCESS -> not_held_by_cid1 semcr tsem)
    else
      release_run semcr MAX_CID_SUPPORTED tsem code /\
      (code = TEE_SUCCESS -> not_held_by_cid1 semcr tsem).
Proof.
  apply (risup_cfg_settles_semaphore regfile sample_regs sample_pdata sample_risup).
  - simpl. lia.
  - reflexivity.
  - reflexivity.
Defined.

(** The sample run ends with the semaphore acquired. *)
Example sample_risup_cfg_acquires :
  fst (fst (run regfile (stm32_risup_cfg sample_pdata sample_risup) sample_regs))
  = Done TEE_SUCCESS.
Proof. vm_compute. reflexivity. Qed.

(** ** C3: what a compartment that is not the TDCID writes *)

Lemma risup_registers_apart b i a :
  0 <= i <= 255 ->
  a = seccfgr_addr b i \/ a = privcfgr_addr b i \/ a = semcr_addr b i ->
  ~ is_cidcfgr_addr b a /\ ~ is_rcfglockr_addr b a.
Proof.
  unfold is_cidcfgr_addr, is_rcfglockr_addr, seccfgr_addr, privcfgr_addr, semcr_addr,
    cidcfgr_addr, rcfglockr_addr, risup_word_offset, _RIFSC_RISC_SECCFGR0,
    _RIFSC_RISC_PRIVCFGR0, _RIFSC_RISC_RCFGLOCKR0, _RIFSC_RISC_PER0_CIDCFGR,
    _RIFSC_RISC_PER0_SEMCR, _OFFSET_PERX_CIDCFGR, _PERIPH_IDS_PER_REG.
  intros Hi Ha. split; intros (j & Hj & E);
    pose proof (Z.div_mod i 32 ltac:(lia)); pose proof (Z.mod_pos_bound i 32 ltac:(lia));
    pose proof (Z.div_mod j 32 ltac:(lia)); pose proof (Z.mod_pos_bound j 32 ltac:(lia));
    lia.
Qed.

Lemma run_semaphore_step_touches d (s : hw d) b r :
  let '(res, _, t) := run d (risup_semaphore_step b r) s in
  (exists code, res = Done code) /\
  touches_only (fun a => a = seccfgr_addr b (id r) \/ a = semcr_addr b (id r)) t /\
  (forall a v, In (EvWrite a v) t -> a = semcr_addr b (id r)).
Proof.
  assert (Hrel : forall s',
    let '(res, _, t) :=
      run d (settle (stm32_rif_release_semaphore (semcr_addr b (id r)) MAX_CID_SUPPORTED)) s' in
    (exists code, res = Done code) /\ touches_only (eq (semcr_addr b (id r))) t).
  { intros s'. pose proof (run_settle_release d s' (semcr_addr b (id r)) MAX_CID_SUPPORTED) as H.
    destruct (run d _ s') as [[res s1] t]. destruct H as (code & -> & Hr).
    split; [eauto|]. apply (release_run_codes _ _ _ _ Hr). }
  assert (Hacq : forall s',
    let '(res, _, t) :=
      run d (settle (stm32_rif_acquire_semaphore (semcr_addr b (id r)) MAX_CID_SUPPORTED)) s' in
    (exists code, res = Done code) /\ touches_only (eq (semcr_addr b (id r))) t).
  { intros s'. pose proof (run_settle_acquire d s' (semcr_addr b (id r)) MAX_CID_SUPPORTED) as H.
    destruct (run d _ s') as [[res s1] t]. destruct H as (code & -> & Hr).
    split; [eauto|]. apply (acquire_run_codes _ _ _ _ Hr). }
  assert (Hw : forall t a v, touches_only (eq (semcr_addr b (id r))) t ->
                In (EvWrite a v) t -> a = semcr_addr b (id r)).
  { intros t a v Ht Hin. unfold touches_only in Ht. rewrite List.Forall_forall in Ht.
    symmetry. apply (Ht _ Hin). }
  unfold risup_semaphore_step.
  destruct (SEM_MODE_INCORRECT (cid_attr r)).
  - specialize (Hrel s). destruct (run d _ s) as [[res s1] t]. destruct Hrel as [Hc Ht].
    split; [assumption|]. split; [|eauto].
    apply (touches_only_weaken (eq (semcr_addr b (id r)))); [|exact Ht].
    intros a <-. auto.
  - simpl. destruct (hw_read d s _) as [x s1].
    destruct (Z.testbit (wrap32 x) (risup_shift (id r))).
    + specialize (Hacq s1). destruct (run d _ s1) as [[res s2] t]. destruct Hacq as [Hc Ht].
      split; [assumption|]. split.
      * apply (touches_only_app _ [_] t); [repeat constructor; simpl; auto|].
        apply (touches_only_weaken (eq (semcr_addr b (id r)))); [|exact Ht].
        intros a <-. auto.
      * intros a v [Hin|Hin]; [discriminate|eauto].
    + specialize (Hrel s1). destruct (run d _ s1) as [[res s2] t]. destruct Hrel as [Hc Ht].
      split; [assumption|]. split.
      * apply (touches_only_app _ [_] t); [repeat constructor; simpl; auto|].
        apply (touches_only_weaken (eq (semcr_addr b (id r)))); [|exact Ht].
        intros a <-. auto.
      * intros a v [Hin|Hin]; [discriminate|eauto].
Qed.

(** C3. While [is_tdcid] is false, no run of the routine writes a
    CID-filtering register (CIDCFGR) or a configuration-lock register
    (RCFGLOCKR), on any device; and on every device the routine is the
    security/privilege writes followed by the semaphore step, the very two
    steps that, with [is_tdcid] true, surround the CIDCFGR and lock writes. *)
Theorem risup_cfg_non_tdcid_frame (d : device) (s : hw d)
  (pdata : rifsc_platdata) (r : risup_cfg) :
  is_tdcid pdata = false ->
  0 <= id r -> nb_risup (drv_data pdata) <= 255 ->
  (let '(_, _, t) := run d (stm32_risup_cfg pdata r) s in
   forall a v, In (EvWrite a v) t ->
     ~ is_cidcfgr_addr (base pdata) a /\ ~ is_rcfglockr_addr (base pdata) a) /\
  same_runs (stm32_risup_cfg pdata r)
    (risup_cfg_steps (base pdata) (drv_data pdata) r false) /\
  same_runs (stm32_risup_cfg (set_is_tdcid pdata true) r)
    (risup_cfg_steps (base pdata) (drv_data pdata) r true).
Proof.
  intros Htd Hid Hnb. split; [|split].
  - rewrite (stm32_risup_cfg_steps pdata r d s), Htd. unfold risup_cfg_steps.
    destruct (Z.leb_spec (nb_risup (drv_data pdata)) (id r)) as [Hle|Hlt].
    { simpl. intros a v []. }
    rewrite run_bind.
    destruct (plain_sec_priv_writes d (base pdata) (drv_data pdata) r s)
      as (s1 & t1 & -> & Ht1).
    simpl when. rewrite run_bind. simpl (run d (Ret tt) s1). cbv beta iota.
    pose proof (run_semaphore_step_touches d s1 (base pdata) r) as Hsem.
    destruct (run d (risup_semaphore_step (base pdata) r) s1) as [[res s2] t2].
    destruct Hsem as (_ & _ & Hw). cbv beta iota.
    intros a v Hin. apply (risup_registers_apart (base pdata) (id r)); [lia|].
    rewrite !in_app_iff in Hin. destruct Hin as [Hin | [[] | Hin]].
    + unfold touches_only in Ht1. rewrite List.Forall_forall in Ht1.
      destruct (Ht1 _ Hin) as [E|E]; simpl in E; auto.
    + right. right. eauto.
  - intros d' s'. rewrite (stm32_risup_cfg_steps pdata r d' s'), Htd. reflexivity.
  - intros d' s'.
    rewrite (stm32_risup_cfg_steps (set_is_tdcid pdata true) r d' s'). reflexivity.
Qed.

Lemma risup_cfg_non_tdcid_frame_witness :
  (let '(_, _, t) := run regfile (stm32_risup_cfg sample_pdata sample_risup) sample_regs in
   forall a v, In (EvWrite a v) t ->
     ~ is_cidcfgr_addr (base sample_pdata) a /\ ~ is_rcfglockr_addr (base sample_pdata) a) /\
  same_runs (stm32_risup_cfg sample_pdata sample_risup)
    (risup_cfg_steps (base sample_pdata) (drv_data sample_pdata) sample_risup false) /\
  same_runs (stm32_risup_cfg (set_is_tdcid sample_pdata true) sample_risup)
    (risup_cfg_steps (base sample_pdata) (drv_data sample_pdata) sample_risup true).
Proof.
  apply (risup_cfg_non_tdcid_frame regfile sample_regs sample_pdata sample_risup).
  - reflexivity.
  - simpl. lia.
  - simpl. lia.
Defined.

(** ** C8: region boundaries and granularity *)

Lemma wrap64_small x : 0 <= x < 2 ^ 64 -> Risaf.wrap64 x = x.
Proof. intros H. unfold Risaf.wrap64. apply Z.mod_small. assumption. Qed.

Lemma wrap64_add_r a b : Risaf.wrap64 (a + Risaf.wrap64 b) = Risaf.wrap64 (a + b).
Proof. unfold Risaf.wrap64. apply Zplus_mod_idemp_r. Qed.

Lemma wrap64_add_l a b : Risaf.wrap64 (Risaf.wrap64 a + b) = Risaf.wrap64 (a + b).
Proof. unfold Risaf.wrap64. apply Zplus_mod_idemp_l. Qed.

Lemma nz_mod_divide a g : g <> 0 -> nz (a mod g) = false <-> (g | a).
Proof.
  intros Hg. unfold nz. rewrite negb_false_iff, Z.eqb_eq. apply Z.mod_divide. assumption.
Qed.

(** For a region of non-zero length that ends inside the 64-bit address
    space and an IP memory window that is not empty and does not wrap, the
    check returns [TEE_ERROR_BAD_PARAMETERS] exactly when the region starts
    below the memory base, or ends past the memory end, or the granularity
    is zero, or the start or the length is not a multiple of the
    granularity; it returns success otherwise. The check itself touches no
    register, and the probe loop panics on such an entry before any
    register access. *)
Lemma risaf_region_boundaries_no_wrap (risaf : Risaf.stm32_risaf_instance)
  (region : Risaf.stm32_risaf_region) :
  let mb := Risaf.mem_base (Risaf.pdata risaf) in
  let ms := Risaf.mem_size (Risaf.pdata risaf) in
  let g := Risaf.granularity (Risaf.ddata risaf) in
  let a := Risaf.addr region in
  let l := Risaf.len region in
  0 <= a -> 0 < l -> a + l <= 2 ^ 64 ->
  0 <= mb -> 0 <= ms -> 1 <= mb + ms <= 2 ^ 64 ->
  let r := Risaf.risaf_check_region_boundaries risaf region in
  (r = TEE_ERROR_BAD_PARAMETERS <->
     a < mb \/ mb + ms - 1 < a + l - 1 \/ g = 0 \/ ~ (g | a) \/ ~ (g | l)) /\
  (r <> TEE_ERROR_BAD_PARAMETERS -> r = TEE_SUCCESS) /\
  (r = TEE_ERROR_BAD_PARAMETERS ->
   forall b (d : device) (s : hw d) rs i e prop,
     0 <= Risaf.dt_pnode e -> Risaf.dt_reg_size e <> 0 ->
     ~ (Risaf.dt_reg_base e = Risaf.TZDRAM_BASE b /\
        Risaf.dt_reg_size e = Risaf.TZDRAM_RESERVED_SIZE b) ->
     Risaf.dt_protreg e = Some prop ->
     Risaf.region_of_entry e prop = region ->
     run d (Risaf.probe_region b risaf rs i e) s = (Panicked, s, [])).
Proof.
  intros mb ms g a l Ha Hl Hal Hmb Hms Hw r.
  assert (Hend : Risaf.wrap64 (mb + Risaf.wrap64 (ms - 1)) = mb + ms - 1).
  { rewrite wrap64_add_r. replace (mb + (ms - 1)) with (mb + ms - 1) by lia.
    apply wrap64_small. lia. }
  assert (Hrend : Risaf.wrap64 (Risaf.wrap64 (a - 1) + l) = a + l - 1).
  { rewrite wrap64_add_l. replace (a - 1 + l) with (a + l - 1) by lia.
    apply wrap64_small. lia. }
  assert (Hr : r = if a <? mb then TEE_ERROR_BAD_PARAMETERS
                   else if (mb + ms - 1 <? a) || (mb + ms - 1 <? a + l - 1)
                   then TEE_ERROR_BAD_PARAMETERS
                   else if (g =? 0) || nz (a mod g) || nz (l mod g)
                   then TEE_ERROR_BAD_PARAMETERS else TEE_SUCCESS).
  { subst r. unfold Risaf.risaf_check_region_boundaries.
    fold mb ms g a l. rewrite Hend, Hrend. reflexivity. }
  assert (Hiff : r = TEE_ERROR_BAD_PARAMETERS <->
     a < mb \/ mb + ms - 1 < a + l - 1 \/ g = 0 \/ ~ (g | a) \/ ~ (g | l)).
  { rewrite Hr.
    destruct (Z.ltb_spec a mb) as [H1|H1]; [split; auto|].
    destruct (Z.ltb_spec (mb + ms - 1) a) as [H2|H2]; simpl.
    { split; [intros _; right; left; lia | reflexivity]. }
    destruct (Z.ltb_spec (mb + ms - 1) (a + l - 1)) as [H3|H3]; simpl.
    { split; auto. }
    destruct (Z.eqb_spec g 0) as [H4|H4]; simpl.
    { split; auto. }
    destruct (nz (a mod g)) eqn:E5; simpl.
    { split; [intros _|reflexivity]. do 3 right. left. intros Hd.
      apply (nz_mod_divide a g H4) in Hd. congruence. }
    destruct (nz (l mod g)) eqn:E6; simpl.
    { split; [intros _|reflexivity]. do 4 right. intros Hd.
      apply (nz_mod_divide l g H4) in Hd. congruence. }
    apply (nz_mod_divide a g H4) in E5. apply (nz_mod_divide l g H4) in E6.
    split; [discriminate|]. intros [H|[H|[H|[H|H]]]]; try lia; contradiction. }
  split; [exact Hiff|]. split.
  - rewrite Hr. destruct (a <? mb); [congruence|].
    destruct ((mb + ms - 1 <? a) || (mb + ms - 1 <? a + l - 1)); [congruence|].
    destruct ((g =? 0) || nz (a mod g) || nz (l mod g)); congruence.
  - intros Hbad b d s rs i e prop Hp Hsz Htz Hprop Hreg.
    unfold Risaf.probe_region.
    replace (Risaf.dt_pnode e <? 0) with false by (symmetry; apply Z.ltb_ge; lia).
    replace (Risaf.dt_reg_size e =? 0) with false by (symmetry; apply Z.eqb_neq; assumption).
    replace ((Risaf.dt_reg_base e =? Risaf.TZDRAM_BASE b)
             && (Risaf.dt_reg_size e =? Risaf.TZDRAM_RESERVED_SIZE b)) with false.
    2:{ symmetry. apply andb_false_iff.
        destruct (Z.eqb_spec (Risaf.dt_reg_base e) (Risaf.TZDRAM_BASE b));
          destruct (Z.eqb_spec (Risaf.dt_reg_size e) (Risaf.TZDRAM_RESERVED_SIZE b)); auto.
        exfalso. apply Htz. auto. }
    rewrite Hprop. cbv zeta. rewrite Hreg. fold r. rewrite Hbad. reflexivity.
Qed.

(** When the region runs past the end of the 64-bit address space, the
    end address [addr - 1 + len] of the source wraps around to a value
    below the start: a region that starts inside the window on a grain
    boundary, with a length that is a multiple of the grain, passes the
    check though it ends past the memory end. *)
Lemma risaf_region_boundaries_wrap_accepted (risaf : Risaf.stm32_risaf_instance)
  (region : Risaf.stm32_risaf_region) :
  let mb := Risaf.mem_base (Risaf.pdata risaf) in
  let ms := Risaf.mem_size (Risaf.pdata risaf) in
  let g := Risaf.granularity (Risaf.ddata risaf) in
  let a := Risaf.addr region in
  let l := Risaf.len region in
  0 <= mb -> 0 <= ms -> 1 <= mb + ms <= 2 ^ 64 ->
  mb <= a <= mb + ms - 1 -> 0 < l < 2 ^ 64 -> 2 ^ 64 < a + l ->
  g <> 0 -> (g | a) -> (g | l) ->
  mb + ms - 1 < a + l - 1 /\
  Risaf.risaf_check_region_boundaries risaf region = TEE_SUCCESS.
Proof.
  intros mb ms g a l Hmb Hms Hw Ha Hl Hwrap Hg Hga Hgl.
  split; [lia|].
  assert (Hend : Risaf.wrap64 (mb + Risaf.wrap64 (ms - 1)) = mb + ms - 1).
  { rewrite wrap64_add_r. replace (mb + (ms - 1)) with (mb + ms - 1) by lia.
    apply wrap64_small. lia. }
  assert (Hrend : Risaf.wrap64 (Risaf.wrap64 (a - 1) + l) = a + l - 1 - 2 ^ 64).
  { rewrite wrap64_add_l. replace (a - 1 + l) with (a + l - 1 - 2 ^ 64 + 1 * 2 ^ 64) by lia.
    unfold Risaf.wrap64. rewrite Z.mod_add by lia. apply Z.mod_small. lia. }
  unfold Risaf.risaf_check_region_boundaries. fold mb ms g a l.
  rewrite Hend, Hrend.
  replace (a <? mb) with false by (symmetry; apply Z.ltb_ge; lia).
  replace (mb + ms - 1 <? a) with false by (symmetry; apply Z.ltb_ge; lia).
  replace (mb + ms - 1 <? a + l - 1 - 2 ^ 64) with false by (symmetry; apply Z.ltb_ge; lia).
  replace (g =? 0) with false by (symmetry; apply Z.eqb_neq; assumption).
  apply (nz_mod_divide a g Hg) in Hga. apply (nz_mod_divide l g Hg) in Hgl.
  rewrite Hga, Hgl. reflexivity.
Qed.

(** C8. The region that starts at the base of the sample window
    ([0x80000000], 256 MiB, grain 4 KiB) with the length
    [0xFFFFFFFFFFFFF000] has a non-zero length and ends far past the
    memory end, yet the check returns success: the end address computed
    by the source is [0x7FFFEFFF]. *)
Theorem risaf_region_boundaries_wraps :
  let risaf := Risaf.sample_risaf in
  let region := {| Risaf.cfg := 0x01010031; Risaf.addr := 0x80000000;
                   Risaf.len := 0xFFFFFFFFFFFFF000 |} in
  0 < Risaf.len region < 2 ^ 64 /\
  Risaf.mem_base (Risaf.pdata risaf) + Risaf.mem_size (Risaf.pdata risaf) - 1
  < Risaf.addr region + Risaf.len region - 1 /\
  Risaf.wrap64 (Risaf.wrap64 (Risaf.addr region - 1) + Risaf.len region) = 0x7FFFEFFF /\
  Risaf.risaf_check_region_boundaries risaf region = TEE_SUCCESS.
Proof. repeat split; reflexivity. Qed.

(** Scenario checks: the sample region passes; a start that is not on a
    grain, and an end past the window, are rejected. *)
Example sample_region_in_bounds :
  Risaf.risaf_check_region_boundaries Risaf.sample_risaf Risaf.sample_region = TEE_SUCCESS.
Proof. reflexivity. Qed.

Example misaligned_region_rejected :
  Risaf.risaf_check_region_boundaries Risaf.sample_risaf
    {| Risaf.cfg := 1; Risaf.addr := 0x80001004; Risaf.len := 0x1000 |}
  = TEE_ERROR_BAD_PARAMETERS.
Proof. reflexivity. Qed.

(** ** C10: a RISAF region whose CID word is zero *)

(** C10. For a valid region id, with the instance clock enabled, when the
    CFGR register reads secure and either enabled or the caller is TDCID,
    and the CIDCFGR register reads zero, the routine returns success
    whatever read and write flags are asked: the per-CID permission test is
    skipped for a zero CID word. *)
Theorem risaf_acquire_access_zero_cid_word (b : Risaf.risaf_bindings)
  (d : device) (s : hw d) (is_tdcid : bool) (risaf : Risaf.stm32_risaf_instance)
  (arg0 : Z) (read write : bool) :
  let id_ := Risaf._RISAF_GET_REGION_ID b arg0 in
  let rd_cfgr := hw_read d s (Risaf.risaf_base risaf + Risaf._RISAF_REG_CFGR id_) in
  let cfgr := wrap32 (fst rd_cfgr) in
  let rd_cid := hw_read d (snd rd_cfgr)
                  (Risaf.risaf_base risaf + Risaf._RISAF_REG_CIDCFGR id_) in
  let cidcfgr := wrap32 (fst rd_cid) in
  id_ <> 0 -> id_ < Risaf.nregions (Risaf.pdata risaf) ->
  Z.testbit cfgr 0 = true \/ is_tdcid = true ->
  Z.testbit cfgr 8 = true ->
  cidcfgr = 0 ->
  run d (Risaf.stm32_risaf_acquire_access b is_tdcid TEE_SUCCESS risaf [arg0] read write) s
  = (Done TEE_SUCCESS, snd rd_cid,
     [EvRead (Risaf.risaf_base risaf + Risaf._RISAF_REG_CFGR id_) cfgr;
      EvRead (Risaf.risaf_base risaf + Risaf._RISAF_REG_CIDCFGR id_) 0]).
Proof.
  intros id_ rd_cfgr cfgr rd_cid cidcfgr Hid0 Hid Hen Hsec Hz.
  unfold Risaf.stm32_risaf_acquire_access. fold id_.
  replace (id_ =? 0) with false by (symmetry; apply Z.eqb_neq; assumption).
  replace (Risaf.nregions (Risaf.pdata risaf) <=? id_) with false
    by (symmetry; apply Z.leb_gt; assumption).
  simpl. fold rd_cfgr. destruct rd_cfgr as [x1 s1] eqn:E1.
  simpl in cfgr, rd_cid. fold rd_cid. destruct rd_cid as [x2 s2] eqn:E2.
  simpl in cidcfgr. fold cfgr. fold cidcfgr. rewrite Hz.
  unfold Risaf._RISAF_REG_CFGR_BREN, Risaf._RISAF_REG_CFGR_SEC,
    Risaf._RISAF_REG_CFGR_SEC_SHIFT.
  rewrite (nz_land_BIT cfgr 0), (nz_land_BIT cfgr 8) by lia.
  rewrite Hsec.
  destruct Hen as [Hen | Hen]; rewrite Hen; cbn [negb andb orb nz Z.eqb];
    rewrite ?andb_false_r; reflexivity.
Qed.

Lemma risaf_acquire_access_zero_cid_word_witness :
  run regfile
    (Risaf.stm32_risaf_acquire_access Risaf.sample_bindings false TEE_SUCCESS
       Risaf.sample_risaf [0x31] true true)
    (fun a => if a =? 0x420D0040 then 0x101 else 0)
  = (Done TEE_SUCCESS, (fun a => if a =? 0x420D0040 then 0x101 else 0),
     [EvRead 0x420D0040 0x101; EvRead 0x420D004C 0]).
Proof.
  apply (risaf_acquire_access_zero_cid_word Risaf.sample_bindings regfile
           (fun a => if a =? 0x420D0040 then 0x101 else 0) false Risaf.sample_risaf
           0x31 true true).
  - vm_compute. discriminate.
  - vm_compute. reflexivity.
  - left. vm_compute. reflexivity.
  - vm_compute. reflexivity.
  - vm_compute. reflexivity.
Defined.

(** ** C5: overlapping regions are refused at probe time *)

Lemma ranges_intersect_test e1 e2 :
  Risaf.ranges_intersect e1 e2 ->
  Risaf.core_is_buffer_intersect (Risaf.dt_reg_base e1) (Risaf.dt_reg_size e1)
    (Risaf.dt_reg_base e2) (Risaf.dt_reg_size e2) = true.
Proof.
  intros (x & H1 & H2). unfold Risaf.core_is_buffer_intersect.
  apply Z.ltb_lt. lia.
Qed.

Lemma ranges_intersect_sym e1 e2 :
  Risaf.ranges_intersect e1 e2 -> Risaf.ranges_intersect e2 e1.
Proof. intros (x & H1 & H2). exists x. auto. Qed.

Lemma overlap_scan_hit cur before r :
  In r before -> Risaf.cfg r <> 0 ->
  Risaf.core_is_buffer_intersect (Risaf.addr cur) (Risaf.len cur)
    (Risaf.addr r) (Risaf.len r) = true ->
  Risaf.overlap_scan cur before = TEE_ERROR_GENERIC.
Proof.
  intros Hin Hcfg Hint. induction before as [|r' rest IH]; [destruct Hin|].
  simpl. destruct Hin as [-> | Hin].
  - replace (nz (Risaf.cfg r)) with true by (symmetry; apply nz_true_iff; assumption).
    simpl. rewrite Hint. reflexivity.
  - destruct (nz (Risaf.cfg r')); simpl; [|auto].
    destruct (Risaf.core_is_buffer_intersect _ _ (Risaf.addr r') _); auto.
Qed.

(** The register sequence of [risaf_configure_region] always returns. *)
Lemma run_configure_region b risaf region_id cfg cid_cfg saddr eaddr d (s : hw d) :
  exists code s' t,
    run d (Risaf.risaf_configure_region b risaf region_id cfg cid_cfg saddr eaddr) s
    = (Done code, s', t).
Proof.
  unfold Risaf.risaf_configure_region.
  repeat match goal with
  | |- context [run d (bind ?m _) ?s0] =>
      rewrite (run_bind d m);
      let H := fresh in
      assert (H : exists s1 t1, run d m s0 = (Done tt, s1, t1))
        by (unfold io_clrbits32, io_clrsetbits32, io_read32, io_write32; simpl;
            destruct (hw_read d s0 _); eauto);
      destruct H as (? & ? & ->)
  end.
  destruct (nz _); [|simpl; eauto].
  destruct (negb _); [simpl; eauto|].
  destruct (_ && _); [simpl; eauto|].
  destruct (negb _); simpl; eauto.
Qed.

(** What one turn of the loop leaves in the table when it does not panic. *)
Lemma probe_region_done b risaf rs (i : nat) e d (s : hw d) rs' s' t :
  run d (Risaf.probe_region b risaf rs i e) s = (Done rs', s', t) ->
  length rs' = length rs /\
  (forall k : nat, k <> i -> rs' !! k = rs !! k) /\
  (Risaf.configured b e -> (i < length rs)%nat ->
   exists prop, Risaf.dt_protreg e = Some prop /\
     rs' !! i = Some (Risaf.region_of_entry e prop) /\
     Risaf.risaf_check_overlap rs' i = TEE_SUCCESS).
Proof.
  unfold Risaf.probe_region, Risaf.set_region.
  destruct (Z.ltb_spec (Risaf.dt_pnode e) 0) as [Hp|Hp].
  { simpl. intros [= <- <- <-]. split; [reflexivity|]. split; [reflexivity|].
    intros (Hc & _). lia. }
  set (r0 := {| Risaf.cfg := Risaf.cfg (nth i rs Risaf.zero_region);
                Risaf.addr := Risaf.dt_reg_base e; Risaf.len := Risaf.dt_reg_size e |}).
  assert (Hskip : forall rsx sx tx,
    (Done (<[i:=r0]> rs), s, @nil event) = (Done rsx, sx, tx) ->
    length rsx = length rs /\ (forall k : nat, k <> i -> rsx !! k = rs !! k)).
  { intros rsx sx tx [= <- <- <-]. rewrite length_insert. split; [reflexivity|].
    intros k Hk. apply list_lookup_insert_ne. congruence. }
  destruct (Z.eqb_spec (Risaf.dt_reg_size e) 0) as [Hz|Hz].
  { simpl. intros H. destruct (Hskip _ _ _ H). repeat split; auto.
    intros (_ & Hc & _). contradiction. }
  destruct ((Risaf.dt_reg_base e =? Risaf.TZDRAM_BASE b)
            && (Risaf.dt_reg_size e =? Risaf.TZDRAM_RESERVED_SIZE b)) eqn:Etz.
  { simpl. intros H. destruct (Hskip _ _ _ H). repeat split; auto.
    intros (_ & _ & Hc & _). exfalso. apply Hc.
    apply andb_true_iff in Etz. destruct Etz as [E1 E2].
    apply Z.eqb_eq in E1. apply Z.eqb_eq in E2. auto. }
  destruct (Risaf.dt_protreg e) as [prop|] eqn:Eprop.
  2:{ simpl. intros H. destruct (Hskip _ _ _ H). repeat split; auto.
      intros (_ & _ & _ & p & Hc & _). congruence. }
  cbv zeta.
  destruct (is_error (Risaf.risaf_check_region_boundaries risaf _)
            || is_error (Risaf.risaf_check_overlap _ i)) eqn:Echk.
  { simpl. discriminate. }
  apply orb_false_iff in Echk. destruct Echk as [_ Eov].
  rewrite run_bind.
  destruct (run_configure_region b risaf
              (Risaf._RISAF_GET_REGION_ID b (Risaf.cfg (Risaf.region_of_entry e prop)))
              (Risaf._RISAF_GET_REGION_CFG b (Risaf.cfg (Risaf.region_of_entry e prop)))
              (Risaf._RISAF_GET_REGION_CID_CFG b (Risaf.cfg (Risaf.region_of_entry e prop)))
              (Risaf.addr (Risaf.region_of_entry e prop))
              (Risaf.wrap64 (Risaf.wrap64 (Risaf.addr (Risaf.region_of_entry e prop)
                                           + Risaf.len (Risaf.region_of_entry e prop)) - 1))
              d s) as (code & s1 & t1 & ->).
  destruct (is_error code); simpl; [discriminate|].
  intros [= <- <- <-]. rewrite !length_insert. split; [reflexivity|]. split.
  - intros k Hk. rewrite !list_lookup_insert_ne by congruence. reflexivity.
  - intros _ Hi. exists prop. split; [reflexivity|]. split.
    + apply list_lookup_insert_eq. rewrite length_insert. assumption.
    + destruct (Risaf.risaf_check_overlap _ i); try discriminate. reflexivity.
Qed.

Lemma take_agree {A : Type} (l1 l2 : list A) (n : nat) :
  (forall k : nat, (k < n)%nat -> l1 !! k = l2 !! k) -> take n l1 = take n l2.
Proof.
  intros H. apply list_eq. intros k. destruct (Nat.lt_ge_cases k n) as [Hk|Hk].
  - rewrite !lookup_take_lt by assumption. auto.
  - rewrite !lookup_take_ge by assumption. reflexivity.
Qed.

(** A run of the loop that does not panic has stored every configured
    entry and has found it clear of the entries before it. *)
Lemma probe_loop_done b risaf es :
  forall (i : nat) rs d (s : hw d) rsf s' t,
  run d (Risaf.probe_regions_from b risaf rs i es) s = (Done rsf, s', t) ->
  length rsf = length rs /\
  (forall k : nat, (k < i)%nat -> rsf !! k = rs !! k) /\
  (forall (n : nat) e, es !! n = Some e -> Risaf.configured b e ->
     (i + n < length rs)%nat ->
     exists prop, Risaf.dt_protreg e = Some prop /\
       rsf !! (i + n)%nat = Some (Risaf.region_of_entry e prop) /\
       Risaf.overlap_scan (Risaf.region_of_entry e prop) (take (i + n) rsf) = TEE_SUCCESS).
Proof.
  induction es as [|e es' IH]; intros i rs d s rsf s' t H.
  - simpl in H. injection H as <- <- <-. split; [reflexivity|]. split; [reflexivity|].
    intros n e Hn. destruct n; discriminate.
  - simpl in H. rewrite run_bind in H.
    destruct (run d (Risaf.probe_region b risaf rs i e) s) as [[[rs1|] s1] t1] eqn:E1;
      [|discriminate].
    destruct (run d (Risaf.probe_regions_from b risaf rs1 (S i) es') s1)
      as [[r2 s2] t2] eqn:E2.
    injection H as -> <- <-.
    destruct (IH _ _ _ _ _ _ _ E2) as (L2 & K2 & C2).
    destruct (probe_region_done _ _ _ _ _ _ _ _ _ _ E1) as (L1 & K1 & C1).
    split; [congruence|]. split.
    + intros k Hk. rewrite K2 by lia. apply K1. lia.
    + intros n e0 Hn Hc Hlen. destruct n as [|n'].
      * injection Hn as <-. rewrite Nat.add_0_r in *.
        destruct (C1 Hc Hlen) as (prop & Hp & Hl & Hov).
        exists prop. split; [assumption|]. split.
        { rewrite K2 by lia. assumption. }
        unfold Risaf.risaf_check_overlap in Hov.
        rewrite (nth_lookup_Some _ _ _ _ Hl) in Hov.
        rewrite (take_agree rsf rs1 i); [assumption|].
        intros k Hk. apply K2. lia.
      * simpl in Hn. replace (i + S n')%nat with (S i + n')%nat by lia.
        apply C2; [assumption|assumption|]. rewrite L1. lia.
Qed.

Lemma risaf_check_overlap_detects rs (i j : nat) ri rj :
  (i < j)%nat -> rs !! i = Some ri -> rs !! j = Some rj ->
  Risaf.cfg ri <> 0 ->
  Risaf.core_is_buffer_intersect (Risaf.addr rj) (Risaf.len rj)
    (Risaf.addr ri) (Risaf.len ri) = true ->
  Risaf.risaf_check_overlap rs j = TEE_ERROR_GENERIC.
Proof.
  intros Hij Hi Hj Hcfg Hint. unfold Risaf.risaf_check_overlap.
  rewrite (nth_lookup_Some _ _ _ _ Hj).
  apply (overlap_scan_hit rj (take j rs) ri); [|assumption|assumption].
  apply list_elem_of_In. apply (list_elem_of_lookup_2 _ i).
  rewrite lookup_take_lt by assumption. assumption.
Qed.

Lemma probe_panics_ordered b risaf es (i j : nat) ei ej d (s : hw d) :
  (i < j)%nat -> es !! i = Some ei -> es !! j = Some ej ->
  Risaf.configured b ei -> Risaf.configured b ej ->
  Risaf.ranges_intersect ej ei ->
  fst (fst (run d (Risaf.probe_regions b risaf es) s)) = Panicked.
Proof.
  intros Hij Hi Hj Hci Hcj Hint. unfold Risaf.probe_regions.
  destruct (run d _ s) as [[[rsf|] s'] t] eqn:E; [|reflexivity].
  exfalso.
  destruct (probe_loop_done _ _ _ _ _ _ _ _ _ _ E) as (L & _ & C).
  rewrite length_replicate in L.
  assert (Hlj : (j < length es)%nat) by (apply lookup_lt_Some in Hj; assumption).
  destruct (C i ei Hi Hci) as (pi & Hpi & Hli & _);
    [rewrite length_replicate; lia|].
  destruct (C j ej Hj Hcj) as (pj & Hpj & Hlj' & Hov);
    [rewrite length_replicate; lia|].
  simpl in Hli, Hlj', Hov.
  assert (Hne : Risaf.cfg (Risaf.region_of_entry ei pi) <> 0).
  { destruct Hci as (_ & _ & _ & p & Hp & Hnz). simpl. congruence. }
  rewrite (overlap_scan_hit _ (take j rsf) (Risaf.region_of_entry ei pi)) in Hov.
  - discriminate.
  - apply list_elem_of_In. apply (list_elem_of_lookup_2 _ i).
    rewrite lookup_take_lt by assumption. assumption.
  - assumption.
  - apply ranges_intersect_test. assumption.
Qed.

(** C5. For two entries of the region list of one instance, both taken up
    with a non-zero configuration and with intersecting ranges
    [[base, base+length)], the probe loop panics on every device, whichever
    of the two comes first; and on any table that holds the two regions the
    overlap check run for the later one returns the overlap error. *)
Theorem risaf_probe_rejects_overlap (b : Risaf.risaf_bindings)
  (risaf : Risaf.stm32_risaf_instance) (es : list Risaf.dt_memory_region)
  (i j : nat) (ei ej : Risaf.dt_memory_region) (d : device) (s : hw d) :
  es !! i = Some ei -> es !! j = Some ej -> i <> j ->
  Risaf.configured b ei -> Risaf.configured b ej ->
  Risaf.ranges_intersect ei ej ->
  fst (fst (run d (Risaf.probe_regions b risaf es) s)) = Panicked /\
  (forall rs pi pj,
     rs !! i = Some (Risaf.region_of_entry ei pi) -> wrap32 pi <> 0 ->
     rs !! j = Some (Risaf.region_of_entry ej pj) -> wrap32 pj <> 0 ->
     Risaf.risaf_check_overlap rs (Nat.max i j) = TEE_ERROR_GENERIC).
Proof.
  intros Hi Hj Hne Hci Hcj Hint.
  destruct (Nat.lt_total i j) as [Hlt | [Heq | Hgt]]; [|contradiction|].
  - split.
    + apply (probe_panics_ordered b risaf es i j ei ej); auto.
      apply ranges_intersect_sym. assumption.
    + intros rs pi pj Hri Hpi Hrj Hpj. rewrite Nat.max_r by lia.
      apply (risaf_check_overlap_detects rs i j _ _ Hlt Hri Hrj); [assumption|].
      apply ranges_intersect_test. apply ranges_intersect_sym. assumption.
  - split.
    + apply (probe_panics_ordered b risaf es j i ej ei); auto.
    + intros rs pi pj Hri Hpi Hrj Hpj. rewrite Nat.max_l by lia.
      apply (risaf_check_overlap_detects rs j i _ _ Hgt Hrj Hri); [assumption|].
      apply ranges_intersect_test. assumption.
Qed.

Lemma risaf_probe_rejects_overlap_witness :
  fst (fst (run regfile (Risaf.probe_regions Risaf.sample_bindings Risaf.sample_risaf
                           Risaf.scenario_a) (fun _ => 0))) = Panicked /\
  (forall rs pi pj,
     rs !! 0%nat = Some (Risaf.region_of_entry
                           {| Risaf.dt_pnode := 0x100; Risaf.dt_reg_base := 0x80001000;
                              Risaf.dt_reg_size := 0x2000;
                              Risaf.dt_protreg := Some 0x01010031 |} pi) ->
     wrap32 pi <> 0 ->
     rs !! 1%nat = Some (Risaf.region_of_entry
                           {| Risaf.dt_pnode := 0x140; Risaf.dt_reg_base := 0x80002000;
                              Risaf.dt_reg_size := 0x2000;
                              Risaf.dt_protreg := Some 0x01010032 |} pj) ->
     wrap32 pj <> 0 ->
     Risaf.risaf_check_overlap rs (Nat.max 0 1) = TEE_ERROR_GENERIC).
Proof.
  apply (risaf_probe_rejects_overlap Risaf.sample_bindings Risaf.sample_risaf
           Risaf.scenario_a 0 1 _ _ regfile (fun _ => 0)).
  - reflexivity.
  - reflexivity.
  - discriminate.
  - unfold Risaf.configured. simpl. repeat split; try lia.
    exists 0x01010031. split; [reflexivity | vm_compute; discriminate].
  - unfold Risaf.configured. simpl. repeat split; try lia.
    exists 0x01010032. split; [reflexivity | vm_compute; discriminate].
  - exists 0x80002000. simpl. lia.
Defined.

(** In Scenario A both entries pass the boundary check; it is the overlap
    check of the second one that fails. *)
Example scenario_a_overlap_error :
  Risaf.risaf_check_region_boundaries Risaf.sample_risaf
    (Risaf.region_of_entry
       {| Risaf.dt_pnode := 0x140; Risaf.dt_reg_base := 0x80002000;
          Risaf.dt_reg_size := 0x2000; Risaf.dt_protreg := Some 0x01010032 |}
       0x01010032) = TEE_SUCCESS /\
  Risaf.risaf_check_overlap
    [ {| Risaf.cfg := 0x01010031; Risaf.addr := 0x80001000; Risaf.len := 0x2000 |};
      {| Risaf.cfg := 0x01010032; Risaf.addr := 0x80002000; Risaf.len := 0x2000 |} ] 1
  = TEE_ERROR_GENERIC.
Proof. split; reflexivity. Qed.

(** ** C9: the ETZPC access rule *)

(** C9. For a valid peripheral id and a requested attribute that the
    binding decodes, the routine reads the DECPROT register once and
    succeeds exactly when the current attribute equals the requested one,
    or the current attribute is not MCU-isolated and the request is secure
    (Secure-RW or NonSecure-Read/Secure-Write), or the current attribute is
    neither MCU-isolated nor Secure-RW and the request is non-secure
    (NonSecure-RW or NonSecure-Read/Secure-Write); it is denied otherwise.
    A peripheral that is MCU-isolated denies NonSecure-RW and Secure-RW. *)
Theorem etzpc_check_access_rule (pf : Etzpc.etzpc_platform) (dev : Etzpc.etzpc_device)
  (d : device) (s : hw d) (arg0 : Z) (attr_req : Etzpc.etzpc_decprot_attributes) :
  let id_ := Z.land arg0 (Etzpc.ETZPC_ID_MASK pf) in
  let mode := Z.shiftr (Z.land arg0 (Etzpc.ETZPC_MODE_MASK pf)) (Etzpc.ETZPC_MODE_SHIFT pf) in
  let rd := hw_read d s (Etzpc.decprot_addr dev id_) in
  let attr := Etzpc.attr_of_Z (Z.land (Z.shiftr (wrap32 (fst rd)) (Etzpc.decprot_shift id_))
                                 Etzpc.ETZPC_DECPROT0_MASK) in
  id_ < Etzpc.num_per_sec dev ->
  Etzpc.etzpc_binding2decprot pf mode = Ret attr_req ->
  exists code,
    run d (Etzpc.stm32_etzpc_check_access pf dev [arg0]) s
    = (Done code, snd rd, [EvRead (Etzpc.decprot_addr dev id_) (wrap32 (fst rd))]) /\
    (code = TEE_SUCCESS <->
       attr = attr_req \/
       (attr <> Etzpc.ETZPC_DECPROT_MCU_ISOLATION /\
        (attr_req = Etzpc.ETZPC_DECPROT_S_RW \/ attr_req = Etzpc.ETZPC_DECPROT_NS_R_S_W)) \/
       (attr <> Etzpc.ETZPC_DECPROT_MCU_ISOLATION /\ attr <> Etzpc.ETZPC_DECPROT_S_RW /\
        (attr_req = Etzpc.ETZPC_DECPROT_NS_RW \/ attr_req = Etzpc.ETZPC_DECPROT_NS_R_S_W))) /\
    (code <> TEE_SUCCESS -> code = TEE_ERROR_ACCESS_DENIED) /\
    (attr = Etzpc.ETZPC_DECPROT_MCU_ISOLATION ->
     attr_req = Etzpc.ETZPC_DECPROT_NS_RW \/ attr_req = Etzpc.ETZPC_DECPROT_S_RW ->
     code = TEE_ERROR_ACCESS_DENIED).
Proof.
  intros id_ mode rd attr Hid Hreq.
  unfold Etzpc.stm32_etzpc_check_access. fold id_ mode. rewrite Hreq.
  replace (id_ <? Etzpc.num_per_sec dev) with true by (symmetry; apply Z.ltb_lt; assumption).
  unfold Etzpc.etzpc_do_get_decprot, io_read32. simpl.
  fold rd. destruct rd as [x s1] eqn:Erd. simpl in attr. fold attr.
  clearbody attr.
  destruct attr, attr_req; simpl; eexists; (split; [reflexivity|]);
    (split; [split; [intros; try discriminate; intuition congruence
                    | intros; try reflexivity; intuition congruence]|]);
    (split; intros; try reflexivity; try congruence; intuition congruence).
Qed.

Lemma etzpc_check_access_rule_witness :
  let pf := Etzpc.sample_platform in
  let dev := Etzpc.sample_device in
  let attr := Etzpc.ETZPC_DECPROT_MCU_ISOLATION in
  let attr_req := Etzpc.ETZPC_DECPROT_S_RW in
  exists code,
    run regfile (Etzpc.stm32_etzpc_check_access pf dev [0x005])
      (fun a => if a =? 0x5C007010 then 0x800 else 0)
    = (Done code, (fun a => if a =? 0x5C007010 then 0x800 else 0),
       [EvRead 0x5C007010 0x800]) /\
    (code = TEE_SUCCESS <->
       attr = attr_req \/
       (attr <> Etzpc.ETZPC_DECPROT_MCU_ISOLATION /\
        (attr_req = Etzpc.ETZPC_DECPROT_S_RW \/ attr_req = Etzpc.ETZPC_DECPROT_NS_R_S_W)) \/
       (attr <> Etzpc.ETZPC_DECPROT_MCU_ISOLATION /\ attr <> Etzpc.ETZPC_DECPROT_S_RW /\
        (attr_req = Etzpc.ETZPC_DECPROT_NS_RW \/ attr_req = Etzpc.ETZPC_DECPROT_NS_R_S_W))) /\
    (code <> TEE_SUCCESS -> code = TEE_ERROR_ACCESS_DENIED) /\
    (attr = Etzpc.ETZPC_DECPROT_MCU_ISOLATION ->
     attr_req = Etzpc.ETZPC_DECPROT_NS_RW \/ attr_req = Etzpc.ETZPC_DECPROT_S_RW ->
     code = TEE_ERROR_ACCESS_DENIED).
Proof.
  apply (etzpc_check_access_rule Etzpc.sample_platform Etzpc.sample_device regfile
           (fun a => if a =? 0x5C007010 then 0x800 else 0) 0x005 Etzpc.ETZPC_DECPROT_S_RW).
  - vm_compute. reflexivity.
  - reflexivity.
Defined.

(** Scenario C of the design: peripheral 5 set to MCU isolation refuses a
    non-secure and a secure request; set to Secure-RW it grants the secure
    one. *)
Example scenario_c :
  fst (fst (run regfile (Etzpc.stm32_etzpc_check_access Etzpc.sample_platform
                           Etzpc.sample_device [0x305])
              (fun a => if a =? 0x5C007010 then 0x800 else 0)))
  = Done TEE_ERROR_ACCESS_DENIED /\
  fst (fst (run regfile (Etzpc.stm32_etzpc_check_access Etzpc.sample_platform
                           Etzpc.sample_device [0x005])
              (fun a => if a =? 0x5C007010 then 0x800 else 0)))
  = Done TEE_ERROR_ACCESS_DENIED /\
  fst (fst (run regfile (Etzpc.stm32_etzpc_check_access Etzpc.sample_platform
                           Etzpc.sample_device [0x005])
              (fun _ => 0)))
  = Done TEE_SUCCESS.
Proof. repeat split; vm_compute; reflexivity. Qed.

(** ** C6: recording a configuration cell in the tables *)

Lemma or_word_sets_bit arr (i : Z) w :
  0 <= i < 32 -> arr !! 0%nat = Some w ->
  exists w', or_word arr (i / 32) (BIT i) !! 0%nat = Some w' /\
             Z.testbit w' (i mod 32) = true /\
             (forall n, n <> i -> Z.testbit w' n = Z.testbit w n).
Proof.
  intros Hi Hw. unfold or_word.
  rewrite Z.div_small, Z.mod_small by lia. change (Z.to_nat 0) with 0%nat.
  rewrite list_lookup_alter_eq, Hw. simpl. eexists. split; [reflexivity|].
  unfold BIT, wrap32. rewrite Z.shiftl_1_l.
  rewrite Z.mod_small
    by (split; [apply Z.pow_nonneg; lia | apply Z.pow_lt_mono_r; lia]).
  split.
  - rewrite Z.lor_spec, Z.pow2_bits_true by lia. apply orb_true_r.
  - intros n Hn. destruct (Z_lt_le_dec n 0) as [Hneg|Hpos].
    + rewrite !Z.testbit_neg_r by assumption. reflexivity.
    + rewrite Z.lor_spec, Z.pow2_bits_false by lia. apply orb_false_r.
Qed.


(** For a resource index below 32, in terms of the first word of each
    table: bit [i] of word 0 of the access mask is set, the security and
    privilege bits are set when the flag of the cell is set and the tables
    are untouched when it is clear, and the packed CID word lands at index
    [i]. *)
Lemma parse_cfg_first_word (b : rif_bindings) (rif_conf : Z) (cd : rif_conf_data)
  (nb_cid_supp nb_resource wa : Z) :
  let i := Z.land rif_conf (RIF_PER_ID_MASK b) in
  nb_cid_supp <= MAX_CID_SUPPORTED -> 0 <= i < 32 -> i < nb_resource ->
  access_mask cd !! 0%nat = Some wa ->
  exists cd',
    stm32_rif_parse_cfg b rif_conf cd nb_cid_supp nb_resource = Done cd' /\
    (exists wa', access_mask cd' !! Z.to_nat (i / 32) = Some wa' /\
                 Z.testbit wa' (i mod 32) = true) /\
    (nz (Z.land rif_conf (BIT (RIF_SEC_SHIFT b))) = false -> sec_conf cd' = sec_conf cd) /\
    (nz (Z.land rif_conf (BIT (RIF_SEC_SHIFT b))) = true ->
     forall ws, sec_conf cd !! 0%nat = Some ws ->
       exists ws', sec_conf cd' !! Z.to_nat (i / 32) = Some ws' /\
                   Z.testbit ws' (i mod 32) = true) /\
    (nz (Z.land rif_conf (BIT (RIF_PRIV_SHIFT b))) = false -> priv_conf cd' = priv_conf cd) /\
    (nz (Z.land rif_conf (BIT (RIF_PRIV_SHIFT b))) = true ->
     forall wp, priv_conf cd !! 0%nat = Some wp ->
       exists wp', priv_conf cd' !! Z.to_nat (i / 32) = Some wp' /\
                   Z.testbit wp' (i mod 32) = true) /\
    ((Z.to_nat i < length (cid_confs cd))%nat ->
     cid_confs cd' !! Z.to_nat i
     = Some (Z.shiftr (Z.land rif_conf (RIF_PERx_CID_MASK b)) (RIF_PERx_CID_SHIFT b))).
Proof.
  intros i Hnb Hi Hres Hwa. unfold stm32_rif_parse_cfg. fold i.
  replace (MAX_CID_SUPPORTED <? nb_cid_supp) with false by (symmetry; apply Z.ltb_ge; lia).
  replace (nb_resource <=? i) with false by (symmetry; apply Z.leb_gt; lia).
  eexists. split; [reflexivity|]. simpl.
  assert (Hq : Z.to_nat (i / 32) = 0%nat) by (rewrite Z.div_small by lia; reflexivity).
  repeat split.
  - destruct (or_word_sets_bit _ i wa Hi Hwa) as (w' & Hl & Hb & _).
    exists w'. rewrite Hq. auto.
  - intros ->. reflexivity.
  - intros -> ws Hws. destruct (or_word_sets_bit _ i ws Hi Hws) as (w' & Hl & Hb & _).
    exists w'. rewrite Hq. auto.
  - intros ->. reflexivity.
  - intros -> wp Hwp. destruct (or_word_sets_bit _ i wp Hi Hwp) as (w' & Hl & Hb & _).
    exists w'. rewrite Hq. auto.
  - intros Hlen. apply list_lookup_insert_eq. assumption.
Qed.



(** The cell [0x9D03] of the sample layout names resource 3 with the
    privilege, security and lock flags set and the CID word [0x11]. *)
Example parse_cfg_index_3_recorded :
  stm32_rif_parse_cfg sample_bindings 0x9D03 empty_conf_data 7 64
  = Done {| access_mask := [8; 0];
            sec_conf := [8; 0];
            priv_conf := [8; 0];
            cid_confs := <[3%nat := 0x11]> (replicate 64 0);
            lock_conf := Some [8; 0] |}.
Proof. vm_compute. reflexivity. Qed.

(** ** C4: reconfiguring a locked resource *)

(** ETZPC peripheral path: with the lock bit of the peripheral set, the
    routine only reads; it answers [TEE_ERROR_ACCESS_DENIED] when the
    requested attribute differs from the current one and success when it is
    the same. *)
Lemma etzpc_configure_locked (pf : Etzpc.etzpc_platform) (dev : Etzpc.etzpc_device)
  (d : device) (s : hw d) (arg0 : Z) (attr : Etzpc.etzpc_decprot_attributes) :
  let id_ := Z.land arg0 (Etzpc.ETZPC_ID_MASK pf) in
  let mode := Z.shiftr (Z.land arg0 (Etzpc.ETZPC_MODE_MASK pf)) (Etzpc.ETZPC_MODE_SHIFT pf) in
  let rd1 := hw_read d s (Etzpc.decprot_lock_addr dev id_) in
  let rd2 := hw_read d (snd rd1) (Etzpc.decprot_addr dev id_) in
  let cur := Etzpc.attr_of_Z (Z.land (Z.shiftr (wrap32 (fst rd2)) (Etzpc.decprot_shift id_))
                                Etzpc.ETZPC_DECPROT0_MASK) in
  id_ < Etzpc.num_per_sec dev ->
  Etzpc.etzpc_binding2decprot pf mode = Ret attr ->
  Z.testbit (wrap32 (fst rd1)) (id_ mod 32) = true ->
  run d (Etzpc.stm32_etzpc_configure pf dev [arg0]) s
  = (Done (if Etzpc.attr_eqb cur attr then TEE_SUCCESS else TEE_ERROR_ACCESS_DENIED),
     snd rd2,
     [EvRead (Etzpc.decprot_lock_addr dev id_) (wrap32 (fst rd1));
      EvRead (Etzpc.decprot_addr dev id_) (wrap32 (fst rd2))]).
Proof.
  intros id_ mode rd1 rd2 cur Hid Hreq Hlock.
  unfold Etzpc.stm32_etzpc_configure. fold id_ mode. rewrite Hreq.
  replace (id_ <? Etzpc.num_per_sec dev) with true by (symmetry; apply Z.ltb_lt; assumption).
  unfold Etzpc.configure_decprot_unless_locked, Etzpc.decprot_is_locked,
    Etzpc.etzpc_do_get_decprot, io_read32, Etzpc.IDS_PER_DECPROT_LOCK_REGS. simpl.
  fold rd1. destruct rd1 as [x1 s1] eqn:E1. simpl in rd2, Hlock.
  rewrite nz_land_BIT by (apply Z.mod_pos_bound; lia). rewrite Hlock. simpl.
  fold rd2. destruct rd2 as [x2 s2] eqn:E2. simpl in cur. fold cur.
  destruct (Etzpc.attr_eqb cur attr); reflexivity.
Qed.

(** ETZPC TZMA path: with the lock bit of the TZMA word set, the routine
    only reads; a page count other than the current one is denied, the same
    count succeeds. *)
Lemma etzpc_tzma_locked (dev : Etzpc.etzpc_device) (d : device) (s : hw d)
  (tzma_id size : Z) :
  let rd1 := hw_read d s (Etzpc.tzma_addr dev tzma_id) in
  let rd2 := hw_read d (snd rd1) (Etzpc.tzma_addr dev tzma_id) in
  let cur := wrap32 (fst rd2) mod 2 ^ 16 in
  let total_sz := wrap32 (Etzpc.ROUNDUP_DIV size Etzpc.SMALL_PAGE_SIZE) in
  Etzpc.IS_ALIGNED size Etzpc.SMALL_PAGE_SIZE = true ->
  Z.testbit (wrap32 (fst rd1)) 31 = true ->
  run d (Etzpc.configure_tzma_unless_locked dev tzma_id size) s
  = (Done (if cur =? total_sz then TEE_SUCCESS else TEE_ERROR_ACCESS_DENIED),
     snd rd2,
     [EvRead (Etzpc.tzma_addr dev tzma_id) (wrap32 (fst rd1));
      EvRead (Etzpc.tzma_addr dev tzma_id) (wrap32 (fst rd2))]).
Proof.
  intros rd1 rd2 cur total_sz Hal Hlock.
  unfold Etzpc.configure_tzma_unless_locked, Etzpc.tzma_is_locked,
    Etzpc.etzpc_do_get_tzma, io_read32, Etzpc.ETZPC_TZMA0_SIZE_LOCK.
  rewrite Hal. simpl negb. cbv iota. fold total_sz. simpl.
  fold rd1. destruct rd1 as [x1 s1] eqn:E1. cbn [fst snd] in rd2, Hlock.
  rewrite nz_land_BIT by lia. rewrite Hlock. simpl.
  fold rd2. destruct rd2 as [x2 s2] eqn:E2. simpl in cur. fold cur.
  destruct (cur =? total_sz); reflexivity.
Qed.

(** Scenario D of the design: TZMA 0 locked at 16 pages refuses 32 pages
    and accepts 16 pages again, without a write. *)
Example scenario_d :
  run regfile (Etzpc.stm32_etzpc_configure_memory Etzpc.sample_platform
                 Etzpc.sample_device [200] 0 0x20000)
    (fun a => if a =? 0x5C007000 then 0x80000010 else 0)
  = (Done TEE_ERROR_ACCESS_DENIED, (fun a => if a =? 0x5C007000 then 0x80000010 else 0),
     [EvRead 0x5C007000 0x80000010; EvRead 0x5C007000 0x80000010]) /\
  run regfile (Etzpc.stm32_etzpc_configure_memory Etzpc.sample_platform
                 Etzpc.sample_device [200] 0 0x10000)
    (fun a => if a =? 0x5C007000 then 0x80000010 else 0)
  = (Done TEE_SUCCESS, (fun a => if a =? 0x5C007000 then 0x80000010 else 0),
     [EvRead 0x5C007000 0x80000010; EvRead 0x5C007000 0x80000010]).
Proof. split; vm_compute; reflexivity. Qed.

(** RIFSC runtime path: with the lock bit of the RISUP set the routine
    reads the lock register and returns [TEE_ERROR_ACCESS_DENIED], leaving
    the table as it was. *)
Lemma rifsc_reconfigure_risup_locked (pdata : rifsc_platdata) (d : device) (s : hw d)
  (risup_id cid : Z) (sec priv cfen : bool) :
  let rd := hw_read d s (rcfglockr_addr (base pdata) risup_id) in
  risup_id <= nb_risup (drv_data pdata) -> cid <= MAX_CID_SUPPORTED ->
  Z.testbit (wrap32 (fst rd)) (risup_id mod 32) = true ->
  run d (stm32_rifsc_reconfigure_risup pdata risup_id cid sec priv cfen) s
  = (Done (TEE_ERROR_ACCESS_DENIED, pdata), snd rd,
     [EvRead (rcfglockr_addr (base pdata) risup_id) (wrap32 (fst rd))]).
Proof.
  intros rd Hid Hcid Hlock. unfold stm32_rifsc_reconfigure_risup.
  replace (nb_risup (drv_data pdata) <? risup_id) with false
    by (symmetry; apply Z.ltb_ge; assumption).
  replace (MAX_CID_SUPPORTED <? cid) with false by (symmetry; apply Z.ltb_ge; assumption).
  unfold io_read32, _PERIPH_IDS_PER_REG. simpl.
  change (base pdata + _RIFSC_RISC_RCFGLOCKR0 + 4 * (risup_id / 32))
    with (rcfglockr_addr (base pdata) risup_id).
  fold rd. destruct rd as [x s1] eqn:E. simpl in Hlock.
  rewrite nz_land_BIT by (apply Z.mod_pos_bound; lia). rewrite Hlock. reflexivity.
Qed.

(** C4 on the RIFSC [set_config] path. Resource 3 of the sample platform
    is locked and non-secure. The runtime path refuses to reconfigure it;
    [set_config] asked to make it secure (cell [0x803]: resource 3,
    security flag, CID word 0) does not look at the lock register, writes
    the security bit and returns success, where C4 asks for
    [TEE_ERROR_ACCESS_DENIED] and an unchanged configuration. *)
Theorem rifsc_set_config_ignores_lock :
  let '(res, regs, t) :=
    run regfile (stm32_rifsc_set_config sample_bindings sample_pdata [0x803]) locked_regs in
  Z.testbit (locked_regs (rcfglockr_addr 0x42080000 3)) 3 = true /\
  res = Done TEE_SUCCESS /\
  locked_regs (seccfgr_addr 0x42080000 3) = 0 /\
  regs (seccfgr_addr 0x42080000 3) = BIT 3 /\
  In (EvWrite (seccfgr_addr 0x42080000 3) (BIT 3)) t /\
  (forall v, ~ In (EvRead (rcfglockr_addr 0x42080000 3) v) t) /\
  fst (fst (run regfile (stm32_rifsc_reconfigure_risup sample_pdata 3 0 true false false)
              locked_regs))
  = Done (TEE_ERROR_ACCESS_DENIED, sample_pdata).
Proof.
  vm_compute. repeat split; try reflexivity.
  - right. right. left. reflexivity.
  - intros v H. repeat (destruct H as [H|H]; [discriminate|]). destruct H.
Qed.

(* ===================================================================== *)
(** * Part III: further properties of the drivers *)
(* ===================================================================== *)

(** ** [stm32_rif.c]: taking a semaphore *)

Lemma last_two_events {A : Type} (t0 t1 : list A) (a b a' b' : A) :
  t0 ++ [a; b] = t1 ++ [a'; b'] -> a = a' /\ b = b'.
Proof.
  intros H.
  change (t0 ++ [a; b]) with (t0 ++ [a] ++ [b]) in H.
  change (t1 ++ [a'; b']) with (t1 ++ [a'] ++ [b']) in H.
  rewrite !app_assoc in H.
  apply app_inj_tail in H as [H ->]. apply app_inj_tail in H as [_ ->]. auto.
Qed.

(** X1. On every device a call of [stm32_rif_acquire_semaphore] returns,
    and its only write is the value first read with the mutex bit set. It
    returns success exactly when its run ends with two reads of which the
    first shows the mutex taken and the second shows compartment 1 as the
    holder; every other run returns [TEE_ERROR_ACCESS_DENIED]. *)
Theorem rif_acquire_semaphore_protocol (d : device) (s : hw d) (addr nb : Z) :
  let '(r, _, t) := run d (stm32_rif_acquire_semaphore addr nb) s in
  exists code, r = Done code /\ acquire_run addr nb t code /\
    writes_of t = [EvWrite addr (Z.setbit (wrap32 (fst (hw_read d s addr))) 0)] /\
    (code = TEE_SUCCESS <->
     exists t0 v1 v2, t = t0 ++ [EvRead addr v1; EvRead addr v2] /\
       semaphore_taken v1 = true /\ semaphore_holder nb v2 = RIF_CID1) /\
    (code <> TEE_SUCCESS -> code = TEE_ERROR_ACCESS_DENIED).
Proof.
  unfold stm32_rif_acquire_semaphore, stm32_rif_is_semaphore_available,
    io_setbits32, io_read32, io_write32. simpl.
  destruct (hw_read d s addr) as [x0 s0]. simpl.
  destruct (hw_read d _ addr) as [x1 s1]. rewrite semaphore_taken_mutex.
  rewrite set_mutex_word.
  destruct (semaphore_taken (wrap32 x1)) eqn:E1; simpl.
  2:{ exists TEE_ERROR_ACCESS_DENIED. split; [reflexivity|].
      split; [constructor; assumption|]. split; [reflexivity|]. split; [|auto].
      split; [discriminate|]. intros (t0 & v1 & v2 & Ht & _).
      exfalso.
      change [EvRead addr (wrap32 x0); EvWrite addr (Z.setbit (wrap32 x0) 0);
              EvRead addr (wrap32 x1)]
        with ([EvRead addr (wrap32 x0)] ++
              [EvWrite addr (Z.setbit (wrap32 x0) 0); EvRead addr (wrap32 x1)]) in Ht.
      apply last_two_events in Ht as [Ht _]. discriminate. }
  destruct (hw_read d s1 addr) as [x2 s2]. simpl.
  change _CIDCFGR_SCID_SHIFT with 4.
  fold (semaphore_holder nb (wrap32 x2)).
  destruct (Z.eqb_spec (semaphore_holder nb (wrap32 x2)) RIF_CID1) as [Eh|Eh]; simpl.
  - exists TEE_SUCCESS. split; [reflexivity|].
    split; [apply acquire_held; assumption|]. split; [reflexivity|].
    split; [|intros H; contradiction].
    split; [|reflexivity]. intros _.
    exists [EvRead addr (wrap32 x0); EvWrite addr (Z.setbit (wrap32 x0) 0)],
      (wrap32 x1), (wrap32 x2). auto.
  - exists TEE_ERROR_ACCESS_DENIED. split; [reflexivity|].
    split; [apply acquire_lost; assumption|]. split; [reflexivity|]. split; [|auto].
    split; [discriminate|]. intros (t0 & v1 & v2 & Ht & _ & Hh).
    exfalso.
    change [EvRead addr (wrap32 x0); EvWrite addr (Z.setbit (wrap32 x0) 0);
            EvRead addr (wrap32 x1); EvRead addr (wrap32 x2)]
      with ([EvRead addr (wrap32 x0); EvWrite addr (Z.setbit (wrap32 x0) 0)] ++
            [EvRead addr (wrap32 x1); EvRead addr (wrap32 x2)]) in Ht.
    apply last_two_events in Ht as [_ Ht]. inversion Ht; subst. contradiction.
Qed.

(** ** [stm32_rif.c]: one compartment at a time *)

(** X2. With CID filtering enabled, and the semaphore taken whenever
    semaphore mode is on, [stm32_rif_check_access] grants at most one
    compartment: once it returns success for a compartment it returns
    [TEE_ERROR_ACCESS_DENIED] for every other one. *)
Theorem rif_check_access_exclusive (cidcfgr semcr nb c1 c2 : Z) :
  in_u32 cidcfgr -> in_u32 nb -> cid_bitfield_fits nb ->
  0 <= c1 < 2 ^ 28 -> 0 <= c2 < 2 ^ 28 ->
  cid_filtering_enabled cidcfgr = true ->
  (semaphore_enabled cidcfgr = true -> semaphore_taken semcr = true) ->
  c1 <> c2 ->
  stm32_rif_check_access cidcfgr semcr nb c1 = TEE_SUCCESS ->
  stm32_rif_check_access cidcfgr semcr nb c2 = TEE_ERROR_ACCESS_DENIED.
Proof.
  intros Hc Hnb Hfit Hc1 Hc2.
  unfold stm32_rif_check_access, SCID_OK, SEM_EN_AND_OK, cid_filtering_enabled,
    semaphore_enabled, semaphore_taken, _CIDCFGR_CFEN, _CIDCFGR_SEMEN, _SEMCR_MUTEX,
    _CIDCFGR_SEMWL, _CIDCFGR_SEMWL_SHIFT.
  assert (Hm : Z.land (scid_mask_of nb) 15 = 0).
  { destruct (scid_mask_cases nb Hnb Hfit) as [-> | [-> | ->]]; reflexivity. }
  rewrite (scid_field_eqb _ _ _ Hm Hc1), (scid_field_eqb _ _ _ Hm Hc2).
  rewrite (nz_land_BIT cidcfgr 0), (nz_land_BIT cidcfgr 1), (nz_land_BIT semcr 0) by lia.
  change _CIDCFGR_SCID_SHIFT with 4.
  set (m := scid_mask_of nb).
  intros H0 Htaken Hne. rewrite H0. cbn [negb].
  destruct (Z.testbit cidcfgr 1) eqn:E1.
  - rewrite (Htaken eq_refl). cbn [negb andb orb]. rewrite !andb_false_r.
    destruct (Z.eqb_spec (Z.shiftr (Z.land semcr m) 4) c1) as [Eh1|Eh1];
      destruct (Z.eqb_spec (Z.shiftr (Z.land semcr m) 4) c2) as [Eh2|Eh2];
      rewrite ?andb_false_r, ?andb_true_r; try congruence; try reflexivity.
  - cbn [negb andb orb]. rewrite !andb_true_r.
    destruct (Z.eqb_spec (Z.shiftr (Z.land cidcfgr m) 4) c1) as [Es1|Es1];
      destruct (Z.eqb_spec (Z.shiftr (Z.land cidcfgr m) 4) c2) as [Es2|Es2];
      try congruence; try reflexivity.
Qed.

Lemma rif_check_access_exclusive_witness :
  stm32_rif_check_access 0x60003 0x11 7 2 = TEE_ERROR_ACCESS_DENIED.
Proof.
  apply (rif_check_access_exclusive 0x60003 0x11 7 1 2);
    unfold in_u32, cid_bitfield_fits; vm_compute; intuition discriminate.
Defined.

(** ** [stm32_rif.c]: what a configuration cell does to the tables *)

Lemma bits_kept_refl l : bits_kept l l.
Proof. split; [reflexivity|]. intros k w H. exists w. auto. Qed.

Lemma bits_kept_or_word arr idx bits : bits_kept arr (or_word arr idx bits).
Proof.
  unfold or_word. split; [apply length_alter|].
  intros k w H. destruct (Nat.eq_dec (Z.to_nat idx) k) as [<-|Hne].
  - rewrite list_lookup_alter_eq, H. simpl. eexists. split; [reflexivity|].
    intros j Hj. rewrite Z.lor_spec, Hj. reflexivity.
  - rewrite list_lookup_alter_ne by assumption. exists w. auto.
Qed.

Lemma or_word_idem arr idx bits :
  or_word (or_word arr idx bits) idx bits = or_word arr idx bits.
Proof.
  unfold or_word. apply list_eq. intros k.
  destruct (Nat.eq_dec (Z.to_nat idx) k) as [<-|Hne].
  - rewrite !list_lookup_alter_eq. destruct (arr !! Z.to_nat idx) as [w|]; simpl; [|reflexivity].
    rewrite <- Z.lor_assoc, Z.lor_diag. reflexivity.
  - rewrite !list_lookup_alter_ne by assumption. reflexivity.
Qed.

Lemma or_word_comm arr i1 b1 i2 b2 :
  or_word (or_word arr i1 b1) i2 b2 = or_word (or_word arr i2 b2) i1 b1.
Proof.
  unfold or_word. apply list_eq. intros k.
  destruct (Nat.eq_dec (Z.to_nat i1) k) as [E1|E1];
    destruct (Nat.eq_dec (Z.to_nat i2) k) as [E2|E2].
  - rewrite E1, E2, !list_lookup_alter_eq.
    destruct (arr !! k) as [w|]; simpl; [|reflexivity].
    rewrite <- !Z.lor_assoc, (Z.lor_comm b1 b2). reflexivity.
  - rewrite E1, list_lookup_alter_ne, !list_lookup_alter_eq, list_lookup_alter_ne
      by assumption. reflexivity.
  - rewrite E2, list_lookup_alter_eq, list_lookup_alter_ne, list_lookup_alter_ne,
      list_lookup_alter_eq by assumption. reflexivity.
  - rewrite !list_lookup_alter_ne by assumption. reflexivity.
Qed.

(** X3. A cell that [stm32_rif_parse_cfg] accepts only adds to the tables:
    the compartment count is within the supported maximum and the resource
    index within the table, every bitmap keeps its length and every bit it
    had (the lock bitmap stays absent when it was absent), and the only CID
    word that may change is the one of the cell's own resource. *)
Theorem parse_cfg_only_adds (b : rif_bindings) (rif_conf : Z)
  (cd cd' : rif_conf_data) (nb_cid_supp nb_resource : Z) :
  stm32_rif_parse_cfg b rif_conf cd nb_cid_supp nb_resource = Done cd' ->
  nb_cid_supp <= MAX_CID_SUPPORTED /\
  Z.land rif_conf (RIF_PER_ID_MASK b) < nb_resource /\
  bits_kept (access_mask cd) (access_mask cd') /\
  bits_kept (sec_conf cd) (sec_conf cd') /\
  bits_kept (priv_conf cd) (priv_conf cd') /\
  lock_bits_kept (lock_conf cd) (lock_conf cd') /\
  length (cid_confs cd') = length (cid_confs cd) /\
  (forall k : nat, k <> Z.to_nat (Z.land rif_conf (RIF_PER_ID_MASK b)) ->
     cid_confs cd' !! k = cid_confs cd !! k).
Proof.
  unfold stm32_rif_parse_cfg.
  destruct (Z.ltb_spec MAX_CID_SUPPORTED nb_cid_supp) as [|Hnb]; [discriminate|].
  destruct (Z.leb_spec nb_resource (Z.land rif_conf (RIF_PER_ID_MASK b))) as [|Hid];
    [discriminate|].
  intros H. inversion H; subst cd'; clear H. cbn [access_mask sec_conf priv_conf
    cid_confs lock_conf].
  split; [assumption|]. split; [assumption|].
  split; [apply bits_kept_or_word|].
  split; [destruct (nz _); [apply bits_kept_or_word | apply bits_kept_refl]|].
  split; [destruct (nz (Z.land rif_conf (BIT (RIF_PRIV_SHIFT b))));
          [apply bits_kept_or_word | apply bits_kept_refl]|].
  split.
  { unfold lock_bits_kept. destruct (lock_conf cd) as [l|]; [|exact I].
    destruct (nz _); [apply bits_kept_or_word | apply bits_kept_refl]. }
  split; [apply length_insert|].
  intros k Hk. apply list_lookup_insert_ne. auto.
Qed.

Lemma parse_cfg_only_adds_witness :
  let cd' := {| access_mask := [8; 0]; sec_conf := [8; 0]; priv_conf := [8; 0];
                cid_confs := <[3%nat := 0x11]> (replicate 64 0);
                lock_conf := Some [8; 0] |} in
  7 <= MAX_CID_SUPPORTED /\
  Z.land 0x9D03 (RIF_PER_ID_MASK sample_bindings) < 64 /\
  bits_kept (access_mask empty_conf_data) (access_mask cd') /\
  bits_kept (sec_conf empty_conf_data) (sec_conf cd') /\
  bits_kept (priv_conf empty_conf_data) (priv_conf cd') /\
  lock_bits_kept (lock_conf empty_conf_data) (lock_conf cd') /\
  length (cid_confs cd') = length (cid_confs empty_conf_data) /\
  (forall k : nat, k <> Z.to_nat (Z.land 0x9D03 (RIF_PER_ID_MASK sample_bindings)) ->
     cid_confs cd' !! k = cid_confs empty_conf_data !! k).
Proof.
  apply (parse_cfg_only_adds sample_bindings 0x9D03 empty_conf_data _ 7 64).
  vm_compute. reflexivity.
Defined.

(** X4. Parsing the same cell a second time changes nothing: the tables
    that come out of [stm32_rif_parse_cfg] are a fixed point of the cell. *)
Theorem parse_cfg_idempotent (b : rif_bindings) (rif_conf : Z)
  (cd cd' : rif_conf_data) (nb_cid_supp nb_resource : Z) :
  stm32_rif_parse_cfg b rif_conf cd nb_cid_supp nb_resource = Done cd' ->
  stm32_rif_parse_cfg b rif_conf cd' nb_cid_supp nb_resource = Done cd'.
Proof.
  unfold stm32_rif_parse_cfg.
  destruct (MAX_CID_SUPPORTED <? nb_cid_supp); [discriminate|].
  destruct (nb_resource <=? Z.land rif_conf (RIF_PER_ID_MASK b)); [discriminate|].
  intros H. inversion H; subst cd'; clear H.
  cbn [access_mask sec_conf priv_conf cid_confs lock_conf].
  f_equal. f_equal.
  - apply or_word_idem.
  - destruct (nz (Z.land rif_conf (BIT (RIF_SEC_SHIFT b)))); [apply or_word_idem|reflexivity].
  - destruct (nz (Z.land rif_conf (BIT (RIF_PRIV_SHIFT b)))); [apply or_word_idem|reflexivity].
  - apply list_insert_insert_eq.
  - destruct (lock_conf cd) as [l|]; [|reflexivity].
    destruct (nz (Z.land rif_conf (BIT (RIF_LOCK_SHIFT b)))); [|reflexivity].
    rewrite or_word_idem. reflexivity.
Qed.

Lemma parse_cfg_idempotent_witness :
  stm32_rif_parse_cfg sample_bindings 0x9D03
    {| access_mask := [8; 0]; sec_conf := [8; 0]; priv_conf := [8; 0];
       cid_confs := <[3%nat := 0x11]> (replicate 64 0);
       lock_conf := Some [8; 0] |} 7 64
  = Done {| access_mask := [8; 0]; sec_conf := [8; 0]; priv_conf := [8; 0];
            cid_confs := <[3%nat := 0x11]> (replicate 64 0);
            lock_conf := Some [8; 0] |}.
Proof.
  apply (parse_cfg_idempotent sample_bindings 0x9D03 empty_conf_data _ 7 64).
  vm_compute. reflexivity.
Defined.

(** X5. The order of two cells that name different resources does not
    matter: parsing them either way round gives the same tables. *)
Theorem parse_cfg_order_irrelevant (b : rif_bindings) (c1 c2 : Z)
  (cd cd1 cd12 : rif_conf_data) (nb_cid_supp nb_resource : Z) :
  0 <= Z.land c1 (RIF_PER_ID_MASK b) -> 0 <= Z.land c2 (RIF_PER_ID_MASK b) ->
  Z.land c1 (RIF_PER_ID_MASK b) <> Z.land c2 (RIF_PER_ID_MASK b) ->
  stm32_rif_parse_cfg b c1 cd nb_cid_supp nb_resource = Done cd1 ->
  stm32_rif_parse_cfg b c2 cd1 nb_cid_supp nb_resource = Done cd12 ->
  exists cd2,
    stm32_rif_parse_cfg b c2 cd nb_cid_supp nb_resource = Done cd2 /\
    stm32_rif_parse_cfg b c1 cd2 nb_cid_supp nb_resource = Done cd12.
Proof.
  intros H1 H2 Hne. unfold stm32_rif_parse_cfg.
  destruct (MAX_CID_SUPPORTED <? nb_cid_supp); [discriminate|].
  destruct (nb_resource <=? Z.land c1 (RIF_PER_ID_MASK b)); [discriminate|].
  destruct (nb_resource <=? Z.land c2 (RIF_PER_ID_MASK b)); [discriminate|].
  intros E1 E2. inversion E1; subst cd1; clear E1.
  cbn [access_mask sec_conf priv_conf cid_confs lock_conf] in E2.
  inversion E2; subst cd12; clear E2.
  eexists. split; [reflexivity|].
  cbn [access_mask sec_conf priv_conf cid_confs lock_conf].
  f_equal. f_equal.
  - apply or_word_comm.
  - destruct (nz (Z.land c1 (BIT (RIF_SEC_SHIFT b))));
      destruct (nz (Z.land c2 (BIT (RIF_SEC_SHIFT b)))); try reflexivity.
    apply or_word_comm.
  - destruct (nz (Z.land c1 (BIT (RIF_PRIV_SHIFT b))));
      destruct (nz (Z.land c2 (BIT (RIF_PRIV_SHIFT b)))); try reflexivity.
    apply or_word_comm.
  - apply list_insert_insert_ne. intros E. apply Hne. lia.
  - destruct (lock_conf cd) as [l|]; [|reflexivity].
    destruct (nz (Z.land c1 (BIT (RIF_LOCK_SHIFT b))));
      destruct (nz (Z.land c2 (BIT (RIF_LOCK_SHIFT b)))); try reflexivity.
    rewrite or_word_comm. reflexivity.
Qed.

Lemma parse_cfg_order_irrelevant_witness :
  exists cd2,
    stm32_rif_parse_cfg sample_bindings 0x0805 empty_conf_data 7 64 = Done cd2 /\
    stm32_rif_parse_cfg sample_bindings 0x9D03 cd2 7 64
    = Done {| access_mask := [0x28; 0]; sec_conf := [0x28; 0]; priv_conf := [8; 0];
              cid_confs := <[5%nat := 0]> (<[3%nat := 0x11]> (replicate 64 0));
              lock_conf := Some [8; 0] |}.
Proof.
  apply (parse_cfg_order_irrelevant sample_bindings 0x9D03 0x0805 empty_conf_data
           {| access_mask := [8; 0]; sec_conf := [8; 0]; priv_conf := [8; 0];
              cid_confs := <[3%nat := 0x11]> (replicate 64 0);
              lock_conf := Some [8; 0] |} _ 7 64).
  - vm_compute. discriminate.
  - vm_compute. discriminate.
  - vm_compute. discriminate.
  - vm_compute. reflexivity.
  - vm_compute. reflexivity.
Defined.

(** ** Masks and fields *)

Lemma wrap32_testbit x n : 0 <= n ->
  Z.testbit (wrap32 x) n = (n <? 32) && Z.testbit x n.
Proof.
  intros Hn. unfold wrap32. destruct (Z.ltb_spec n 32).
  - rewrite Z.mod_pow2_bits_low by lia. reflexivity.
  - rewrite Z.mod_pow2_bits_high by lia. reflexivity.
Qed.

Lemma GENMASK_32_testbit h l n :
  0 <= l -> h < 32 -> 0 <= n ->
  Z.testbit (GENMASK_32 h l) n = (l <=? n) && (n <=? h).
Proof.
  intros Hl Hh Hn. unfold GENMASK_32.
  rewrite Z.land_spec, wrap32_testbit, Z.shiftl_spec, Z.shiftr_spec by lia.
  change 0xFFFFFFFF with (Z.ones 32).
  destruct (Z.leb_spec l n); destruct (Z.leb_spec n h); destruct (Z.ltb_spec n 32);
    try lia; cbn [andb];
    repeat first [ rewrite Z.ones_spec_low by lia
                 | rewrite Z.ones_spec_high by lia
                 | rewrite Z.testbit_neg_r by lia ];
    rewrite ?andb_false_r; reflexivity.
Qed.

(** A field that is read through its mask and shift. *)
Lemma fld_get_spec h l v :
  0 <= l -> l <= h -> h < 32 -> in_u32 v ->
  _RIF_FLD_GET (GENMASK_32 h l) l v = (v / 2 ^ l) mod 2 ^ (h - l + 1).
Proof.
  intros Hl Hlh Hh Hv. unfold _RIF_FLD_GET, wrap32.
  rewrite (Z.mod_small v) by exact Hv.
  rewrite <- Z.shiftr_div_pow2, <- Z.land_ones by lia.
  apply Z.bits_inj'. intros n Hn.
  rewrite Z.shiftr_spec, !Z.land_spec, Z.shiftr_spec, GENMASK_32_testbit by lia.
  destruct (Z.ltb_spec n (h - l + 1)).
  - rewrite Z.ones_spec_low by lia.
    replace (l <=? n + l) with true by (symmetry; apply Z.leb_le; lia).
    replace (n + l <=? h) with true by (symmetry; apply Z.leb_le; lia). reflexivity.
  - rewrite Z.ones_spec_high by lia.
    replace (n + l <=? h) with false by (symmetry; apply Z.leb_gt; lia).
    rewrite !andb_false_r. reflexivity.
Qed.

Lemma u32_of_bits y :
  0 <= y -> (forall n, 32 <= n -> Z.testbit y n = false) -> in_u32 y.
Proof.
  intros H0 Hb. split; [assumption|].
  destruct (Z.eq_dec y 0) as [->|Hnz]; [lia|].
  apply Z.log2_lt_pow2; [lia|].
  destruct (Z_lt_le_dec (Z.log2 y) 32) as [|Hge]; [assumption|].
  specialize (Hb _ Hge). rewrite Z.bit_log2 in Hb by lia. discriminate.
Qed.

Lemma wrap32_u32 y : in_u32 y -> wrap32 y = y.
Proof. intros H. apply Z.mod_small. exact H. Qed.

(** The writes of a trace that stays on one register. *)
Lemma touches_only_writes a t :
  touches_only (eq a) t -> forall a' v, In (EvWrite a' v) t -> a' = a.
Proof.
  intros Ht a' v Hin. unfold touches_only in Ht. rewrite List.Forall_forall in Ht.
  symmetry. apply (Ht _ Hin).
Qed.

Lemma land_BIT_cases x n :
  0 <= n < 32 -> Z.land x (BIT n) = if Z.testbit x n then BIT n else 0.
Proof.
  intros Hn. unfold BIT, wrap32.
  rewrite Z.shiftl_1_l, Z.mod_small
    by (split; [apply Z.pow_nonneg; lia | apply Z.pow_lt_mono_r; lia]).
  apply Z.bits_inj'. intros k Hk. rewrite Z.land_spec, Z.pow2_bits_eqb by lia.
  destruct (Z.eqb_spec n k) as [<-|Hne].
  - destruct (Z.testbit x n); [rewrite Z.pow2_bits_true by lia | rewrite Z.testbit_0_l];
      reflexivity.
  - rewrite andb_false_r.
    destruct (Z.testbit x n); [rewrite Z.pow2_bits_false by lia | rewrite Z.testbit_0_l];
      reflexivity.
Qed.

Lemma land_BIT_eqb x n :
  0 <= n < 32 -> (Z.land x (BIT n) =? BIT n) = Z.testbit x n.
Proof.
  intros Hn. rewrite land_BIT_cases by assumption.
  destruct (Z.testbit x n); [apply Z.eqb_refl|].
  apply Z.eqb_neq. unfold BIT, wrap32.
  rewrite Z.shiftl_1_l, Z.mod_small
    by (split; [apply Z.pow_nonneg; lia | apply Z.pow_lt_mono_r; lia]).
  pose proof (Z.pow_pos_nonneg 2 n). lia.
Qed.

(** The bits that a word has inside a mask are all set in another word. *)
Lemma masked_subset q x h l :
  0 <= l -> h < 32 ->
  (Z.land q (GENMASK_32 h l) =? Z.land x (Z.land q (GENMASK_32 h l))) = true <->
  forall n, l <= n <= h -> Z.testbit q n = true -> Z.testbit x n = true.
Proof.
  intros Hl Hh. rewrite Z.eqb_eq. split.
  - intros E n Hn Hq.
    assert (Hb : Z.testbit (Z.land q (GENMASK_32 h l)) n = true).
    { rewrite Z.land_spec, GENMASK_32_testbit, Hq by lia.
      replace (l <=? n) with true by (symmetry; apply Z.leb_le; lia).
      replace (n <=? h) with true by (symmetry; apply Z.leb_le; lia). reflexivity. }
    rewrite E, Z.land_spec in Hb. apply andb_true_iff in Hb. tauto.
  - intros H. apply Z.bits_inj'. intros n Hn.
    rewrite !Z.land_spec, GENMASK_32_testbit by lia.
    destruct (Z.testbit q n) eqn:Eq; destruct (Z.leb_spec l n); destruct (Z.leb_spec n h);
      cbn [andb]; rewrite ?andb_false_r, ?andb_true_r; try reflexivity.
    symmetry. apply H; [lia | assumption].
Qed.

Lemma testbit_above x m n : 0 <= x < 2 ^ m -> 0 <= m <= n -> Z.testbit x n = false.
Proof.
  intros Hx Hn. rewrite <- (Z.mod_small x (2 ^ m)) by exact Hx.
  apply Z.mod_pow2_bits_high. exact Hn.
Qed.

Lemma GENMASK_32_value h l :
  0 <= l -> l <= h -> h < 32 -> GENMASK_32 h l = 2 ^ (h + 1) - 2 ^ l.
Proof.
  intros Hl Hlh Hh.
  assert (E : GENMASK_32 h l = Z.shiftl (Z.ones (h - l + 1)) l).
  { apply Z.bits_inj'. intros n Hn.
    rewrite GENMASK_32_testbit, Z.shiftl_spec by lia.
    destruct (Z.leb_spec l n); destruct (Z.leb_spec n h); cbn [andb].
    - rewrite Z.ones_spec_low by lia. reflexivity.
    - rewrite Z.ones_spec_high by lia. reflexivity.
    - rewrite Z.testbit_neg_r by lia. reflexivity.
    - rewrite Z.testbit_neg_r by lia. reflexivity. }
  rewrite E, Z.shiftl_mul_pow2, Z.ones_equiv by lia.
  replace (h + 1) with ((h - l + 1) + l) by lia.
  rewrite (Z.pow_add_r 2 (h - l + 1) l) by lia.
  generalize (2 ^ (h - l + 1)) (2 ^ l). intros A B. unfold Z.pred. ring.
Qed.

(** ** [stm32_rifsc.c]: the capabilities read from the hardware *)

(** X6. On every device [stm32_rifsc_get_driverdata] reads HWCFGR1, then
    HWCFGR2, then the version register as a byte, and writes nothing. The
    RISUP count it stores is the low byte of HWCFGR2 (the 16-bit field is
    cut by the [uint8_t] member) and the RIMU count is bits 23..16, so
    both are at most 255; the three capability flags tell whether the
    nibbles 3..0, 7..4 and 11..8 of HWCFGR1 are non-zero. The version byte
    enters none of them. *)
Theorem rifsc_driverdata_bounds (d : device) (s : hw d) (rifsc_base : Z) :
  let rd1 := hw_read d s (rifsc_base + _RIFSC_HWCFGR1) in
  let rd2 := hw_read d (snd rd1) (rifsc_base + _RIFSC_HWCFGR2) in
  let rd3 := hw_read d (snd rd2) (rifsc_base + _RIFSC_VERR) in
  let v1 := wrap32 (fst rd1) in
  let v2 := wrap32 (fst rd2) in
  exists drv,
    run d (stm32_rifsc_get_driverdata rifsc_base) s
    = (Done drv, snd rd3,
       [EvRead (rifsc_base + _RIFSC_HWCFGR1) v1; EvRead (rifsc_base + _RIFSC_HWCFGR2) v2;
        EvRead8 (rifsc_base + _RIFSC_VERR) (fst rd3 mod 2 ^ 8)]) /\
    nb_risup drv = v2 mod 2 ^ 8 /\
    nb_rimu drv = (v2 / 2 ^ 16) mod 2 ^ 8 /\
    0 <= nb_risup drv <= 255 /\ 0 <= nb_rimu drv <= 255 /\
    rif_en drv = negb (v1 mod 2 ^ 4 =? 0) /\
    sec_en drv = negb ((v1 / 2 ^ 4) mod 2 ^ 4 =? 0) /\
    priv_en drv = negb ((v1 / 2 ^ 8) mod 2 ^ 4 =? 0).
Proof.
  intros rd1 rd2 rd3 v1 v2. unfold stm32_rifsc_get_driverdata, io_read32, io_read8.
  cbn [bind run].
  fold rd1. destruct rd1 as [x1 s1] eqn:E1. cbn [fst snd] in rd2, v1. fold rd2.
  destruct rd2 as [x2 s2] eqn:E2. cbn [fst snd] in rd3, v2. fold rd3.
  destruct rd3 as [x3 s3] eqn:E3. cbn [fst snd].
  eexists. split; [reflexivity|]. cbn [nb_risup nb_rimu rif_en sec_en priv_en].
  assert (Hv1 : in_u32 v1) by apply wrap32_range.
  assert (Hv2 : in_u32 v2) by apply wrap32_range.
  fold v1 v2.
  unfold _RIFSC_HWCFGR2_CFG1_MASK, _RIFSC_HWCFGR2_CFG1_SHIFT, _RIFSC_HWCFGR2_CFG2_MASK,
    _RIFSC_HWCFGR2_CFG2_SHIFT, _RIFSC_HWCFGR1_CFG1_MASK, _RIFSC_HWCFGR1_CFG1_SHIFT,
    _RIFSC_HWCFGR1_CFG2_MASK, _RIFSC_HWCFGR1_CFG2_SHIFT, _RIFSC_HWCFGR1_CFG3_MASK,
    _RIFSC_HWCFGR1_CFG3_SHIFT.
  rewrite !fld_get_spec by (auto; lia).
  change (15 - 0 + 1) with 16. change (23 - 16 + 1) with 8. change (3 - 0 + 1) with 4.
  change (7 - 4 + 1) with 4. change (11 - 8 + 1) with 4.
  rewrite !Z.pow_0_r, !Z.div_1_r.
  assert (Hcut : (v2 mod 2 ^ 16) mod 2 ^ 8 = v2 mod 2 ^ 8).
  { apply Z.mod_mod_divide. exists (2 ^ 8). reflexivity. }
  rewrite Hcut, Z.mod_mod by lia.
  pose proof (Z.mod_pos_bound v2 (2 ^ 8) ltac:(lia)).
  pose proof (Z.mod_pos_bound (v2 / 2 ^ 16) (2 ^ 8) ltac:(lia)).
  unfold nz. repeat split; lia.
Qed.

(** ** [stm32_rifsc.c]: the access callbacks *)

Lemma scid_mask_max : scid_mask_of MAX_CID_SUPPORTED = RIFSC_RISC_CIDCFGR_SCID_MASK.
Proof. reflexivity. Qed.

(** X7. For a query cell that names a RISUP (an index below the RIMU
    offset) and a compartment of at most 7, on every device
    [stm32_rifsc_check_access] reads CIDCFGR, SECCFGR and PRIVCFGR of the
    resource, in that order, and nothing else: no register is written and
    the semaphore register is not looked at. It returns
    [TEE_ERROR_ACCESS_DENIED] exactly when the query is not secure and the
    resource reads secure, or the query is not privileged and the resource
    reads privileged; failing that, [TEE_ERROR_BAD_PARAMETERS] exactly
    when CID filtering is on and the compartment is not white-listed (in
    semaphore mode) or is not the static CID (otherwise); and success in
    every other case. *)
Theorem rifsc_check_access_table (b : rif_bindings) (d : device) (s : hw d)
  (rifsc_base arg0 : Z) :
  let resource_id := Z.land arg0 (RIF_PER_ID_MASK b) in
  let cid := Z.shiftr (Z.land arg0 (RIF_SCID_MASK b)) (RIF_SCID_SHIFT b) in
  let sec_req := nz (Z.land (BIT (RIF_SEC_SHIFT b)) arg0) in
  let priv_req := nz (Z.land (BIT (RIF_PRIV_SHIFT b)) arg0) in
  let cid_a := rifsc_base + _RIFSC_RISC_PER0_CIDCFGR + cid_reg_offset resource_id in
  let rd1 := hw_read d s cid_a in
  let rd2 := hw_read d (snd rd1) (seccfgr_addr rifsc_base resource_id) in
  let rd3 := hw_read d (snd rd2) (privcfgr_addr rifsc_base resource_id) in
  let cidcfgr := wrap32 (fst rd1) in
  let secure := Z.testbit (wrap32 (fst rd2)) (resource_id mod 32) in
  let privileged := Z.testbit (wrap32 (fst rd3)) (resource_id mod 32) in
  let refused := (sec_req = false /\ secure = true) \/
                 (priv_req = false /\ privileged = true) in
  resource_id < RIMU_ID_OFFSET b -> 0 <= cid <= MAX_CID_SUPPORTED ->
  exists code,
    run d (stm32_rifsc_check_access b rifsc_base [arg0]) s
    = (Done code, snd rd3,
       [EvRead cid_a cidcfgr;
        EvRead (seccfgr_addr rifsc_base resource_id) (wrap32 (fst rd2));
        EvRead (privcfgr_addr rifsc_base resource_id) (wrap32 (fst rd3))]) /\
    (code = TEE_ERROR_ACCESS_DENIED <-> refused) /\
    (code = TEE_ERROR_BAD_PARAMETERS <->
       ~ refused /\ cid_filtering_enabled cidcfgr = true /\
       if semaphore_enabled cidcfgr then semaphore_whitelisted cidcfgr cid = false
       else static_cid MAX_CID_SUPPORTED cidcfgr <> cid) /\
    (code <> TEE_ERROR_ACCESS_DENIED -> code <> TEE_ERROR_BAD_PARAMETERS ->
     code = TEE_SUCCESS).
Proof.
  intros resource_id cid sec_req priv_req cid_a rd1 rd2 rd3 cidcfgr secure privileged
    refused Hid Hcid.
  unfold stm32_rifsc_check_access. fold resource_id cid sec_req priv_req.
  replace (RIMU_ID_OFFSET b <=? resource_id) with false by (symmetry; apply Z.leb_gt; lia).
  unfold io_read32. simpl. fold cid_a.
  change (rifsc_base + _RIFSC_RISC_SECCFGR0 + 4 * (resource_id / _PERIPH_IDS_PER_REG))
    with (seccfgr_addr rifsc_base resource_id).
  change (rifsc_base + _RIFSC_RISC_PRIVCFGR0 + 4 * (resource_id / _PERIPH_IDS_PER_REG))
    with (privcfgr_addr rifsc_base resource_id).
  change (resource_id mod _PERIPH_IDS_PER_REG) with (resource_id mod 32).
  subst refused secure privileged cidcfgr.
  destruct rd1 as [x1 s1] eqn:E1. subst rd1. rewrite E1. cbn [fst snd] in *.
  destruct rd2 as [x2 s2] eqn:E2. subst rd2. rewrite E2. cbn [fst snd] in *.
  destruct rd3 as [x3 s3] eqn:E3. subst rd3. rewrite E3. cbn [fst snd] in *.
  assert (Hoff : 0 <= resource_id mod 32 < 32) by (apply Z.mod_pos_bound; lia).
  rewrite !(nz_land_BIT _ (resource_id mod 32)) by assumption.
  unfold SEM_EN_AND_OK, SCID_OK, _CIDCFGR_CFEN, _CIDCFGR_SEMEN, _CIDCFGR_SEMWL,
    _CIDCFGR_SEMWL_SHIFT.
  rewrite (scid_field_eqb (wrap32 x1) RIFSC_RISC_CIDCFGR_SCID_MASK cid)
    by (try reflexivity; unfold MAX_CID_SUPPORTED in Hcid; lia).
  rewrite (nz_land_BIT (wrap32 x1) 0), (nz_land_BIT (wrap32 x1) 1) by lia.
  rewrite (nz_land_BIT (wrap32 x1) (16 + cid)) by (unfold MAX_CID_SUPPORTED in Hcid; lia).
  unfold cid_filtering_enabled, semaphore_enabled, semaphore_whitelisted, static_cid.
  rewrite scid_mask_max.
  destruct sec_req; destruct priv_req;
    destruct (Z.testbit (wrap32 x2) (resource_id mod 32));
    destruct (Z.testbit (wrap32 x3) (resource_id mod 32));
    destruct (Z.testbit (wrap32 x1) 0);
    destruct (Z.testbit (wrap32 x1) 1);
    destruct (Z.testbit (wrap32 x1) (16 + cid));
    destruct (Z.eqb_spec (Z.shiftr (Z.land (wrap32 x1) RIFSC_RISC_CIDCFGR_SCID_MASK) 4) cid);
    cbn [negb andb orb]; eexists; (split; [reflexivity|]);
    repeat split; intros; try discriminate; try congruence; try tauto;
    try (intuition congruence).
Qed.

Lemma rifsc_check_access_table_witness :
  let b := sample_bindings in
  let d := regfile in
  let s := sample_regs in
  let rifsc_base := 0x42080000 in
  let arg0 := 0x1803 in
  let resource_id := Z.land arg0 (RIF_PER_ID_MASK b) in
  let cid := Z.shiftr (Z.land arg0 (RIF_SCID_MASK b)) (RIF_SCID_SHIFT b) in
  let sec_req := nz (Z.land (BIT (RIF_SEC_SHIFT b)) arg0) in
  let priv_req := nz (Z.land (BIT (RIF_PRIV_SHIFT b)) arg0) in
  let cid_a := rifsc_base + _RIFSC_RISC_PER0_CIDCFGR + cid_reg_offset resource_id in
  let rd1 := hw_read d s cid_a in
  let rd2 := hw_read d (snd rd1) (seccfgr_addr rifsc_base resource_id) in
  let rd3 := hw_read d (snd rd2) (privcfgr_addr rifsc_base resource_id) in
  let cidcfgr := wrap32 (fst rd1) in
  let secure := Z.testbit (wrap32 (fst rd2)) (resource_id mod 32) in
  let privileged := Z.testbit (wrap32 (fst rd3)) (resource_id mod 32) in
  let refused := (sec_req = false /\ secure = true) \/
                 (priv_req = false /\ privileged = true) in
  exists code,
    run d (stm32_rifsc_check_access b rifsc_base [arg0]) s
    = (Done code, snd rd3,
       [EvRead cid_a cidcfgr;
        EvRead (seccfgr_addr rifsc_base resource_id) (wrap32 (fst rd2));
        EvRead (privcfgr_addr rifsc_base resource_id) (wrap32 (fst rd3))]) /\
    (code = TEE_ERROR_ACCESS_DENIED <-> refused) /\
    (code = TEE_ERROR_BAD_PARAMETERS <->
       ~ refused /\ cid_filtering_enabled cidcfgr = true /\
       if semaphore_enabled cidcfgr then semaphore_whitelisted cidcfgr cid = false
       else static_cid MAX_CID_SUPPORTED cidcfgr <> cid) /\
    (code <> TEE_ERROR_ACCESS_DENIED -> code <> TEE_ERROR_BAD_PARAMETERS ->
     code = TEE_SUCCESS).
Proof.
  apply (rifsc_check_access_table sample_bindings regfile sample_regs 0x42080000 0x1803).
  - vm_compute. reflexivity.
  - vm_compute. intuition discriminate.
Defined.

(** X8. For a query whose first cell names a RISUP, on every device
    [stm32_rifsc_acquire_access] reads CIDCFGR and SECCFGR of the resource
    and never writes anything but the semaphore register of that resource.
    A resource that reads non-secure is refused with
    [TEE_ERROR_ACCESS_DENIED]; with CID filtering off the request is
    granted; in semaphore mode the semaphore is taken when compartment 1 is
    white-listed (success then means the register read back held by
    compartment 1) and the request is [TEE_ERROR_BAD_PARAMETERS] when it is
    not; in static mode the request is granted exactly when the static CID
    is compartment 1. Only the semaphore case touches a third register. *)
Theorem rifsc_acquire_access_rule (b : rif_bindings) (d : device) (s : hw d)
  (rifsc_base arg0 : Z) (rest : list Z) :
  let resource_id := Z.land arg0 (RIF_PER_ID_MASK b) in
  let cid_a := rifsc_base + _RIFSC_RISC_PER0_CIDCFGR + cid_reg_offset resource_id in
  let semcr := rifsc_base + _RIFSC_RISC_PER0_SEMCR + cid_reg_offset resource_id in
  let rd1 := hw_read d s cid_a in
  let rd2 := hw_read d (snd rd1) (seccfgr_addr rifsc_base resource_id) in
  let cidcfgr := wrap32 (fst rd1) in
  let seccfgr := wrap32 (fst rd2) in
  resource_id < RIMU_ID_OFFSET b ->
  let '(res, _, t) := run d (stm32_rifsc_acquire_access b rifsc_base (arg0 :: rest)) s in
  exists code tsem,
    res = Done code /\
    t = EvRead cid_a cidcfgr :: EvRead (seccfgr_addr rifsc_base resource_id) seccfgr :: tsem /\
    (forall a v, In (EvWrite a v) t -> a = semcr) /\
    if negb (Z.testbit seccfgr (resource_id mod 32))
    then code = TEE_ERROR_ACCESS_DENIED /\ tsem = []
    else if negb (cid_filtering_enabled cidcfgr) then code = TEE_SUCCESS /\ tsem = []
    else if semaphore_enabled cidcfgr then
      if semaphore_whitelisted cidcfgr RIF_CID1
      then acquire_run semcr MAX_CID_SUPPORTED tsem code /\
           (code = TEE_SUCCESS -> held_by_cid1 semcr tsem)
      else code = TEE_ERROR_BAD_PARAMETERS /\ tsem = []
    else tsem = [] /\
         (code = TEE_SUCCESS <-> static_cid MAX_CID_SUPPORTED cidcfgr = RIF_CID1) /\
         (code <> TEE_SUCCESS -> code = TEE_ERROR_ACCESS_DENIED).
Proof.
  intros resource_id cid_a semcr rd1 rd2 cidcfgr seccfgr Hid.
  unfold stm32_rifsc_acquire_access. fold resource_id.
  replace (RIMU_ID_OFFSET b <=? resource_id) with false by (symmetry; apply Z.leb_gt; lia).
  rewrite run_bind. unfold io_read32 at 1. simpl run at 1. fold cid_a.
  subst cidcfgr seccfgr.
  destruct rd1 as [x1 s1] eqn:E1. subst rd1. rewrite E1. cbn [fst snd] in *.
  cbv beta iota. rewrite run_bind. unfold io_read32 at 1. simpl run at 1.
  change (rifsc_base + _RIFSC_RISC_SECCFGR0 + 4 * (resource_id / _PERIPH_IDS_PER_REG))
    with (seccfgr_addr rifsc_base resource_id).
  change (resource_id mod _PERIPH_IDS_PER_REG) with (resource_id mod 32).
  destruct rd2 as [x2 s2] eqn:E2. subst rd2. rewrite E2. cbn [fst snd] in *.
  cbv beta iota.
  assert (Hoff : 0 <= resource_id mod 32 < 32) by (apply Z.mod_pos_bound; lia).
  rewrite (nz_land_BIT _ (resource_id mod 32)) by assumption.
  unfold SEM_EN_AND_OK, SCID_OK, _CIDCFGR_CFEN, _CIDCFGR_SEMEN, _CIDCFGR_SEMWL,
    _CIDCFGR_SEMWL_SHIFT.
  rewrite (scid_field_eqb (wrap32 x1) RIFSC_RISC_CIDCFGR_SCID_MASK RIF_CID1)
    by (try reflexivity; unfold RIF_CID1; lia).
  rewrite (nz_land_BIT (wrap32 x1) 0), (nz_land_BIT (wrap32 x1) 1) by lia.
  rewrite (nz_land_BIT (wrap32 x1) (16 + RIF_CID1)) by (unfold RIF_CID1; lia).
  unfold cid_filtering_enabled, semaphore_enabled, semaphore_whitelisted, static_cid.
  rewrite scid_mask_max. fold semcr.
  destruct (Z.testbit (wrap32 x2) (resource_id mod 32)); cbn [negb].
  2:{ simpl. exists TEE_ERROR_ACCESS_DENIED, []. repeat split; auto.
      intros a v [H|[H|[]]]; discriminate. }
  destruct (Z.testbit (wrap32 x1) 0); cbn [negb andb].
  2:{ simpl. exists TEE_SUCCESS, []. repeat split; auto.
      intros a v [H|[H|[]]]; discriminate. }
  destruct (Z.testbit (wrap32 x1) 1); cbn [negb andb].
  - destruct (Z.testbit (wrap32 x1) (16 + RIF_CID1)); cbn [negb].
    + pose proof (acquire_semaphore_run d s2 semcr MAX_CID_SUPPORTED) as Hrun.
      destruct (run d (stm32_rif_acquire_semaphore semcr MAX_CID_SUPPORTED) s2)
        as [[res s3] tsem].
      destruct Hrun as (code & -> & Hr). cbn [app].
      exists code, tsem. split; [reflexivity|]. split; [reflexivity|].
      split.
      * intros a v [H|[H|H]]; try discriminate.
        apply (touches_only_writes semcr tsem (proj2 (acquire_run_codes _ _ _ _ Hr)) a v H).
      * split; [assumption|]. intros ->. apply acquire_run_success. assumption.
    + simpl. exists TEE_ERROR_BAD_PARAMETERS, []. repeat split; auto.
      intros a v [H|[H|[]]]; discriminate.
  - rewrite andb_true_r.
    destruct (Z.eqb_spec (Z.shiftr (Z.land (wrap32 x1) RIFSC_RISC_CIDCFGR_SCID_MASK) 4)
                RIF_CID1) as [E|E]; cbn [negb]; simpl.
    + exists TEE_SUCCESS, []. repeat split; auto; try contradiction.
      intros a v [H|[H|[]]]; discriminate.
    + exists TEE_ERROR_ACCESS_DENIED, []. repeat split; auto; try discriminate;
        try contradiction.
      intros a v [H|[H|[]]]; discriminate.
Qed.

Lemma rifsc_acquire_access_rule_witness :
  let b := sample_bindings in
  let d := regfile in
  let s : hw regfile :=
    fun a => if a =? 0x42080010 then 0x8
             else if a =? 0x42080118 then 0x20003
             else if a =? 0x4208011C then 0x10 else 0 in
  let rifsc_base := 0x42080000 in
  let arg0 := 0x803 in
  let resource_id := Z.land arg0 (RIF_PER_ID_MASK b) in
  let cid_a := rifsc_base + _RIFSC_RISC_PER0_CIDCFGR + cid_reg_offset resource_id in
  let semcr := rifsc_base + _RIFSC_RISC_PER0_SEMCR + cid_reg_offset resource_id in
  let rd1 := hw_read d s cid_a in
  let rd2 := hw_read d (snd rd1) (seccfgr_addr rifsc_base resource_id) in
  let cidcfgr := wrap32 (fst rd1) in
  let seccfgr := wrap32 (fst rd2) in
  let '(res, _, t) := run d (stm32_rifsc_acquire_access b rifsc_base [arg0]) s in
  exists code tsem,
    res = Done code /\
    t = EvRead cid_a cidcfgr :: EvRead (seccfgr_addr rifsc_base resource_id) seccfgr :: tsem /\
    (forall a v, In (EvWrite a v) t -> a = semcr) /\
    if negb (Z.testbit seccfgr (resource_id mod 32))
    then code = TEE_ERROR_ACCESS_DENIED /\ tsem = []
    else if negb (cid_filtering_enabled cidcfgr) then code = TEE_SUCCESS /\ tsem = []
    else if semaphore_enabled cidcfgr then
      if semaphore_whitelisted cidcfgr RIF_CID1
      then acquire_run semcr MAX_CID_SUPPORTED tsem code /\
           (code = TEE_SUCCESS -> held_by_cid1 semcr tsem)
      else code = TEE_ERROR_BAD_PARAMETERS /\ tsem = []
    else tsem = [] /\
         (code = TEE_SUCCESS <-> static_cid MAX_CID_SUPPORTED cidcfgr = RIF_CID1) /\
         (code <> TEE_SUCCESS -> code = TEE_ERROR_ACCESS_DENIED).
Proof.
  apply (rifsc_acquire_access_rule sample_bindings regfile
           (fun a => if a =? 0x42080010 then 0x8
                     else if a =? 0x42080118 then 0x20003
                     else if a =? 0x4208011C then 0x10 else 0)
           0x42080000 0x803 []).
  vm_compute. reflexivity.
Defined.

(** X9. [stm32_rifsc_release_access] takes the whole first cell as the
    resource index. For an index below the RIMU offset, on every device it
    reads CIDCFGR of that index and never writes anything but its semaphore
    register. When filtering and semaphore mode are on and compartment 1
    is white-listed it runs the release handshake and panics exactly when
    the handshake reports [TEE_ERROR_ACCESS_DENIED] (the semaphore still
    reads held by compartment 1); otherwise it returns at once. *)
Theorem rifsc_release_access_rule (b : rif_bindings) (d : device) (s : hw d)
  (rifsc_base id_ : Z) (rest : list Z) :
  let cid_a := rifsc_base + _RIFSC_RISC_PER0_CIDCFGR + cid_reg_offset id_ in
  let semcr := rifsc_base + _RIFSC_RISC_PER0_SEMCR + cid_reg_offset id_ in
  let cidcfgr := wrap32 (fst (hw_read d s cid_a)) in
  id_ < RIMU_ID_OFFSET b ->
  let '(res, _, t) := run d (stm32_rifsc_release_access b rifsc_base (id_ :: rest)) s in
  exists tsem,
    t = EvRead cid_a cidcfgr :: tsem /\
    (forall a v, In (EvWrite a v) t -> a = semcr) /\
    if cid_filtering_enabled cidcfgr && semaphore_enabled cidcfgr
       && semaphore_whitelisted cidcfgr RIF_CID1
    then exists code,
           release_run semcr MAX_CID_SUPPORTED tsem code /\
           (code = TEE_SUCCESS -> res = Done tt) /\
           (code = TEE_ERROR_ACCESS_DENIED -> res = Panicked)
    else res = Done tt /\ tsem = [].
Proof.
  intros cid_a semcr cidcfgr Hid.
  unfold stm32_rifsc_release_access.
  replace (RIMU_ID_OFFSET b <=? id_) with false by (symmetry; apply Z.leb_gt; lia).
  rewrite run_bind. unfold io_read32 at 1. simpl run at 1. fold cid_a semcr.
  subst cidcfgr. destruct (hw_read d s cid_a) as [x1 s1]. cbn [fst snd].
  cbv beta iota.
  unfold SEM_EN_AND_OK, _CIDCFGR_CFEN, _CIDCFGR_SEMEN, _CIDCFGR_SEMWL, _CIDCFGR_SEMWL_SHIFT.
  rewrite (nz_land_BIT (wrap32 x1) 0), (nz_land_BIT (wrap32 x1) 1) by lia.
  rewrite (nz_land_BIT (wrap32 x1) (16 + RIF_CID1)) by (unfold RIF_CID1; lia).
  unfold cid_filtering_enabled, semaphore_enabled, semaphore_whitelisted.
  destruct (Z.testbit (wrap32 x1) 0 && Z.testbit (wrap32 x1) 1
            && Z.testbit (wrap32 x1) (16 + RIF_CID1)).
  - rewrite run_bind.
    pose proof (release_semaphore_run d s1 semcr MAX_CID_SUPPORTED) as Hrun.
    destruct (run d (stm32_rif_release_semaphore semcr MAX_CID_SUPPORTED) s1)
      as [[res s2] tsem].
    destruct Hrun as (code & -> & Hr).
    destruct (release_run_codes _ _ _ _ Hr) as [[-> | ->] Ht]; simpl;
      rewrite app_nil_r; exists tsem; (split; [reflexivity|]);
      (split; [intros a v [H|H]; [discriminate|];
               apply (touches_only_writes semcr tsem Ht a v H)|]);
      eexists; (split; [eassumption|]); split; intros; congruence.
  - simpl. exists []. split; [reflexivity|]. split; [|auto].
    intros a v [H|[]]. discriminate.
Qed.

Lemma rifsc_release_access_rule_witness :
  let b := sample_bindings in
  let d := regfile in
  let s : hw regfile :=
    fun a => if a =? 0x42080118 then 0x20003
             else if a =? 0x4208011C then 0x11 else 0 in
  let rifsc_base := 0x42080000 in
  let id_ := 3 in
  let cid_a := rifsc_base + _RIFSC_RISC_PER0_CIDCFGR + cid_reg_offset id_ in
  let semcr := rifsc_base + _RIFSC_RISC_PER0_SEMCR + cid_reg_offset id_ in
  let cidcfgr := wrap32 (fst (hw_read d s cid_a)) in
  let '(res, _, t) := run d (stm32_rifsc_release_access b rifsc_base [id_]) s in
  exists tsem,
    t = EvRead cid_a cidcfgr :: tsem /\
    (forall a v, In (EvWrite a v) t -> a = semcr) /\
    if cid_filtering_enabled cidcfgr && semaphore_enabled cidcfgr
       && semaphore_whitelisted cidcfgr RIF_CID1
    then exists code,
           release_run semcr MAX_CID_SUPPORTED tsem code /\
           (code = TEE_SUCCESS -> res = Done tt) /\
           (code = TEE_ERROR_ACCESS_DENIED -> res = Panicked)
    else res = Done tt /\ tsem = [].
Proof.
  apply (rifsc_release_access_rule sample_bindings regfile
           (fun a => if a =? 0x42080118 then 0x20003
                     else if a =? 0x4208011C then 0x11 else 0)
           0x42080000 3 []).
  vm_compute. reflexivity.
Defined.

(** X10. A cell that names a bus master (an index at or above the RIMU
    offset) is none of the three callbacks' business: check and acquire
    return success and release returns, all without touching a register. *)
Theorem rifsc_rimu_queries_pass (b : rif_bindings) (d : device) (s : hw d)
  (rifsc_base arg0 : Z) (rest : list Z) :
  RIMU_ID_OFFSET b <= Z.land arg0 (RIF_PER_ID_MASK b) ->
  RIMU_ID_OFFSET b <= arg0 ->
  run d (stm32_rifsc_check_access b rifsc_base [arg0]) s = (Done TEE_SUCCESS, s, []) /\
  run d (stm32_rifsc_acquire_access b rifsc_base (arg0 :: rest)) s
  = (Done TEE_SUCCESS, s, []) /\
  run d (stm32_rifsc_release_access b rifsc_base (arg0 :: rest)) s = (Done tt, s, []).
Proof.
  intros Hm Hr.
  unfold stm32_rifsc_check_access, stm32_rifsc_acquire_access, stm32_rifsc_release_access.
  replace (RIMU_ID_OFFSET b <=? Z.land arg0 (RIF_PER_ID_MASK b)) with true
    by (symmetry; apply Z.leb_le; lia).
  replace (RIMU_ID_OFFSET b <=? arg0) with true by (symmetry; apply Z.leb_le; lia).
  auto.
Qed.

Lemma rifsc_rimu_queries_pass_witness :
  run regfile (stm32_rifsc_check_access sample_bindings 0x42080000 [0xF3]) sample_regs
  = (Done TEE_SUCCESS, sample_regs, []) /\
  run regfile (stm32_rifsc_acquire_access sample_bindings 0x42080000 [0xF3]) sample_regs
  = (Done TEE_SUCCESS, sample_regs, []) /\
  run regfile (stm32_rifsc_release_access sample_bindings 0x42080000 [0xF3]) sample_regs
  = (Done tt, sample_regs, []).
Proof.
  apply (rifsc_rimu_queries_pass sample_bindings regfile sample_regs 0x42080000 0xF3 []).
  - vm_compute. discriminate.
  - vm_compute. discriminate.
Defined.

(** ** [stm32_rifsc.c]: the set-up loop *)

Lemma run_semaphore_step_codes d (s : hw d) b r :
  let '(res, _, t) := run d (risup_semaphore_step b r) s in
  exists code, res = Done code /\
    (code = TEE_SUCCESS \/ code = TEE_ERROR_ACCESS_DENIED).
Proof.
  unfold risup_semaphore_step.
  destruct (SEM_MODE_INCORRECT (cid_attr r)).
  - pose proof (run_settle_release d s (semcr_addr b (id r)) MAX_CID_SUPPORTED) as H.
    destruct (run d _ s) as [[res s1] t]. destruct H as (code & -> & Hr).
    exists code. split; [reflexivity|]. apply (release_run_codes _ _ _ _ Hr).
  - simpl. destruct (hw_read d s _) as [x s1].
    destruct (Z.testbit (wrap32 x) (risup_shift (id r))).
    + pose proof (run_settle_acquire d s1 (semcr_addr b (id r)) MAX_CID_SUPPORTED) as H.
      destruct (run d _ s1) as [[res s2] t]. destruct H as (code & -> & Hr).
      exists code. split; [reflexivity|]. apply (acquire_run_codes _ _ _ _ Hr).
    + pose proof (run_settle_release d s1 (semcr_addr b (id r)) MAX_CID_SUPPORTED) as H.
      destruct (run d _ s1) as [[res s2] t]. destruct H as (code & -> & Hr).
      exists code. split; [reflexivity|]. apply (release_run_codes _ _ _ _ Hr).
Qed.

(** One entry configured by a compartment that is not the TDCID: the code
    returned and the registers left alone. *)
Lemma risup_cfg_run_frame d (s : hw d) pdata r :
  is_tdcid pdata = false -> 0 <= id r -> nb_risup (drv_data pdata) <= 255 ->
  let '(res, _, t) := run d (stm32_risup_cfg pdata r) s in
  (exists code, res = Done code /\
     (code = TEE_ERROR_BAD_PARAMETERS <-> nb_risup (drv_data pdata) <= id r) /\
     (code = TEE_SUCCESS \/ code = TEE_ERROR_ACCESS_DENIED \/
      code = TEE_ERROR_BAD_PARAMETERS)) /\
  (forall a v, In (EvWrite a v) t ->
     ~ is_cidcfgr_addr (base pdata) a /\ ~ is_rcfglockr_addr (base pdata) a).
Proof.
  intros Htd Hid Hnb.
  rewrite (stm32_risup_cfg_steps pdata r d s), Htd. unfold risup_cfg_steps.
  destruct (Z.leb_spec (nb_risup (drv_data pdata)) (id r)) as [Hle|Hlt].
  { simpl. split; [|intros a v []].
    exists TEE_ERROR_BAD_PARAMETERS. split; [reflexivity|]. split; [tauto|auto]. }
  rewrite run_bind.
  destruct (plain_sec_priv_writes d (base pdata) (drv_data pdata) r s)
    as (s1 & t1 & -> & Ht1).
  simpl when. rewrite run_bind. simpl (run d (Ret tt) s1). cbv beta iota.
  pose proof (run_semaphore_step_touches d s1 (base pdata) r) as Hsem.
  pose proof (run_semaphore_step_codes d s1 (base pdata) r) as Hcode.
  destruct (run d (risup_semaphore_step (base pdata) r) s1) as [[res s2] t2].
  destruct Hsem as (_ & _ & Hw). destruct Hcode as (code & -> & Hc). cbv beta iota.
  split.
  - exists code. split; [reflexivity|]. split; [|tauto].
    split; [intros ->; destruct Hc; discriminate | lia].
  - intros a v Hin. apply (risup_registers_apart (base pdata) (id r)); [lia|].
    rewrite !in_app_iff in Hin. destruct Hin as [Hin | [[] | Hin]].
    + unfold touches_only in Ht1. rewrite List.Forall_forall in Ht1.
      destruct (Ht1 _ Hin) as [E|E]; simpl in E; auto.
    + right. right. eauto.
Qed.

Lemma risup_setup_loop_frame d pdata rs :
  is_tdcid pdata = false -> Forall (fun r => 0 <= id r) rs ->
  nb_risup (drv_data pdata) <= 255 ->
  forall s : hw d,
  let '(res, _, t) := run d (risup_setup_loop pdata rs) s in
  (exists code, res = Done code /\
     (code = TEE_SUCCESS \/ code = TEE_ERROR_ACCESS_DENIED \/
      code = TEE_ERROR_BAD_PARAMETERS) /\
     (code = TEE_SUCCESS -> Forall (fun r => id r < nb_risup (drv_data pdata)) rs) /\
     (code = TEE_ERROR_BAD_PARAMETERS ->
      Exists (fun r => nb_risup (drv_data pdata) <= id r) rs)) /\
  (forall a v, In (EvWrite a v) t ->
     ~ is_cidcfgr_addr (base pdata) a /\ ~ is_rcfglockr_addr (base pdata) a).
Proof.
  intros Htd Hids Hnb. induction Hids as [|r rs Hr Hrs IH]; intros s.
  - simpl. split; [|intros a v []].
    exists TEE_SUCCESS. repeat split; auto; discriminate.
  - cbn [risup_setup_loop]. rewrite run_bind.
    pose proof (risup_cfg_run_frame d s pdata r Htd Hr Hnb) as H1.
    destruct (run d (stm32_risup_cfg pdata r) s) as [[res s1] t1].
    destruct H1 as ((code & -> & Hbad & Hc) & Hw1).
    destruct (is_error code) eqn:Eerr.
    + simpl. rewrite app_nil_r. split; [|assumption].
      exists code. split; [reflexivity|]. split; [assumption|]. split.
      * intros ->. discriminate.
      * intros Hb. apply Exists_cons_hd. apply Hbad. assumption.
    + specialize (IH s1).
      destruct (run d (risup_setup_loop pdata rs) s1) as [[res2 s2] t2].
      destruct IH as ((code2 & -> & Hc2 & Hok & Hex) & Hw2).
      assert (code = TEE_SUCCESS) as -> by (destruct Hc as [-> | [-> | ->]]; [reflexivity | discriminate | discriminate]).
      split.
      * exists code2. split; [reflexivity|]. split; [assumption|]. split.
        -- intros E. constructor; [|auto].
           destruct (Z_lt_le_dec (id r) (nb_risup (drv_data pdata))); [assumption|].
           assert (TEE_SUCCESS = TEE_ERROR_BAD_PARAMETERS) by (apply Hbad; lia). discriminate.
        -- intros E. apply Exists_cons_tl. auto.
      * intros a v Hin. apply in_app_iff in Hin as [Hin|Hin]; eauto.
Qed.

(** X11. When the set-up loop [stm32_risup_setup] is run by a compartment
    that is not the TDCID, on every device it returns success,
    [TEE_ERROR_ACCESS_DENIED] or [TEE_ERROR_BAD_PARAMETERS] and never
    writes a CID-filtering register or a configuration-lock register.
    Success means every entry it went through has an index below the
    hardware's RISUP count, and [TEE_ERROR_BAD_PARAMETERS] means one of
    them does not. *)
Theorem risup_setup_non_tdcid_frame (d : device) (s : hw d) (pdata : rifsc_platdata) :
  is_tdcid pdata = false ->
  Forall (fun r => 0 <= id r) (risup pdata) ->
  nb_risup (drv_data pdata) <= 255 ->
  let done :=
    take (Z.to_nat (Z.min (nrisup pdata) (nb_risup (drv_data pdata)))) (risup pdata) in
  let '(res, _, t) := run d (stm32_risup_setup pdata) s in
  (exists code, res = Done code /\
     (code = TEE_SUCCESS \/ code = TEE_ERROR_ACCESS_DENIED \/
      code = TEE_ERROR_BAD_PARAMETERS) /\
     (code = TEE_SUCCESS -> Forall (fun r => id r < nb_risup (drv_data pdata)) done) /\
     (code = TEE_ERROR_BAD_PARAMETERS ->
      Exists (fun r => nb_risup (drv_data pdata) <= id r) done)) /\
  (forall a v, In (EvWrite a v) t ->
     ~ is_cidcfgr_addr (base pdata) a /\ ~ is_rcfglockr_addr (base pdata) a).
Proof.
  intros Htd Hids Hnb done. unfold stm32_risup_setup. fold done.
  apply (risup_setup_loop_frame d pdata done Htd); [|assumption].
  subst done. apply Forall_take. assumption.
Qed.

Lemma risup_setup_non_tdcid_frame_witness :
  let pdata := sample_pdata in
  let done :=
    take (Z.to_nat (Z.min (nrisup pdata) (nb_risup (drv_data pdata)))) (risup pdata) in
  let '(res, _, t) := run regfile (stm32_risup_setup pdata) sample_regs in
  (exists code, res = Done code /\
     (code = TEE_SUCCESS \/ code = TEE_ERROR_ACCESS_DENIED \/
      code = TEE_ERROR_BAD_PARAMETERS) /\
     (code = TEE_SUCCESS -> Forall (fun r => id r < nb_risup (drv_data pdata)) done) /\
     (code = TEE_ERROR_BAD_PARAMETERS ->
      Exists (fun r => nb_risup (drv_data pdata) <= id r) done)) /\
  (forall a v, In (EvWrite a v) t ->
     ~ is_cidcfgr_addr (base pdata) a /\ ~ is_rcfglockr_addr (base pdata) a).
Proof.
  apply (risup_setup_non_tdcid_frame regfile sample_regs sample_pdata).
  - reflexivity.
  - repeat constructor. simpl. lia.
  - simpl. lia.
Defined.

(** ** [stm32_rifsc.c]: reconfiguring one RISUP *)


(** X12. [stm32_rifsc_reconfigure_risup] turns a request down without
    writing anything and without changing the table: an index above the
    RISUP count or a compartment above 7 is [TEE_ERROR_BAD_PARAMETERS]
    before any register access, and a resource whose bit reads set in
    RCFGLOCKR is [TEE_ERROR_ACCESS_DENIED] after that single read. *)
Theorem rifsc_reconfigure_risup_rejects (pdata : rifsc_platdata) (d : device) (s : hw d)
  (risup_id cid : Z) (sec priv cfen : bool) :
  let rd := hw_read d s (rcfglockr_addr (base pdata) risup_id) in
  nb_risup (drv_data pdata) < risup_id \/ MAX_CID_SUPPORTED < cid \/
  Z.testbit (wrap32 (fst rd)) (risup_id mod 32) = true ->
  let '(res, s', t) :=
    run d (stm32_rifsc_reconfigure_risup pdata risup_id cid sec priv cfen) s in
  exists code,
    res = Done (code, pdata) /\ writes_of t = [] /\
    (code = TEE_ERROR_BAD_PARAMETERS <->
       nb_risup (drv_data pdata) < risup_id \/ MAX_CID_SUPPORTED < cid) /\
    (code = TEE_ERROR_BAD_PARAMETERS -> t = [] /\ s' = s) /\
    (code <> TEE_ERROR_BAD_PARAMETERS ->
       code = TEE_ERROR_ACCESS_DENIED /\ s' = snd rd /\
       t = [EvRead (rcfglockr_addr (base pdata) risup_id) (wrap32 (fst rd))]).
Proof.
  intros rd Hrej.
  destruct (Z.ltb_spec (nb_risup (drv_data pdata)) risup_id) as [Hid|Hid].
  { unfold stm32_rifsc_reconfigure_risup.
    rewrite (proj2 (Z.ltb_lt _ _) Hid). simpl.
    exists TEE_ERROR_BAD_PARAMETERS. repeat split; auto; try tauto; try contradiction. }
  destruct (Z.ltb_spec MAX_CID_SUPPORTED cid) as [Hcid|Hcid].
  { unfold stm32_rifsc_reconfigure_risup.
    rewrite (proj2 (Z.ltb_lt _ _) Hcid), orb_true_r. simpl.
    exists TEE_ERROR_BAD_PARAMETERS. repeat split; auto; try tauto; try contradiction. }
  destruct Hrej as [H|[H|Hlock]]; [lia|lia|].
  rewrite (rifsc_reconfigure_risup_locked pdata d s risup_id cid sec priv cfen Hid Hcid Hlock).
  fold rd. exists TEE_ERROR_ACCESS_DENIED.
  split; [reflexivity|]. split; [reflexivity|].
  split; [split; [discriminate | lia]|]. split; [discriminate|]. auto.
Qed.

Lemma rifsc_reconfigure_risup_rejects_witness :
  let rd := hw_read regfile locked_regs (rcfglockr_addr (base sample_pdata) 3) in
  let '(res, s', t) :=
    run regfile (stm32_rifsc_reconfigure_risup sample_pdata 3 0 true false false)
      locked_regs in
  exists code,
    res = Done (code, sample_pdata) /\ writes_of t = [] /\
    (code = TEE_ERROR_BAD_PARAMETERS <->
       nb_risup (drv_data sample_pdata) < 3 \/ MAX_CID_SUPPORTED < 0) /\
    (code = TEE_ERROR_BAD_PARAMETERS -> t = [] /\ s' = locked_regs) /\
    (code <> TEE_ERROR_BAD_PARAMETERS ->
       code = TEE_ERROR_ACCESS_DENIED /\ s' = snd rd /\
       t = [EvRead (rcfglockr_addr (base sample_pdata) 3) (wrap32 (fst rd))]).
Proof.
  apply (rifsc_reconfigure_risup_rejects sample_pdata regfile locked_regs 3 0
           true false false).
  right. right. vm_compute. reflexivity.
Defined.



(** ** [stm32_rifsc.c]: switching CID filtering on and off *)

(** X14. On a register file, [stm32_rifsc_cid_enable] followed by
    [stm32_rifsc_cid_disable] is a round trip on the CID-filtering
    register: after the first [stm32_rifsc_cid_is_enabled] answers true,
    after the second it answers false, no other register changes, and the
    register ends as the 32-bit word it held with bit 0 cleared. *)
Theorem rifsc_cid_enable_disable_round_trip (m : hw regfile) (rifsc_base rifc_id : Z) :
  let a := rifsc_base + _RIFSC_RISC_PER0_CIDCFGR + cid_reg_offset rifc_id in
  let m1 := snd (fst (run regfile (stm32_rifsc_cid_enable rifsc_base rifc_id) m)) in
  let m2 := snd (fst (run regfile (stm32_rifsc_cid_disable rifsc_base rifc_id) m1)) in
  fst (fst (run regfile (stm32_rifsc_cid_is_enabled rifsc_base rifc_id) m1)) = Done true /\
  fst (fst (run regfile (stm32_rifsc_cid_is_enabled rifsc_base rifc_id) m2)) = Done false /\
  m1 a = Z.setbit (wrap32 (m a)) 0 /\
  m2 a = Z.clearbit (wrap32 (m a)) 0 /\
  (forall a', a' <> a -> m1 a' = m a' /\ m2 a' = m a').
Proof.
  intros a m1 m2.
  unfold stm32_rifsc_cid_enable, stm32_rifsc_cid_disable, stm32_rifsc_cid_is_enabled,
    io_setbits32_stm32shregs, io_clrbits32_stm32shregs, io_setbits32, io_clrbits32,
    io_read32, io_write32 in *.
  cbn [run bind regfile hw hw_read hw_write fst snd] in *. fold a in m1, m2 |- *.
  assert (E1 : m1 a = Z.setbit (wrap32 (m a)) 0).
  { subst m1. cbv beta. rewrite Z.eqb_refl. apply set_mutex_word. }
  assert (Hr1 : in_u32 (m1 a)).
  { rewrite E1. pose proof (wrap32_range (m a)) as Hu. apply u32_of_bits.
    - rewrite Z.setbit_spec'. apply Z.lor_nonneg. unfold in_u32 in Hu. lia.
    - intros n Hn. rewrite Z.setbit_eqb by lia.
      rewrite (testbit_out_of_word _ n Hu Hn).
      destruct (Z.eqb_spec 0 n); [lia | reflexivity]. }
  assert (W1 : wrap32 (m1 a) = m1 a) by (apply Z.mod_small; exact Hr1).
  assert (E2 : m2 a = Z.clearbit (wrap32 (m a)) 0).
  { subst m2. cbv beta. rewrite Z.eqb_refl, W1.
    change _CIDCFGR_CFEN with _SEMCR_MUTEX. rewrite clear_mutex_word by exact Hr1.
    rewrite E1. apply Z.bits_inj'. intros n Hn.
    rewrite !Z.clearbit_eqb, Z.setbit_eqb by lia.
    destruct (Z.eqb_spec 0 n); cbn [negb orb]; rewrite ?andb_false_r, ?andb_true_r;
      reflexivity. }
  assert (Hr2 : in_u32 (m2 a)).
  { rewrite E2. pose proof (wrap32_range (m a)) as Hu. apply u32_of_bits.
    - rewrite Z.clearbit_spec'. apply Z.ldiff_nonneg. unfold in_u32 in Hu. lia.
    - intros n Hn. rewrite Z.clearbit_eqb by lia.
      rewrite (testbit_out_of_word _ n Hu Hn). reflexivity. }
  assert (W2 : wrap32 (m2 a) = m2 a) by (apply Z.mod_small; exact Hr2).
  split; [|split; [|split; [exact E1 | split; [exact E2|]]]].
  - rewrite W1, E1. f_equal. apply Z.eqb_eq. change _CIDCFGR_CFEN with 1.
    apply Z.bits_inj'. intros n Hn. rewrite Z.land_spec, Z.setbit_eqb by lia.
    destruct (Z.eqb_spec 0 n) as [<-|Hne]; [reflexivity|].
    rewrite (Z.bits_above_log2 1 n) by (simpl; lia). apply andb_false_r.
  - rewrite W2, E2. f_equal. apply Z.eqb_neq. change _CIDCFGR_CFEN with 1.
    intros H. assert (Hb : Z.testbit (Z.land (Z.clearbit (wrap32 (m a)) 0) 1) 0 = true)
      by (rewrite H; reflexivity).
    rewrite Z.land_spec, Z.clearbit_eqb, Z.eqb_refl in Hb by lia.
    cbn [negb] in Hb. rewrite andb_false_r in Hb. discriminate.
  - intros a' Ha. subst m1 m2. cbv beta.
    rewrite (proj2 (Z.eqb_neq a' a) Ha). auto.
Qed.

(** ** [stm32_rifsc.c]: semaphores across suspend and resume *)

Lemma sem_pm_suspend_loop_run d base rs :
  forall (i : Z) (s : hw d),
  let '(res, _, t) := run d (sem_pm_suspend_loop base i rs) s in
  exists saved,
    res = Done saved /\ writes_of t = [] /\ length t = length rs /\
    Forall2 (fun r r' => r' = set_pm_sem r (pm_sem r')) rs saved /\
    (forall (k : nat) r', saved !! k = Some r' ->
       exists v, t !! k = Some (EvRead (semcr_addr base (i + Z.of_nat k)) v) /\
         pm_sem r' = semaphore_taken v
                     && (semaphore_holder MAX_CID_SUPPORTED v =? RIF_CID1)).
Proof.
  induction rs as [|r rs IH]; intros i s.
  - simpl. exists []. repeat split; auto. intros k r' H. discriminate.
  - cbn [sem_pm_suspend_loop]. rewrite run_bind. unfold io_read32 at 1. simpl run at 1.
    change (base + _RIFSC_RISC_PER0_SEMCR + _OFFSET_PERX_CIDCFGR * i)
      with (semcr_addr base i).
    destruct (hw_read d s (semcr_addr base i)) as [x s1]. cbv beta iota.
    rewrite run_bind. specialize (IH (i + 1) s1).
    destruct (run d (sem_pm_suspend_loop base (i + 1) rs) s1) as [[res s2] t].
    destruct IH as (saved & -> & Hw & Hlen & Hall & Hk). simpl.
    rewrite app_nil_r. eexists. split; [reflexivity|].
    split; [exact Hw|]. split; [simpl; lia|]. split.
    + constructor; [reflexivity | exact Hall].
    + intros [|k] r' Hr'.
      * simpl in Hr'. inversion Hr'; subst r'; clear Hr'.
        exists (wrap32 x). rewrite Z.add_0_r. split; [reflexivity|].
        cbn [pm_sem set_pm_sem]. rewrite semaphore_taken_mutex. reflexivity.
      * simpl in Hr'. destruct (Hk k r' Hr') as (v & Ht & Hp).
        exists v. split; [|exact Hp]. simpl.
        replace (i + Z.of_nat (S k)) with (i + 1 + Z.of_nat k) by lia. exact Ht.
Qed.

(** X15. On every device [stm32_rifsc_sem_pm_suspend] returns success and
    writes no register. For each table position below the loop bound it
    reads one semaphore register, the one at offset 8 times the position
    (not the entry's own index), and sets the entry's saved-semaphore flag
    exactly when that read shows the mutex taken with compartment 1 as
    holder. Nothing else in the table changes, and the entries past the
    bound are left as they were. *)
Theorem rifsc_sem_pm_suspend_saves (d : device) (s : hw d) (pdata : rifsc_platdata) :
  let n := Z.to_nat (Z.min (nrisup pdata) (nb_risup (drv_data pdata))) in
  let '(res, _, t) := run d (stm32_rifsc_sem_pm_suspend pdata) s in
  exists saved,
    res = Done (TEE_SUCCESS, set_risup pdata saved) /\
    writes_of t = [] /\
    length t = Nat.min n (length (risup pdata)) /\
    Forall2 (fun r r' => r' = set_pm_sem r (pm_sem r')) (risup pdata) saved /\
    drop n saved = drop n (risup pdata) /\
    (forall (k : nat) r', (k < n)%nat -> saved !! k = Some r' ->
       exists v, t !! k = Some (EvRead (semcr_addr (base pdata) (Z.of_nat k)) v) /\
         pm_sem r' = semaphore_taken v
                     && (semaphore_holder MAX_CID_SUPPORTED v =? RIF_CID1)).
Proof.
  intros n. unfold stm32_rifsc_sem_pm_suspend. fold n. rewrite run_bind.
  pose proof (sem_pm_suspend_loop_run d (base pdata) (take n (risup pdata)) 0 s) as H.
  destruct (run d (sem_pm_suspend_loop (base pdata) 0 (take n (risup pdata))) s)
    as [[res s1] t].
  destruct H as (saved & -> & Hw & Hlen & Hall & Hk). simpl. rewrite app_nil_r.
  pose proof (Forall2_length _ _ _ Hall) as Hl. rewrite length_take in Hl.
  exists (saved ++ drop n (risup pdata)).
  split; [reflexivity|]. split; [exact Hw|].
  split; [rewrite Hlen, length_take; reflexivity|]. split; [|split].
  - rewrite <- (take_drop n (risup pdata)) at 1.
    apply Forall2_app; [exact Hall|].
    apply Forall_Forall2_diag. apply Forall_forall. intros r _. destruct r; reflexivity.
  - destruct (Nat.le_gt_cases n (length (risup pdata))) as [Hle|Hgt].
    + rewrite drop_app_length' by lia. reflexivity.
    + rewrite (drop_ge (risup pdata)) by lia. rewrite app_nil_r.
      apply drop_ge. lia.
  - intros k r' Hkn Hr'.
    destruct (Nat.lt_ge_cases k (length saved)) as [Hlt|Hge].
    + rewrite lookup_app_l in Hr' by assumption. apply (Hk k r' Hr').
    + exfalso. rewrite lookup_app_r in Hr' by assumption.
      apply lookup_lt_Some in Hr'. rewrite length_drop in Hr'. lia.
Qed.

Lemma sem_pm_resume_entry_run d (s : hw d) base r :
  let '(res, _, t) := run d (sem_pm_resume_entry base r) s in
  exists code r',
    res = Done (code, r') /\
    (code = TEE_SUCCESS \/ code = TEE_ERROR_ACCESS_DENIED) /\
    id r' = id r /\ pm_sem r' = pm_sem r /\
    (pm_sem r = false -> code = TEE_SUCCESS) /\
    (forall a v, In (EvWrite a v) t ->
       pm_sem r = true /\ a = base + _RIFSC_RISC_PER0_SEMCR + cid_reg_offset (id r)).
Proof.
  unfold sem_pm_resume_entry, io_read32.
  cbn [bind run].
  destruct (hw_read d s _) as [x1 s1]. destruct (hw_read d s1 _) as [x2 s2].
  destruct (hw_read d s2 _) as [x3 s3]. destruct (hw_read d s3 _) as [x4 s4].
  set (r' := {| cid_attr := wrap32 x4; id := id r;
                sec := nz (Z.land (wrap32 x1) (BIT (id r mod _PERIPH_IDS_PER_REG)));
                priv := nz (Z.land (wrap32 x2) (BIT (id r mod _PERIPH_IDS_PER_REG)));
                lock := nz (Z.land (wrap32 x3) (BIT (id r mod _PERIPH_IDS_PER_REG)));
                pm_sem := pm_sem r |}).
  destruct (SEM_MODE_INCORRECT (wrap32 x4) || negb (pm_sem r)) eqn:Eskip.
  - simpl. exists TEE_SUCCESS, r'. repeat split; auto.
    all: intros; repeat (match goal with H : _ \/ _ |- _ => destruct H end);
      try discriminate; try contradiction.
  - apply orb_false_iff in Eskip as [_ Hpm]. apply negb_false_iff in Hpm.
    rewrite run_bind.
    pose proof (acquire_semaphore_run d s4
                  (base + _RIFSC_RISC_PER0_SEMCR + cid_reg_offset (id r))
                  MAX_CID_SUPPORTED) as Hrun.
    destruct (run d (stm32_rif_acquire_semaphore _ MAX_CID_SUPPORTED) s4)
      as [[res s5] tsem].
    destruct Hrun as (code & -> & Hr).
    destruct (acquire_run_codes _ _ _ _ Hr) as [Hc Ht].
    destruct Hc as [-> | ->]; simpl; rewrite app_nil_r.
    + exists TEE_SUCCESS, r'. repeat split; auto.
      all: repeat (match goal with H : _ \/ _ |- _ => destruct H end);
        try discriminate.
      apply (touches_only_writes _ _ Ht a v). assumption.
    + exists TEE_ERROR_ACCESS_DENIED, r'. repeat split; auto; try congruence.
      all: repeat (match goal with H : _ \/ _ |- _ => destruct H end);
        try discriminate.
      apply (touches_only_writes _ _ Ht a v). assumption.
Qed.

Lemma sem_pm_resume_loop_run d base rs :
  forall s : hw d,
  let '(res, _, t) := run d (sem_pm_resume_loop base rs) s in
  exists code restored,
    res = Done (code, restored) /\
    (code = TEE_SUCCESS \/ code = TEE_ERROR_ACCESS_DENIED) /\
    Forall2 (fun r r' => id r' = id r /\ pm_sem r' = pm_sem r) rs restored /\
    (Forall (fun r => pm_sem r = false) rs -> code = TEE_SUCCESS) /\
    (forall a v, In (EvWrite a v) t ->
       exists r, In r rs /\ pm_sem r = true /\
         a = base + _RIFSC_RISC_PER0_SEMCR + cid_reg_offset (id r)).
Proof.
  induction rs as [|r rs IH]; intros s.
  - simpl. exists TEE_SUCCESS, []. repeat split; auto. intros a v [].
  - cbn [sem_pm_resume_loop]. rewrite run_bind.
    pose proof (sem_pm_resume_entry_run d s base r) as H1.
    destruct (run d (sem_pm_resume_entry base r) s) as [[res s1] t1].
    destruct H1 as (code & r' & -> & Hc & Hid & Hpm & Hnone & Hw1).
    cbn [fst snd]. destruct (is_error code) eqn:Eerr.
    + simpl. rewrite app_nil_r. exists code, (r' :: rs).
      split; [reflexivity|]. split; [exact Hc|]. split.
      { constructor; [auto|]. apply Forall_Forall2_diag. apply Forall_forall. auto. }
      split.
      { intros Hall. inversion Hall; subst. auto. }
      intros a v Hin. destruct (Hw1 a v Hin) as [Hp Ha].
      exists r. split; [left; reflexivity|]. auto.
    + rewrite run_bind. specialize (IH s1).
      destruct (run d (sem_pm_resume_loop base rs) s1) as [[res2 s2] t2].
      destruct IH as (code2 & restored & -> & Hc2 & Hall2 & Hnone2 & Hw2).
      simpl. rewrite app_nil_r. exists code2, (r' :: restored).
      split; [reflexivity|]. split; [exact Hc2|]. split; [constructor; auto|].
      split.
      { intros Hall. inversion Hall; subst. auto. }
      intros a v Hin. apply in_app_iff in Hin as [Hin|Hin].
      * destruct (Hw1 a v Hin) as [Hp Ha]. exists r. split; [left; reflexivity|]. auto.
      * destruct (Hw2 a v Hin) as (r0 & Hin0 & Hp & Ha).
        exists r0. split; [right; assumption|]. auto.
Qed.

(** X16. On every device [stm32_rifsc_sem_pm_resume] returns success or
    [TEE_ERROR_ACCESS_DENIED]. Its only writes are to the semaphore
    registers of table entries whose saved-semaphore flag is set: a
    semaphore that was not saved at suspend is never taken at resume, and
    with no flag set the routine writes nothing and succeeds. The table
    keeps its entries' indices and flags. *)
Theorem rifsc_sem_pm_resume_takes_saved (d : device) (s : hw d) (pdata : rifsc_platdata) :
  let n := Z.to_nat (Z.min (nrisup pdata) (nb_risup (drv_data pdata))) in
  let '(res, _, t) := run d (stm32_rifsc_sem_pm_resume pdata) s in
  exists code restored,
    res = Done (code, set_risup pdata restored) /\
    (code = TEE_SUCCESS \/ code = TEE_ERROR_ACCESS_DENIED) /\
    Forall2 (fun r r' => id r' = id r /\ pm_sem r' = pm_sem r) (risup pdata) restored /\
    (Forall (fun r => pm_sem r = false) (take n (risup pdata)) ->
     code = TEE_SUCCESS /\ writes_of t = []) /\
    (forall a v, In (EvWrite a v) t ->
       exists r, In r (take n (risup pdata)) /\ pm_sem r = true /\
         a = base pdata + _RIFSC_RISC_PER0_SEMCR + cid_reg_offset (id r)).
Proof.
  intros n. unfold stm32_rifsc_sem_pm_resume. fold n. rewrite run_bind.
  pose proof (sem_pm_resume_loop_run d (base pdata) (take n (risup pdata)) s) as H.
  destruct (run d (sem_pm_resume_loop (base pdata) (take n (risup pdata))) s)
    as [[res s1] t].
  destruct H as (code & restored & -> & Hc & Hall & Hnone & Hw). simpl.
  rewrite app_nil_r. exists code, (restored ++ drop n (risup pdata)).
  split; [reflexivity|]. split; [exact Hc|]. split; [|split; [|exact Hw]].
  - rewrite <- (take_drop n (risup pdata)) at 1.
    apply Forall2_app; [exact Hall|].
    apply Forall_Forall2_diag. apply Forall_forall. auto.
  - intros Hf. split; [auto|].
    assert (Hnw : forall e, In e t -> is_write e = false).
    { intros [a v|a v|a v] Hin; [reflexivity| |reflexivity]. exfalso.
      destruct (Hw a v Hin) as (r & Hin' & Hp & _).
      rewrite List.Forall_forall in Hf. rewrite (Hf r Hin') in Hp. discriminate. }
    unfold writes_of. clear - Hnw. induction t as [|e t IH]; [reflexivity|].
    rewrite filter_cons. rewrite (Hnw e (or_introl eq_refl)).
    destruct (decide (false = true)); [discriminate|].
    apply IH. intros e' H. apply Hnw. right. assumption.
Qed.

(** ** [stm32_rifsc.c]: the run-time configuration request *)

(** X17. When the cell layout keeps the resource index in the low bits
    (a zero index shift), a configuration request from the TDCID for a
    RISUP programs the hardware exactly as the probe does for the same
    cell: on every device [stm32_rifsc_set_config] runs as
    [stm32_risup_cfg] on the entry that [stm32_rifsc_dt_conf_risup] builds
    from the cell. *)
Theorem rifsc_set_config_as_probe (b : rif_bindings) (pdata : rifsc_platdata) (conf : Z) :
  is_tdcid pdata = true -> RIF_PER_ID_SHIFT b = 0 -> in_u32 conf ->
  Z.land conf (RIF_PER_ID_MASK b) < RIMU_ID_OFFSET b ->
  snd (stm32_rifsc_dt_conf_risup b (Some [conf])) = [risup_of_cell b conf] /\
  same_runs (stm32_rifsc_set_config b pdata [conf])
    (stm32_risup_cfg pdata (risup_of_cell b conf)).
Proof.
  intros Htd Hshift Hconf Hid. split; [reflexivity|]. intros d s.
  unfold stm32_rifsc_set_config.
  rewrite (proj2 (Z.ltb_lt _ _) Hid), Htd. cbn [negb].
  replace (risup_of_cell b conf)
    with {| cid_attr := _RIF_FLD_GET (RIF_PERx_CID_MASK b) (RIF_PERx_CID_SHIFT b) conf;
            id := Z.land conf (RIF_PER_ID_MASK b);
            sec := nz (Z.land (BIT (RIF_SEC_SHIFT b)) conf);
            priv := nz (Z.land (BIT (RIF_PRIV_SHIFT b)) conf);
            lock := nz (Z.land (BIT (RIF_LOCK_SHIFT b)) conf);
            pm_sem := false |}; [reflexivity|].
  unfold risup_of_cell, _RIF_FLD_GET. rewrite Hshift, Z.shiftr_0_r, (wrap32_u32 conf Hconf).
  rewrite !(Z.land_comm conf (BIT _)). reflexivity.
Qed.

Lemma rifsc_set_config_as_probe_witness :
  snd (stm32_rifsc_dt_conf_risup sample_bindings (Some [0x803]))
  = [risup_of_cell sample_bindings 0x803] /\
  same_runs (stm32_rifsc_set_config sample_bindings (set_is_tdcid sample_pdata true) [0x803])
    (stm32_risup_cfg (set_is_tdcid sample_pdata true) (risup_of_cell sample_bindings 0x803)).
Proof.
  apply (rifsc_set_config_as_probe sample_bindings (set_is_tdcid sample_pdata true) 0x803).
  - reflexivity.
  - reflexivity.
  - unfold in_u32. lia.
  - vm_compute. reflexivity.
Defined.

(** X18. A configuration request from a compartment that is not the TDCID
    cannot change who owns a resource. On every device: a cell that names
    a bus master is refused with [TEE_ERROR_ACCESS_DENIED] before any
    register access; a cell whose CID word differs from the CIDCFGR
    register read is refused with [TEE_ERROR_BAD_PARAMETERS] after that
    single read; and in every case no CID-filtering register and no
    configuration-lock register is written. *)
Theorem rifsc_set_config_non_tdcid (b : rif_bindings) (pdata : rifsc_platdata)
  (d : device) (s : hw d) (conf : Z) :
  let id_ := Z.land conf (RIF_PER_ID_MASK b) in
  let cid_word := _RIF_FLD_GET (RIF_PERx_CID_MASK b) (RIF_PERx_CID_SHIFT b) conf in
  let a := base pdata + _OFFSET_PERX_CIDCFGR * id_ + _RIFSC_RISC_PER0_CIDCFGR in
  let rd := hw_read d s a in
  is_tdcid pdata = false -> 0 <= id_ -> nb_risup (drv_data pdata) <= 255 ->
  let '(res, s', t) := run d (stm32_rifsc_set_config b pdata [conf]) s in
  (exists code, res = Done code /\
     (RIMU_ID_OFFSET b <= id_ -> code = TEE_ERROR_ACCESS_DENIED /\ t = [] /\ s' = s) /\
     (id_ < RIMU_ID_OFFSET b -> wrap32 (fst rd) <> cid_word ->
      code = TEE_ERROR_BAD_PARAMETERS /\ t = [EvRead a (wrap32 (fst rd))] /\ s' = snd rd)) /\
  (forall a' v, In (EvWrite a' v) t ->
     ~ is_cidcfgr_addr (base pdata) a' /\ ~ is_rcfglockr_addr (base pdata) a').
Proof.
  intros id_ cid_word a rd Htd Hid Hnb.
  unfold stm32_rifsc_set_config. fold id_ cid_word.
  destruct (Z.ltb_spec id_ (RIMU_ID_OFFSET b)) as [Hlt|Hge].
  2:{ rewrite Htd. simpl. split; [|intros a' v []].
      exists TEE_ERROR_ACCESS_DENIED. split; [reflexivity|]. split; [auto | lia]. }
  rewrite Htd. cbn [negb]. rewrite run_bind. unfold io_read32 at 1. simpl run at 1.
  cbn [id]. fold a. subst rd. destruct (hw_read d s a) as [x s1]. cbn [fst snd].
  cbv beta iota. cbn [cid_attr].
  destruct (Z.eqb_spec (wrap32 x) cid_word) as [E|E]; cbn [negb].
  - set (r := {| cid_attr := cid_word; id := id_;
                 sec := nz (Z.land (BIT (RIF_SEC_SHIFT b)) conf);
                 priv := nz (Z.land (BIT (RIF_PRIV_SHIFT b)) conf);
                 lock := nz (Z.land (BIT (RIF_LOCK_SHIFT b)) conf);
                 pm_sem := false |}).
    pose proof (risup_cfg_run_frame d s1 pdata r Htd Hid Hnb) as H.
    destruct (run d (stm32_risup_cfg pdata r) s1) as [[res s2] t].
    destruct H as ((code & -> & _ & _) & Hw).
    split.
    + exists code. split; [reflexivity|]. split; [lia | intros _ Hne; contradiction].
    + intros a' v [Hin|Hin]; [discriminate | eauto].
  - simpl. split.
    + exists TEE_ERROR_BAD_PARAMETERS. split; [reflexivity|]. split; [lia | auto].
    + intros a' v [Hin|[]]. discriminate.
Qed.

Lemma rifsc_set_config_non_tdcid_witness :
  let b := sample_bindings in
  let pdata := sample_pdata in
  let conf := 0x103 in
  let id_ := Z.land conf (RIF_PER_ID_MASK b) in
  let cid_word := _RIF_FLD_GET (RIF_PERx_CID_MASK b) (RIF_PERx_CID_SHIFT b) conf in
  let a := base pdata + _OFFSET_PERX_CIDCFGR * id_ + _RIFSC_RISC_PER0_CIDCFGR in
  let rd := hw_read regfile sample_regs a in
  let '(res, s', t) :=
    run regfile (stm32_rifsc_set_config b pdata [conf]) sample_regs in
  (exists code, res = Done code /\
     (RIMU_ID_OFFSET b <= id_ ->
      code = TEE_ERROR_ACCESS_DENIED /\ t = [] /\ s' = sample_regs) /\
     (id_ < RIMU_ID_OFFSET b -> wrap32 (fst rd) <> cid_word ->
      code = TEE_ERROR_BAD_PARAMETERS /\ t = [EvRead a (wrap32 (fst rd))] /\ s' = snd rd)) /\
  (forall a' v, In (EvWrite a' v) t ->
     ~ is_cidcfgr_addr (base pdata) a' /\ ~ is_rcfglockr_addr (base pdata) a').
Proof.
  apply (rifsc_set_config_non_tdcid sample_bindings sample_pdata regfile sample_regs 0x103).
  - reflexivity.
  - vm_compute. discriminate.
  - simpl. lia.
Defined.

(** ** [stm32_risaf.c]: the overlap check, exactly *)

Lemma buffer_intersect_iff b bl a al :
  Risaf.core_is_buffer_intersect b bl a al = true <->
  exists x, b <= x < b + bl /\ a <= x < a + al.
Proof.
  unfold Risaf.core_is_buffer_intersect. rewrite Z.ltb_lt. split.
  - intros H. exists (Z.max a b). lia.
  - intros (x & H1 & H2). lia.
Qed.

Lemma overlap_scan_clear cur before :
  Risaf.overlap_scan cur before = TEE_SUCCESS <->
  Forall (fun r => Risaf.cfg r <> 0 ->
            Risaf.core_is_buffer_intersect (Risaf.addr cur) (Risaf.len cur)
              (Risaf.addr r) (Risaf.len r) = false) before.
Proof.
  induction before as [|r rest IH]; simpl.
  - split; auto.
  - rewrite Forall_cons. destruct (nz (Risaf.cfg r)) eqn:Ez; simpl.
    + apply nz_true_iff in Ez.
      destruct (Risaf.core_is_buffer_intersect _ _ (Risaf.addr r) _) eqn:Ei.
      * split; [discriminate|]. intros [H1 _]. specialize (H1 Ez). congruence.
      * rewrite IH. tauto.
    + rewrite IH. split; [|tauto]. intros H. split; [|assumption].
      intros Hc. exfalso. apply nz_true_iff in Hc. congruence.
Qed.

Lemma overlap_scan_codes cur before :
  Risaf.overlap_scan cur before = TEE_SUCCESS \/
  Risaf.overlap_scan cur before = TEE_ERROR_GENERIC.
Proof.
  induction before as [|r rest IH]; simpl; [auto|].
  destruct (nz (Risaf.cfg r)); simpl; [|assumption].
  destruct (Risaf.core_is_buffer_intersect _ _ _ _); auto.
Qed.

(** X19. [risaf_check_overlap] is exact: run for the entry at position
    [index] of a table, it returns success exactly when no entry before
    it with a non-zero configuration shares an address with it (ranges
    are [[addr, addr+len)]), and the overlap error [TEE_ERROR_GENERIC] in
    every other case. Entries without configuration never count, and the
    entries after [index] are not looked at. *)
Theorem risaf_check_overlap_exact (rs : list Risaf.stm32_risaf_region) (index : nat)
  (cur : Risaf.stm32_risaf_region) :
  rs !! index = Some cur ->
  (Risaf.risaf_check_overlap rs index = TEE_SUCCESS <->
   forall (i : nat) r, (i < index)%nat -> rs !! i = Some r -> Risaf.cfg r <> 0 ->
     forall x, ~ (Risaf.addr cur <= x < Risaf.addr cur + Risaf.len cur /\
                  Risaf.addr r <= x < Risaf.addr r + Risaf.len r)) /\
  (Risaf.risaf_check_overlap rs index <> TEE_SUCCESS ->
   Risaf.risaf_check_overlap rs index = TEE_ERROR_GENERIC) /\
  (forall rs', take (S index) rs' = take (S index) rs ->
     Risaf.risaf_check_overlap rs' index = Risaf.risaf_check_overlap rs index).
Proof.
  intros Hcur. unfold Risaf.risaf_check_overlap.
  rewrite (nth_lookup_Some _ _ _ _ Hcur). split; [|split].
  - rewrite overlap_scan_clear, List.Forall_forall. split.
    + intros H i r Hi Hr Hcfg x Hx.
      assert (Hin : In r (take index rs)).
      { apply list_elem_of_In. apply (list_elem_of_lookup_2 _ i).
        rewrite lookup_take_lt by assumption. assumption. }
      specialize (H r Hin Hcfg).
      assert (Risaf.core_is_buffer_intersect (Risaf.addr cur) (Risaf.len cur)
                (Risaf.addr r) (Risaf.len r) = true)
        by (apply buffer_intersect_iff; exists x; assumption).
      congruence.
    + intros H r Hin Hcfg.
      apply list_elem_of_In in Hin. apply list_elem_of_lookup_1 in Hin as (i & Hi).
      assert (Hlt : (i < index)%nat).
      { apply lookup_lt_Some in Hi. rewrite length_take in Hi. lia. }
      rewrite lookup_take_lt in Hi by assumption.
      destruct (Risaf.core_is_buffer_intersect _ _ (Risaf.addr r) _) eqn:Ei; [|reflexivity].
      exfalso. apply buffer_intersect_iff in Ei as (x & Hx).
      apply (H i r Hlt Hi Hcfg x Hx).
  - intros Hne. destruct (overlap_scan_codes cur (take index rs)); [contradiction|assumption].
  - intros rs' Htake.
    assert (Hk : forall k : nat, (k < S index)%nat -> rs' !! k = rs !! k).
    { intros k Hk. rewrite <- (lookup_take_lt rs' (S index) k Hk), Htake.
      apply lookup_take_lt. assumption. }
    assert (Hcur' : rs' !! index = Some cur) by (rewrite Hk by lia; assumption).
    rewrite (nth_lookup_Some _ _ _ _ Hcur').
    rewrite (take_agree rs' rs index); [reflexivity|]. intros k Hlt. apply Hk. lia.
Qed.

Lemma risaf_check_overlap_exact_witness :
  let rs := Risaf.regions (Risaf.pdata Risaf.sample_risaf_probed) in
  let cur := {| Risaf.cfg := 0x01010032; Risaf.addr := 0x80002000; Risaf.len := 0x2000 |} in
  (Risaf.risaf_check_overlap rs 1 = TEE_SUCCESS <->
   forall (i : nat) r, (i < 1)%nat -> rs !! i = Some r -> Risaf.cfg r <> 0 ->
     forall x, ~ (Risaf.addr cur <= x < Risaf.addr cur + Risaf.len cur /\
                  Risaf.addr r <= x < Risaf.addr r + Risaf.len r)) /\
  (Risaf.risaf_check_overlap rs 1 <> TEE_SUCCESS ->
   Risaf.risaf_check_overlap rs 1 = TEE_ERROR_GENERIC) /\
  (forall rs', take 2 rs' = take 2 rs ->
     Risaf.risaf_check_overlap rs' 1 = Risaf.risaf_check_overlap rs 1).
Proof.
  apply (risaf_check_overlap_exact
           (Risaf.regions (Risaf.pdata Risaf.sample_risaf_probed)) 1
           {| Risaf.cfg := 0x01010032; Risaf.addr := 0x80002000; Risaf.len := 0x2000 |}).
  reflexivity.
Defined.

(** ** [stm32_risaf.c]: the table that a probe leaves *)

Lemma is_error_false r : is_error r = false -> r = TEE_SUCCESS.
Proof. destruct r; simpl; intros H; try discriminate; reflexivity. Qed.

Lemma probe_region_bounds b risaf rs (i : nat) e d (s : hw d) rs' s' t :
  run d (Risaf.probe_region b risaf rs i e) s = (Done rs', s', t) ->
  Risaf.configured b e ->
  forall prop, Risaf.dt_protreg e = Some prop ->
    Risaf.risaf_check_region_boundaries risaf (Risaf.region_of_entry e prop) = TEE_SUCCESS.
Proof.
  intros Hrun (Hp & Hsz & Htz & _) prop Hprop. revert Hrun.
  unfold Risaf.probe_region, Risaf.set_region.
  replace (Risaf.dt_pnode e <? 0) with false by (symmetry; apply Z.ltb_ge; lia).
  replace (Risaf.dt_reg_size e =? 0) with false by (symmetry; apply Z.eqb_neq; assumption).
  destruct ((Risaf.dt_reg_base e =? Risaf.TZDRAM_BASE b)
            && (Risaf.dt_reg_size e =? Risaf.TZDRAM_RESERVED_SIZE b)) eqn:Etz.
  { exfalso. apply Htz. apply andb_true_iff in Etz as [E1 E2].
    apply Z.eqb_eq in E1. apply Z.eqb_eq in E2. auto. }
  rewrite Hprop. cbv zeta.
  destruct (is_error (Risaf.risaf_check_region_boundaries risaf _)
            || is_error (Risaf.risaf_check_overlap _ i)) eqn:Echk.
  { simpl. discriminate. }
  intros _. apply orb_false_iff in Echk as [Eb _]. apply is_error_false. exact Eb.
Qed.

Lemma probe_loop_bounds b risaf es :
  forall (i : nat) rs d (s : hw d) rsf s' t,
  run d (Risaf.probe_regions_from b risaf rs i es) s = (Done rsf, s', t) ->
  forall (n : nat) e prop, es !! n = Some e -> Risaf.configured b e ->
    Risaf.dt_protreg e = Some prop ->
    Risaf.risaf_check_region_boundaries risaf (Risaf.region_of_entry e prop) = TEE_SUCCESS.
Proof.
  induction es as [|e es' IH]; intros i rs d s rsf s' t H n e0 prop Hn Hc Hp.
  - destruct n; discriminate.
  - simpl in H. rewrite run_bind in H.
    destruct (run d (Risaf.probe_region b risaf rs i e) s) as [[[rs1|] s1] t1] eqn:E1;
      [|discriminate].
    destruct (run d (Risaf.probe_regions_from b risaf rs1 (S i) es') s1)
      as [[r2 s2] t2] eqn:E2.
    inversion H; subst; clear H.
    destruct n as [|n'].
    + simpl in Hn. inversion Hn; subst e0.
      apply (probe_region_bounds _ _ _ _ _ _ _ _ _ _ E1 Hc prop Hp).
    + simpl in Hn. apply (IH _ _ _ _ _ _ _ E2 n' e0 prop Hn Hc Hp).
Qed.

(** X20. The table that the region loop of [stm32_risaf_probe] leaves
    when it does not panic: it has one entry per list element; every
    element taken up with a non-zero configuration is stored with its
    base, size and cell, passed [risaf_check_region_boundaries], passes
    the overlap check on the final table, and its range meets the range
    of no other such element. Having passed the boundary check, an entry
    that ends inside the 64-bit address space lies inside the instance's
    memory window on grain boundaries (for a window that is not empty and
    does not wrap); nothing of the kind is said of an entry that runs past
    the end of the address space. *)
Theorem risaf_probe_table_sound (b : Risaf.risaf_bindings)
  (risaf : Risaf.stm32_risaf_instance) (es : list Risaf.dt_memory_region)
  (d : device) (s : hw d) (rsf : list Risaf.stm32_risaf_region) :
  fst (fst (run d (Risaf.probe_regions b risaf es) s)) = Done rsf ->
  length rsf = length es /\
  forall (j : nat) ej, es !! j = Some ej -> Risaf.configured b ej ->
    exists prop, Risaf.dt_protreg ej = Some prop /\
      rsf !! j = Some (Risaf.region_of_entry ej prop) /\
      Risaf.risaf_check_region_boundaries risaf (Risaf.region_of_entry ej prop)
      = TEE_SUCCESS /\
      (let mb := Risaf.mem_base (Risaf.pdata risaf) in
       let ms := Risaf.mem_size (Risaf.pdata risaf) in
       let g := Risaf.granularity (Risaf.ddata risaf) in
       0 <= mb -> 0 <= ms -> 1 <= mb + ms <= 2 ^ 64 ->
       0 <= Risaf.dt_reg_base ej -> 0 < Risaf.dt_reg_size ej ->
       Risaf.dt_reg_base ej + Risaf.dt_reg_size ej <= 2 ^ 64 ->
       mb <= Risaf.dt_reg_base ej /\
       Risaf.dt_reg_base ej + Risaf.dt_reg_size ej <= mb + ms /\
       g <> 0 /\ (g | Risaf.dt_reg_base ej) /\ (g | Risaf.dt_reg_size ej)) /\
      Risaf.risaf_check_overlap rsf j = TEE_SUCCESS /\
      forall (i : nat) ei, i <> j -> es !! i = Some ei -> Risaf.configured b ei ->
        ~ Risaf.ranges_intersect ei ej.
Proof.
  unfold Risaf.probe_regions.
  destruct (run d _ s) as [[res s'] t] eqn:E. simpl. intros ->.
  destruct (probe_loop_done _ _ _ _ _ _ _ _ _ _ E) as (L & _ & C).
  pose proof (probe_loop_bounds _ _ _ _ _ _ _ _ _ _ E) as B.
  rewrite length_replicate in L. split; [exact L|].
  assert (Hpair : forall (i j : nat) ei ej, (i < j)%nat ->
            es !! i = Some ei -> es !! j = Some ej ->
            Risaf.configured b ei -> Risaf.configured b ej ->
            ~ Risaf.ranges_intersect ej ei).
  { intros i j ei ej Hij Hi Hj Hci Hcj Hint.
    assert (Hlj : (j < length es)%nat) by (apply lookup_lt_Some in Hj; assumption).
    destruct (C i ei Hi Hci) as (pi & Hpi & Hli & _); [rewrite length_replicate; lia|].
    destruct (C j ej Hj Hcj) as (pj & Hpj & Hlj' & Hov); [rewrite length_replicate; lia|].
    simpl in Hli, Hlj', Hov.
    assert (Hne : Risaf.cfg (Risaf.region_of_entry ei pi) <> 0).
    { destruct Hci as (_ & _ & _ & p & Hp & Hnz). simpl. congruence. }
    rewrite (overlap_scan_hit _ (take j rsf) (Risaf.region_of_entry ei pi)) in Hov.
    - discriminate.
    - apply list_elem_of_In. apply (list_elem_of_lookup_2 _ i).
      rewrite lookup_take_lt by assumption. assumption.
    - assumption.
    - apply ranges_intersect_test. assumption. }
  intros j ej Hj Hcj.
  assert (Hlj : (j < length es)%nat) by (apply lookup_lt_Some in Hj; assumption).
  destruct (C j ej Hj Hcj) as (pj & Hpj & Hlj' & Hov); [rewrite length_replicate; lia|].
  simpl in Hlj', Hov.
  exists pj. split; [exact Hpj|]. split; [exact Hlj'|].
  split; [apply (B j ej pj Hj Hcj Hpj)|]. split; [|split].
  - cbv zeta. intros Hmb Hms Hw Ha Hl Hal.
    set (mb := Risaf.mem_base (Risaf.pdata risaf)) in *.
    set (ms := Risaf.mem_size (Risaf.pdata risaf)) in *.
    set (g := Risaf.granularity (Risaf.ddata risaf)) in *.
    pose proof (B j ej pj Hj Hcj Hpj) as Hok.
    destruct (risaf_region_boundaries_no_wrap risaf (Risaf.region_of_entry ej pj)
                Ha Hl Hal Hmb Hms Hw) as (Hiff & _ & _).
    cbn [Risaf.region_of_entry Risaf.addr Risaf.len] in Hiff.
    fold mb ms g in Hiff. rewrite Hok in Hiff.
    destruct (Z_lt_le_dec (Risaf.dt_reg_base ej) mb) as [H1|H1];
      [exfalso; assert (TEE_SUCCESS = TEE_ERROR_BAD_PARAMETERS) by (apply Hiff; auto);
       discriminate|].
    destruct (Z_lt_le_dec (mb + ms - 1) (Risaf.dt_reg_base ej + Risaf.dt_reg_size ej - 1))
      as [H2|H2];
      [exfalso; assert (TEE_SUCCESS = TEE_ERROR_BAD_PARAMETERS) by (apply Hiff; auto);
       discriminate|].
    destruct (Z.eq_dec g 0) as [H3|H3];
      [exfalso; assert (TEE_SUCCESS = TEE_ERROR_BAD_PARAMETERS) by (apply Hiff; auto);
       discriminate|].
    assert (H4 : (g | Risaf.dt_reg_base ej)).
    { apply (nz_mod_divide _ g H3).
      destruct (nz (Risaf.dt_reg_base ej mod g)) eqn:Enz; [|reflexivity].
      exfalso. assert (TEE_SUCCESS = TEE_ERROR_BAD_PARAMETERS); [|discriminate].
      apply Hiff. do 3 right. left. intros Hd.
      apply (nz_mod_divide _ g H3) in Hd. congruence. }
    assert (H5 : (g | Risaf.dt_reg_size ej)).
    { apply (nz_mod_divide _ g H3).
      destruct (nz (Risaf.dt_reg_size ej mod g)) eqn:Enz; [|reflexivity].
      exfalso. assert (TEE_SUCCESS = TEE_ERROR_BAD_PARAMETERS); [|discriminate].
      apply Hiff. do 4 right. intros Hd.
      apply (nz_mod_divide _ g H3) in Hd. congruence. }
    repeat split; try assumption; lia.
  - unfold Risaf.risaf_check_overlap. rewrite (nth_lookup_Some _ _ _ _ Hlj'). exact Hov.
  - intros i ei Hne Hi Hci Hint.
    destruct (Nat.lt_trichotomy i j) as [Hlt|[Heq|Hgt]]; [|contradiction|].
    + apply (Hpair i j ei ej Hlt Hi Hj Hci Hcj). apply ranges_intersect_sym. exact Hint.
    + apply (Hpair j i ej ei Hgt Hj Hi Hcj Hci). exact Hint.
Qed.

Lemma risaf_probe_table_sound_witness :
  let b := Risaf.sample_bindings in
  let risaf := Risaf.sample_risaf in
  let es := Risaf.scenario_disjoint in
  let rsf := [ {| Risaf.cfg := 0x01010031; Risaf.addr := 0x80001000; Risaf.len := 0x1000 |};
               {| Risaf.cfg := 0x01010032; Risaf.addr := 0x80002000; Risaf.len := 0x2000 |} ] in
  length rsf = length es /\
  forall (j : nat) ej, es !! j = Some ej -> Risaf.configured b ej ->
    exists prop, Risaf.dt_protreg ej = Some prop /\
      rsf !! j = Some (Risaf.region_of_entry ej prop) /\
      Risaf.risaf_check_region_boundaries risaf (Risaf.region_of_entry ej prop)
      = TEE_SUCCESS /\
      (let mb := Risaf.mem_base (Risaf.pdata risaf) in
       let ms := Risaf.mem_size (Risaf.pdata risaf) in
       let g := Risaf.granularity (Risaf.ddata risaf) in
       0 <= mb -> 0 <= ms -> 1 <= mb + ms <= 2 ^ 64 ->
       0 <= Risaf.dt_reg_base ej -> 0 < Risaf.dt_reg_size ej ->
       Risaf.dt_reg_base ej + Risaf.dt_reg_size ej <= 2 ^ 64 ->
       mb <= Risaf.dt_reg_base ej /\
       Risaf.dt_reg_base ej + Risaf.dt_reg_size ej <= mb + ms /\
       g <> 0 /\ (g | Risaf.dt_reg_base ej) /\ (g | Risaf.dt_reg_size ej)) /\
      Risaf.risaf_check_overlap rsf j = TEE_SUCCESS /\
      forall (i : nat) ei, i <> j -> es !! i = Some ei -> Risaf.configured b ei ->
        ~ Risaf.ranges_intersect ei ej.
Proof.
  apply (risaf_probe_table_sound Risaf.sample_bindings Risaf.sample_risaf
           Risaf.scenario_disjoint regfile (fun _ => 0)).
  vm_compute. reflexivity.
Defined.

(** ** [stm32_risaf.c]: programming one region *)

(** X21. [risaf_configure_region] programs the hardware before it looks at
    the encryption request. On every device its run is the same ten
    accesses: base-region enable cleared in CFGR, then the start, end and
    CID registers and CFGR again, each read and written back with the new
    field. Only then is the code chosen: success when no encryption bit is
    requested, or when the instance supports encryption, bit 14 is not
    used outside the MP21 layout and the region is secure;
    [TEE_ERROR_NOT_SUPPORTED] for bit 14 outside the MP21 layout on an
    instance with encryption; [TEE_ERROR_GENERIC] otherwise. An error
    code therefore comes back with the region already written. *)
Theorem risaf_configure_region_programs_first (b : Risaf.risaf_bindings)
  (risaf : Risaf.stm32_risaf_instance) (region_id cfg cid_cfg saddr eaddr : Z)
  (d : device) (s : hw d) :
  let base := Risaf.risaf_base risaf in
  let mask := Risaf.mask_regions (Risaf.ddata risaf) in
  let mem_base := Risaf.mem_base (Risaf.pdata risaf) in
  let enc := nz (Z.land cfg (Risaf._RISAF_REG_CFGR_ENC b)) in
  let '(res, _, t) :=
    run d (Risaf.risaf_configure_region b risaf region_id cfg cid_cfg saddr eaddr) s in
  exists code v1 v2 v3 v4 v5,
    res = Done code /\
    t = [EvRead (base + Risaf._RISAF_REG_CFGR region_id) v1;
         EvWrite (base + Risaf._RISAF_REG_CFGR region_id)
           (Z.land v1 (not32 Risaf._RISAF_REG_CFGR_BREN));
         EvRead (base + Risaf._RISAF_REG_STARTR region_id) v2;
         EvWrite (base + Risaf._RISAF_REG_STARTR region_id)
           (Z.lor (Z.land v2 (not32 mask)) (Z.land (Risaf.wrap64 (saddr - mem_base)) mask));
         EvRead (base + Risaf._RISAF_REG_ENDR region_id) v3;
         EvWrite (base + Risaf._RISAF_REG_ENDR region_id)
           (Z.lor (Z.land v3 (not32 mask)) (Z.land (Risaf.wrap64 (eaddr - mem_base)) mask));
         EvRead (base + Risaf._RISAF_REG_CIDCFGR region_id) v4;
         EvWrite (base + Risaf._RISAF_REG_CIDCFGR region_id)
           (Z.lor (Z.land v4 (not32 Risaf._RISAF_REG_CIDCFGR_ALL_MASK))
                  (Z.land cid_cfg Risaf._RISAF_REG_CIDCFGR_ALL_MASK));
         EvRead (base + Risaf._RISAF_REG_CFGR region_id) v5;
         EvWrite (base + Risaf._RISAF_REG_CFGR region_id)
           (Z.lor (Z.land v5 (not32 (Risaf._RISAF_REG_CFGR_ALL_MASK b)))
                  (Z.land cfg (Risaf._RISAF_REG_CFGR_ALL_MASK b)))] /\
    (code = TEE_SUCCESS <->
       enc = false \/
       (Risaf.enc_supported (Risaf.pdata risaf) = true /\
        (Risaf.mp21 b = true \/ Z.testbit cfg 14 = false) /\ Z.testbit cfg 8 = true)) /\
    (code = TEE_ERROR_NOT_SUPPORTED <->
       enc = true /\ Risaf.enc_supported (Risaf.pdata risaf) = true /\
       Risaf.mp21 b = false /\ Z.testbit cfg 14 = true) /\
    (code <> TEE_SUCCESS -> code <> TEE_ERROR_NOT_SUPPORTED -> code = TEE_ERROR_GENERIC).
Proof.
  intros base mask mem_base enc.
  unfold Risaf.risaf_configure_region, io_clrbits32, io_clrsetbits32, io_read32, io_write32.
  fold base mask mem_base enc. cbn [bind run].
  destruct (hw_read d s _) as [x1 s1].
  destruct (hw_read d (hw_write d s1 _ _) _) as [x2 s2].
  destruct (hw_read d (hw_write d s2 _ _) _) as [x3 s3].
  destruct (hw_read d (hw_write d s3 _ _) _) as [x4 s4].
  destruct (hw_read d (hw_write d s4 _ _) _) as [x5 s5].
  unfold Risaf._RISAF_REG_CFGR_SEC, Risaf._RISAF_REG_CFGR_SEC_SHIFT.
  rewrite (nz_land_BIT cfg 14), (land_BIT_eqb cfg 8) by lia.
  destruct enc; destruct (Risaf.enc_supported (Risaf.pdata risaf));
    destruct (Risaf.mp21 b); destruct (Z.testbit cfg 14); destruct (Z.testbit cfg 8);
    cbn [negb andb]; cbn [run];
    do 6 eexists; (split; [reflexivity|]); (split; [reflexivity|]);
    repeat split; intros; try discriminate; try congruence; try tauto;
    try (intuition congruence).
Qed.

(** ** [stm32_risaf.c]: acquiring and checking access to a region *)

(** X22. The whole decision of [stm32_risaf_acquire_access] for a query of
    one cell, on every device. A region id of 0 or not below the number of
    regions is [TEE_ERROR_BAD_PARAMETERS], and a clock that cannot be
    enabled gives the clock's error, both without any register access.
    Otherwise the routine reads CFGR then CIDCFGR of the region, writes
    nothing, and returns success exactly when the region is enabled or
    OP-TEE is the TDCID, the region is secure, and either the CID word is
    zero or compartment 1 has the read bit if reading is asked and the
    write bit if writing is asked; every other case is
    [TEE_ERROR_ACCESS_DENIED]. *)
Theorem risaf_acquire_access_rule (b : Risaf.risaf_bindings) (d : device) (s : hw d)
  (is_tdcid : bool) (clk_res : TEE_Result) (risaf : Risaf.stm32_risaf_instance)
  (arg0 : Z) (read write : bool) :
  let id_ := Risaf._RISAF_GET_REGION_ID b arg0 in
  let cfgr_a := Risaf.risaf_base risaf + Risaf._RISAF_REG_CFGR id_ in
  let cid_a := Risaf.risaf_base risaf + Risaf._RISAF_REG_CIDCFGR id_ in
  let rd_cfgr := hw_read d s cfgr_a in
  let cfgr := wrap32 (fst rd_cfgr) in
  let rd_cid := hw_read d (snd rd_cfgr) cid_a in
  let cidcfgr := wrap32 (fst rd_cid) in
  let r := run d (Risaf.stm32_risaf_acquire_access b is_tdcid clk_res risaf [arg0]
                    read write) s in
  if (id_ =? 0) || (Risaf.nregions (Risaf.pdata risaf) <=? id_)
  then r = (Done TEE_ERROR_BAD_PARAMETERS, s, [])
  else if is_error clk_res then r = (Done clk_res, s, [])
  else exists code,
    r = (Done code, snd rd_cid, [EvRead cfgr_a cfgr; EvRead cid_a cidcfgr]) /\
    (code = TEE_SUCCESS <->
       (Z.testbit cfgr 0 = true \/ is_tdcid = true) /\
       Z.testbit cfgr 8 = true /\
       (cidcfgr = 0 \/
        ((read = true -> Z.testbit cidcfgr 1 = true) /\
         (write = true -> Z.testbit cidcfgr 17 = true)))) /\
    (code <> TEE_SUCCESS -> code = TEE_ERROR_ACCESS_DENIED).
Proof.
  intros id_ cfgr_a cid_a rd_cfgr cfgr rd_cid cidcfgr r. subst r.
  unfold Risaf.stm32_risaf_acquire_access. fold id_.
  destruct ((id_ =? 0) || (Risaf.nregions (Risaf.pdata risaf) <=? id_)); [reflexivity|].
  destruct (is_error clk_res); [reflexivity|].
  unfold io_read32. cbn [bind run]. fold cfgr_a cid_a.
  subst cfgr cidcfgr. destruct rd_cfgr as [x1 s1] eqn:E1. subst rd_cfgr. rewrite E1.
  cbn [fst snd] in *. destruct rd_cid as [x2 s2] eqn:E2. subst rd_cid. rewrite E2.
  cbn [fst snd] in *.
  unfold Risaf._RISAF_REG_READ_OK, Risaf._RISAF_REG_WRITE_OK, Risaf._RISAF_REG_CFGR_BREN,
    Risaf._RISAF_REG_CFGR_SEC, Risaf._RISAF_REG_CFGR_SEC_SHIFT.
  change (wrap32 (Z.shiftl (BIT RIF_CID1) Risaf._RISAF_REG_CIDCFGR_RDENC_SHIFT)) with (BIT 1).
  change (wrap32 (Z.shiftl (BIT RIF_CID1) Risaf._RISAF_REG_CIDCFGR_WRENC_SHIFT)) with (BIT 17).
  rewrite (nz_land_BIT (wrap32 x1) 0), (nz_land_BIT (wrap32 x1) 8),
    (nz_land_BIT (wrap32 x2) 1), (nz_land_BIT (wrap32 x2) 17) by lia.
  unfold nz at 1.
  destruct (Z.eqb_spec (wrap32 x2) 0) as [Ez|Ez];
    destruct (Z.testbit (wrap32 x1) 0); destruct (Z.testbit (wrap32 x1) 8);
    destruct (Z.testbit (wrap32 x2) 1); destruct (Z.testbit (wrap32 x2) 17);
    destruct is_tdcid; destruct read; destruct write;
    cbn [negb andb orb]; cbn [run]; eexists; (split; [reflexivity|]);
    repeat split; intros; try discriminate; try congruence; try tauto;
    try (intuition congruence).
Qed.

(** X23. The decision of [stm32_risaf_check_access] for a valid region id
    and a running clock, on every device: the routine reads CFGR then
    CIDCFGR of the region, writes nothing, and returns success exactly
    when the region is enabled or OP-TEE is the TDCID, the region is secure
    if the query asks for a secure region, and every privileged, read and
    write compartment bit that the query asks for is set in the region's
    registers; every other case is [TEE_ERROR_ACCESS_DENIED]. *)
Theorem risaf_check_access_rule (b : Risaf.risaf_bindings) (d : device) (s : hw d)
  (is_tdcid : bool) (risaf : Risaf.stm32_risaf_instance) (q_config : Z) :
  let id_ := Risaf._RISAF_GET_REGION_ID b q_config in
  let q_cfg := Risaf._RISAF_GET_REGION_CFG b q_config in
  let q_cid := Risaf._RISAF_GET_REGION_CID_CFG b q_config in
  let cfgr_a := Risaf.risaf_base risaf + Risaf._RISAF_REG_CFGR id_ in
  let cid_a := Risaf.risaf_base risaf + Risaf._RISAF_REG_CIDCFGR id_ in
  let rd_cfgr := hw_read d s cfgr_a in
  let cfgr := wrap32 (fst rd_cfgr) in
  let rd_cid := hw_read d (snd rd_cfgr) cid_a in
  let cidcfgr := wrap32 (fst rd_cid) in
  id_ <> 0 -> id_ < Risaf.nregions (Risaf.pdata risaf) ->
  exists code,
    run d (Risaf.stm32_risaf_check_access b is_tdcid TEE_SUCCESS risaf [q_config]) s
    = (Done code, snd rd_cid, [EvRead cfgr_a cfgr; EvRead cid_a cidcfgr]) /\
    (code = TEE_SUCCESS <->
       (Z.testbit cfgr 0 = true \/ is_tdcid = true) /\
       (Z.testbit q_cfg 8 = true -> Z.testbit cfgr 8 = true) /\
       (forall n, 16 <= n <= 23 -> Z.testbit q_cfg n = true -> Z.testbit cfgr n = true) /\
       (forall n, 0 <= n <= 7 -> Z.testbit q_cid n = true -> Z.testbit cidcfgr n = true) /\
       (forall n, 16 <= n <= 23 -> Z.testbit q_cid n = true -> Z.testbit cidcfgr n = true)) /\
    (code <> TEE_SUCCESS -> code = TEE_ERROR_ACCESS_DENIED).
Proof.
  intros id_ q_cfg q_cid cfgr_a cid_a rd_cfgr cfgr rd_cid cidcfgr Hid0 Hidn.
  unfold Risaf.stm32_risaf_check_access. fold id_ q_cfg q_cid.
  replace (id_ =? 0) with false by (symmetry; apply Z.eqb_neq; assumption).
  replace (Risaf.nregions (Risaf.pdata risaf) <=? id_) with false
    by (symmetry; apply Z.leb_gt; lia).
  cbn [orb is_error TEE_Result_eqb negb].
  unfold io_read32. cbn [bind run]. fold cfgr_a cid_a.
  subst cfgr cidcfgr. destruct rd_cfgr as [x1 s1] eqn:E1. subst rd_cfgr. rewrite E1.
  cbn [fst snd] in *. destruct rd_cid as [x2 s2] eqn:E2. subst rd_cid. rewrite E2.
  cbn [fst snd] in *.
  unfold Risaf._RISAF_REG_CFGR_BREN, Risaf._RISAF_REG_CFGR_SEC,
    Risaf._RISAF_REG_CFGR_SEC_SHIFT, Risaf._RISAF_REG_CFGR_PRIVC_MASK,
    Risaf._RISAF_REG_CIDCFGR_RDENC_MASK, Risaf._RISAF_REG_CIDCFGR_WRENC_MASK.
  rewrite (nz_land_BIT (wrap32 x1) 0), (nz_land_BIT (wrap32 x1) 8),
    (nz_land_BIT q_cfg 8) by lia.
  pose proof (masked_subset q_cfg (wrap32 x1) 23 16 ltac:(lia) ltac:(lia)) as Hp.
  pose proof (masked_subset q_cid (wrap32 x2) 7 0 ltac:(lia) ltac:(lia)) as Hr.
  pose proof (masked_subset q_cid (wrap32 x2) 23 16 ltac:(lia) ltac:(lia)) as Hw.
  destruct (Z.land q_cfg (GENMASK_32 23 16)
            =? Z.land (wrap32 x1) (Z.land q_cfg (GENMASK_32 23 16)));
    destruct (Z.land q_cid (GENMASK_32 7 0)
              =? Z.land (wrap32 x2) (Z.land q_cid (GENMASK_32 7 0)));
    destruct (Z.land q_cid (GENMASK_32 23 16)
              =? Z.land (wrap32 x2) (Z.land q_cid (GENMASK_32 23 16)));
    destruct (Z.testbit (wrap32 x1) 0); destruct (Z.testbit (wrap32 x1) 8);
    destruct (Z.testbit q_cfg 8); destruct is_tdcid;
    cbn [negb andb orb]; cbn [run]; eexists; (split; [reflexivity|]);
    (split; [|intros; try congruence; try reflexivity]);
    (split; [intros; try discriminate | intros (H1 & H2 & H3 & H4 & H5)]);
    try (repeat split; intros; try tauto; try discriminate;
         try (apply (proj1 Hp eq_refl); assumption);
         try (apply (proj1 Hr eq_refl); assumption);
         try (apply (proj1 Hw eq_refl); assumption); fail);
    try reflexivity;
    try (destruct H1; discriminate);
    try (specialize (H2 eq_refl); discriminate);
    try (apply Hp in H3; discriminate);
    try (apply Hr in H4; discriminate);
    try (apply Hw in H5; discriminate).
Qed.

Lemma risaf_check_access_rule_witness :
  let b := Risaf.sample_bindings in
  let d := regfile in
  let s : hw regfile :=
    fun a => if a =? 0x420D0040 then 0x101 else if a =? 0x420D004C then 0x20002 else 0 in
  let is_tdcid := false in
  let risaf := Risaf.sample_risaf in
  let q_config := 0x02020031 in
  let id_ := Risaf._RISAF_GET_REGION_ID b q_config in
  let q_cfg := Risaf._RISAF_GET_REGION_CFG b q_config in
  let q_cid := Risaf._RISAF_GET_REGION_CID_CFG b q_config in
  let cfgr_a := Risaf.risaf_base risaf + Risaf._RISAF_REG_CFGR id_ in
  let cid_a := Risaf.risaf_base risaf + Risaf._RISAF_REG_CIDCFGR id_ in
  let rd_cfgr := hw_read d s cfgr_a in
  let cfgr := wrap32 (fst rd_cfgr) in
  let rd_cid := hw_read d (snd rd_cfgr) cid_a in
  let cidcfgr := wrap32 (fst rd_cid) in
  exists code,
    run d (Risaf.stm32_risaf_check_access b is_tdcid TEE_SUCCESS risaf [q_config]) s
    = (Done code, snd rd_cid, [EvRead cfgr_a cfgr; EvRead cid_a cidcfgr]) /\
    (code = TEE_SUCCESS <->
       (Z.testbit cfgr 0 = true \/ is_tdcid = true) /\
       (Z.testbit q_cfg 8 = true -> Z.testbit cfgr 8 = true) /\
       (forall n, 16 <= n <= 23 -> Z.testbit q_cfg n = true -> Z.testbit cfgr n = true) /\
       (forall n, 0 <= n <= 7 -> Z.testbit q_cid n = true -> Z.testbit cidcfgr n = true) /\
       (forall n, 16 <= n <= 23 -> Z.testbit q_cid n = true -> Z.testbit cidcfgr n = true)) /\
    (code <> TEE_SUCCESS -> code = TEE_ERROR_ACCESS_DENIED).
Proof.
  apply (risaf_check_access_rule Risaf.sample_bindings regfile
           (fun a => if a =? 0x420D0040 then 0x101
                     else if a =? 0x420D004C then 0x20002 else 0)
           false Risaf.sample_risaf 0x02020031).
  - vm_compute. discriminate.
  - vm_compute. reflexivity.
Defined.

(** ** [stm32_risaf.c]: the grain and the address mask *)

(** X24. What [stm32_risaf_init_ddata] makes of the hardware-configuration
    register when both of its reads return the same word, whose field
    23..16 is [lsb] and whose field 31..24 is a [width] of at least 1 with
    [lsb + width <= 32]: the granularity is [2 ^ lsb], never zero, the
    address mask is the bits [lsb .. lsb+width-1], and the two agree: an
    offset below [2 ^ (lsb+width)] that is a multiple of the granularity
    goes through the mask unchanged, so a region that passes the
    granularity check is programmed at exactly its offset. *)
Theorem risaf_init_ddata_grain (d : device) (s : hw d) (risaf_base_ : Z) :
  let a := risaf_base_ + Risaf._RISAF_HWCFGR in
  let rd1 := hw_read d s a in
  let rd2 := hw_read d (snd rd1) a in
  let v := wrap32 (fst rd1) in
  let lsb := (v / 2 ^ 16) mod 2 ^ 8 in
  let width := (v / 2 ^ 24) mod 2 ^ 8 in
  wrap32 (fst rd2) = v -> 1 <= width -> lsb + width <= 32 ->
  exists dd,
    run d (Risaf.stm32_risaf_init_ddata risaf_base_) s
    = (Done dd, snd rd2, [EvRead a v; EvRead a v]) /\
    Risaf.granularity dd = 2 ^ lsb /\
    Risaf.mask_regions dd = 2 ^ (lsb + width) - 2 ^ lsb /\
    Risaf.max_base_regions dd = v mod 2 ^ 8 /\
    forall x, 0 <= x < 2 ^ (lsb + width) -> (Risaf.granularity dd | x) ->
      Z.land x (Risaf.mask_regions dd) = x.
Proof.
  intros a rd1 rd2 v lsb width Hsame Hw Hsum.
  unfold Risaf.stm32_risaf_init_ddata, io_read32. cbn [bind run]. fold a.
  subst v. destruct rd1 as [x1 s1] eqn:E1. subst rd1. rewrite E1. cbn [fst snd] in *.
  destruct rd2 as [x2 s2] eqn:E2. subst rd2. rewrite E2. cbn [fst snd] in *.
  rewrite Hsame. set (v := wrap32 x1) in *.
  assert (Hv : in_u32 v) by apply wrap32_range.
  assert (F : forall h l, 0 <= l -> l <= h -> h < 32 ->
            Z.shiftr (Z.land v (GENMASK_32 h l)) l = (v / 2 ^ l) mod 2 ^ (h - l + 1)).
  { intros h l H0 H1 H2. rewrite <- (fld_get_spec h l v H0 H1 H2 Hv).
    unfold _RIF_FLD_GET. rewrite (wrap32_u32 v Hv). reflexivity. }
  unfold Risaf._RISAF_HWCFGR_CFG1_MASK, Risaf._RISAF_HWCFGR_CFG1_SHIFT,
    Risaf._RISAF_HWCFGR_CFG3_MASK, Risaf._RISAF_HWCFGR_CFG3_SHIFT,
    Risaf._RISAF_HWCFGR_CFG4_MASK, Risaf._RISAF_HWCFGR_CFG4_SHIFT.
  rewrite !F by lia.
  change (23 - 16 + 1) with 8. change (31 - 24 + 1) with 8. change (7 - 0 + 1) with 8.
  rewrite Z.pow_0_r, Z.div_1_r. fold lsb width.
  assert (Hl : 0 <= lsb < 2 ^ 8) by (apply Z.mod_pos_bound; lia).
  rewrite (wrap32_u32 (lsb + width)) by (unfold in_u32; lia).
  rewrite (wrap32_u32 (lsb + width - 1)) by (unfold in_u32; lia).
  eexists. split; [reflexivity|]. cbn [Risaf.granularity Risaf.mask_regions
    Risaf.max_base_regions].
  assert (Hg : BIT lsb = 2 ^ lsb).
  { unfold BIT, wrap32. rewrite Z.shiftl_1_l. apply Z.mod_small.
    split; [apply Z.pow_nonneg; lia | apply Z.pow_lt_mono_r; lia]. }
  assert (Hm : GENMASK_32 (lsb + width - 1) lsb = 2 ^ (lsb + width) - 2 ^ lsb).
  { rewrite GENMASK_32_value by lia. f_equal. f_equal. lia. }
  split; [exact Hg|]. split; [exact Hm|]. split; [reflexivity|].
  intros x Hx [k Hk]. rewrite Hg in Hk.
  apply Z.bits_inj'. intros n Hn.
  rewrite Z.land_spec, GENMASK_32_testbit by lia.
  destruct (Z.leb_spec lsb n); destruct (Z.leb_spec n (lsb + width - 1)); cbn [andb];
    rewrite ?andb_true_r, ?andb_false_r; try reflexivity; symmetry.
  - apply (testbit_above x (lsb + width) n); lia.
  - rewrite Hk. apply Z.mul_pow2_bits_low. lia.
  - rewrite Hk. apply Z.mul_pow2_bits_low. lia.
Qed.

Lemma risaf_init_ddata_grain_witness :
  let d := regfile in
  let s : hw regfile := fun a => if a =? 0x420D0FF0 then 0x100C0004 else 0 in
  let a := 0x420D0000 + Risaf._RISAF_HWCFGR in
  let rd1 := hw_read d s a in
  let rd2 := hw_read d (snd rd1) a in
  let v := wrap32 (fst rd1) in
  let lsb := (v / 2 ^ 16) mod 2 ^ 8 in
  let width := (v / 2 ^ 24) mod 2 ^ 8 in
  exists dd,
    run d (Risaf.stm32_risaf_init_ddata 0x420D0000) s
    = (Done dd, snd rd2, [EvRead a v; EvRead a v]) /\
    Risaf.granularity dd = 2 ^ lsb /\
    Risaf.mask_regions dd = 2 ^ (lsb + width) - 2 ^ lsb /\
    Risaf.max_base_regions dd = v mod 2 ^ 8 /\
    forall x, 0 <= x < 2 ^ (lsb + width) -> (Risaf.granularity dd | x) ->
      Z.land x (Risaf.mask_regions dd) = x.
Proof.
  apply (risaf_init_ddata_grain regfile
           (fun a => if a =? 0x420D0FF0 then 0x100C0004 else 0) 0x420D0000).
  - reflexivity.
  - vm_compute. discriminate.
  - vm_compute. discriminate.
Defined.

(** ** [stm32_risaf.c]: reconfiguring a region *)

(** X25. [stm32_risaf_reconfigure_region] never moves a region. On every
    device a request is refused without any register access when the
    region id is 0 or not below the number of regions
    ([TEE_ERROR_BAD_PARAMETERS]), when no table entry carries the id
    ([TEE_ERROR_ITEM_NOT_FOUND]), when the address or the size differ from
    the first entry that carries it ([TEE_ERROR_GENERIC]), or when the
    clock cannot be enabled. In the one remaining case the run is that of
    [risaf_configure_region] on the table's own range with the attributes
    of the query. *)
Theorem risaf_reconfigure_region_rule (b : Risaf.risaf_bindings) (clk_res : TEE_Result)
  (risaf : Risaf.stm32_risaf_instance) (q_config paddr size : Z) (d : device) (s : hw d) :
  let id_ := Risaf._RISAF_GET_REGION_ID b q_config in
  let r := run d (Risaf.stm32_risaf_reconfigure_region b clk_res risaf [q_config]
                    paddr size) s in
  let refused code := r = (Done code, s, []) in
  if (id_ =? 0) || (Risaf.nregions (Risaf.pdata risaf) <=? id_)
  then refused TEE_ERROR_BAD_PARAMETERS
  else match Risaf.region_with_id b risaf id_ with
       | None => refused TEE_ERROR_ITEM_NOT_FOUND
       | Some region =>
           In region (Risaf.regions (Risaf.pdata risaf)) /\
           Risaf._RISAF_GET_REGION_ID b (Risaf.cfg region) = id_ /\
           if (Risaf.addr region =? paddr) && (Risaf.len region =? size)
           then if is_error clk_res then refused clk_res
                else r = run d (Risaf.risaf_configure_region b risaf id_
                                  (Risaf._RISAF_GET_REGION_CFG b q_config)
                                  (Risaf._RISAF_GET_REGION_CID_CFG b q_config)
                                  paddr (Risaf.wrap64 (Risaf.wrap64 (paddr + size) - 1))) s
           else refused TEE_ERROR_GENERIC
       end.
Proof.
  intros id_ r refused. subst r refused. cbv beta.
  unfold Risaf.stm32_risaf_reconfigure_region. fold id_.
  destruct ((id_ =? 0) || (Risaf.nregions (Risaf.pdata risaf) <=? id_)); [reflexivity|].
  destruct (Risaf.region_with_id b risaf id_) as [region|] eqn:Ef; [|reflexivity].
  unfold Risaf.region_with_id in Ef. apply find_some in Ef as [Hin Hid].
  split.
  { apply list_elem_of_In. apply list_elem_of_In in Hin.
    apply list_elem_of_lookup_1 in Hin as (k & Hk).
    apply (list_elem_of_lookup_2 _ k).
    destruct (Nat.lt_ge_cases k (Z.to_nat (Risaf.nregions (Risaf.pdata risaf)))) as [Hlt|Hge].
    - rewrite lookup_take_lt in Hk by assumption. assumption.
    - rewrite lookup_take_ge in Hk by assumption. discriminate. }
  split; [apply Z.eqb_eq in Hid; auto|].
  destruct (Z.eqb_spec (Risaf.addr region) paddr) as [Ea|Ea];
    destruct (Z.eqb_spec (Risaf.len region) size) as [El|El]; cbn [negb andb orb];
    try reflexivity.
  destruct (is_error clk_res); [reflexivity|]. rewrite Ea, El. reflexivity.
Qed.

(** ** [stm32_etzpc.c]: the DECPROT field of a peripheral *)

Lemma not32_testbit x n :
  0 <= n -> Z.testbit (not32 x) n = (n <? 32) && negb (Z.testbit x n).
Proof.
  intros Hn. unfold not32. rewrite Z.lxor_spec, wrap32_testbit by lia.
  change 0xFFFFFFFF with (Z.ones 32).
  destruct (Z.ltb_spec n 32).
  - rewrite Z.ones_spec_low by lia. cbn [andb]. destruct (Z.testbit x n); reflexivity.
  - rewrite Z.ones_spec_high by lia. reflexivity.
Qed.

Lemma testbit_3 n : Z.testbit 3 n = (0 <=? n) && (n <=? 1).
Proof.
  destruct (Z.leb_spec 0 n); [|rewrite Z.testbit_neg_r by lia; reflexivity].
  destruct (Z.leb_spec n 1).
  - assert (n = 0 \/ n = 1) as [-> | ->] by lia; reflexivity.
  - change 3 with (Z.ones 2). rewrite Z.ones_spec_high by lia. reflexivity.
Qed.

(** A two-bit field written into a word at an even position. *)
Lemma field2_insert v sh a n :
  0 <= sh <= 30 -> 0 <= a < 4 -> 0 <= n ->
  Z.testbit (Z.lor (Z.land v (not32 (wrap32 (Z.shiftl 3 sh)))) (wrap32 (Z.shiftl a sh))) n
  = if (sh <=? n) && (n <=? sh + 1) then Z.testbit a (n - sh)
    else (n <? 32) && Z.testbit v n.
Proof.
  intros Hsh Ha Hn.
  rewrite Z.lor_spec, Z.land_spec, not32_testbit, !wrap32_testbit, !Z.shiftl_spec by lia.
  rewrite testbit_3.
  destruct (Z.leb_spec sh n); destruct (Z.leb_spec n (sh + 1)); cbn [andb].
  - replace (n <? 32) with true by (symmetry; apply Z.ltb_lt; lia).
    replace (0 <=? n - sh) with true by (symmetry; apply Z.leb_le; lia).
    replace (n - sh <=? 1) with true by (symmetry; apply Z.leb_le; lia).
    destruct (Z.testbit v n), (Z.testbit a (n - sh)); reflexivity.
  - replace (n - sh <=? 1) with false by (symmetry; apply Z.leb_gt; lia).
    rewrite (testbit_above a 2 (n - sh)) by lia.
    destruct (n <? 32), (Z.testbit v n), (0 <=? n - sh); reflexivity.
  - rewrite (Z.testbit_neg_r a (n - sh)) by lia.
    replace (0 <=? n - sh) with false by (symmetry; apply Z.leb_gt; lia).
    destruct (n <? 32), (Z.testbit v n), (n - sh <=? 1); reflexivity.
  - lia.
Qed.

Lemma field2_get x s :
  0 <= s ->
  Z.land (Z.shiftr x s) 3 = Z.b2z (Z.testbit x s) + 2 * Z.b2z (Z.testbit x (s + 1)).
Proof.
  intros Hs. change 3 with (Z.ones 2). rewrite Z.land_ones by lia.
  pose proof (Z.testbit_spec' (Z.shiftr x s) 0 ltac:(lia)) as H0.
  pose proof (Z.testbit_spec' (Z.shiftr x s) 1 ltac:(lia)) as H1.
  rewrite !Z.shiftr_spec in H0, H1 by lia.
  change (0 + s) with s in H0. rewrite (Z.add_comm 1 s) in H1.
  rewrite H0, H1. change (2 ^ 0) with 1. change (2 ^ 1) with 2. rewrite Z.div_1_r.
  change (2 ^ 2) with 4.
  set (y := Z.shiftr x s).
  pose proof (Z.div_mod y 2 ltac:(lia)). pose proof (Z.div_mod (y / 2) 2 ltac:(lia)).
  pose proof (Z.mod_pos_bound y 2 ltac:(lia)).
  pose proof (Z.mod_pos_bound (y / 2) 2 ltac:(lia)).
  pose proof (Z.div_mod y 4 ltac:(lia)). pose proof (Z.mod_pos_bound y 4 ltac:(lia)).
  assert (y / 2 / 2 = y / 4) by (rewrite Z.div_div by lia; reflexivity).
  lia.
Qed.

Lemma decprot_shift_range i : 0 <= Etzpc.decprot_shift i <= 30 /\
  Etzpc.decprot_shift i = 2 * (i mod 16).
Proof.
  unfold Etzpc.decprot_shift, Etzpc.IDS_PER_DECPROT_REGS, Etzpc.DECPROT_SHIFT.
  pose proof (Z.mod_pos_bound i 16 ltac:(lia)).
  rewrite Z.shiftl_mul_pow2 by lia. change (2 ^ 1) with 2.
  rewrite wrap32_u32 by (unfold in_u32; lia). lia.
Qed.

Lemma attr_of_to_Z attr :
  attr <> Etzpc.ETZPC_DECPROT_MAX ->
  Etzpc.attr_of_Z (Z.land (Etzpc.attr_to_Z attr) Etzpc.ETZPC_DECPROT0_MASK) = attr /\
  0 <= Z.land (Etzpc.attr_to_Z attr) Etzpc.ETZPC_DECPROT0_MASK < 4.
Proof. destruct attr; intros H; try contradiction; vm_compute; intuition discriminate. Qed.

(** The register that a DECPROT write leaves behind, bit by bit. *)
Lemma decprot_word_written v id_ a n :
  0 <= a < 4 -> 0 <= n ->
  let sh := Etzpc.decprot_shift id_ in
  Z.testbit (Z.lor (Z.land v (not32 (wrap32 (Z.shiftl Etzpc.ETZPC_DECPROT0_MASK sh))))
                   (wrap32 (Z.shiftl a sh))) n
  = if (sh <=? n) && (n <=? sh + 1) then Z.testbit a (n - sh)
    else (n <? 32) && Z.testbit v n.
Proof.
  intros Ha Hn sh. apply field2_insert; [apply decprot_shift_range | assumption | assumption].
Qed.

Lemma decprot_word_u32 v id_ a :
  in_u32 v -> 0 <= a < 4 ->
  in_u32 (Z.lor (Z.land v (not32 (wrap32 (Z.shiftl Etzpc.ETZPC_DECPROT0_MASK
                                            (Etzpc.decprot_shift id_)))))
                (wrap32 (Z.shiftl a (Etzpc.decprot_shift id_)))).
Proof.
  intros Hv Ha. apply u32_of_bits.
  - apply Z.lor_nonneg. split.
    + apply Z.land_nonneg. left. apply Hv.
    + apply wrap32_range.
  - intros n Hn. rewrite decprot_word_written by lia.
    destruct (decprot_shift_range id_) as [Hr _].
    replace (n <=? Etzpc.decprot_shift id_ + 1) with false by (symmetry; apply Z.leb_gt; lia).
    rewrite andb_false_r.
    replace (n <? 32) with false by (symmetry; apply Z.ltb_ge; lia). reflexivity.
Qed.

(** What a DECPROT write does to a register file: the field of the
    peripheral, the fields of the others, the other registers. *)
Lemma configure_word_regfile dev (m : hw regfile) id_ a :
  0 <= id_ ->
  let m1 := snd (fst (run regfile (Etzpc.etzpc_do_configure_decprot_word dev id_ a) m)) in
  fst (fst (run regfile (Etzpc.etzpc_do_configure_decprot_word dev id_ a) m)) = Done tt /\
  Etzpc.decprot_field dev m1 id_ = Z.land a Etzpc.ETZPC_DECPROT0_MASK /\
  (forall i, 0 <= i -> i <> id_ -> Etzpc.decprot_field dev m1 i = Etzpc.decprot_field dev m i) /\
  (forall x, x <> Etzpc.decprot_addr dev id_ -> m1 x = m x).
Proof.
  intros Hid m1.
  set (f := Z.land a Etzpc.ETZPC_DECPROT0_MASK).
  assert (Ha : 0 <= f < 4).
  { subst f. change Etzpc.ETZPC_DECPROT0_MASK with (Z.ones 2).
    rewrite Z.land_ones by lia. apply Z.mod_pos_bound. lia. }
  set (A := Etzpc.decprot_addr dev id_).
  set (v := wrap32 (m A)).
  set (new := Z.lor (Z.land v (not32 (wrap32 (Z.shiftl Etzpc.ETZPC_DECPROT0_MASK
                                                 (Etzpc.decprot_shift id_)))))
                    (wrap32 (Z.shiftl f (Etzpc.decprot_shift id_)))).
  assert (Hm1 : forall x, m1 x = if x =? A then new else m x) by reflexivity.
  assert (Hnew : in_u32 new) by (apply decprot_word_u32; [apply wrap32_range | exact Ha]).
  destruct (decprot_shift_range id_) as [Hsh Hsh2].
  split; [reflexivity|]. split; [|split].
  - unfold Etzpc.decprot_field. rewrite Hm1. fold A.
    rewrite Z.eqb_refl, (wrap32_u32 new Hnew).
    change Etzpc.ETZPC_DECPROT0_MASK with 3 at 1. rewrite field2_get by lia.
    unfold new. rewrite !decprot_word_written by lia.
    replace (Etzpc.decprot_shift id_ <=? Etzpc.decprot_shift id_) with true
      by (symmetry; apply Z.leb_le; lia).
    replace (Etzpc.decprot_shift id_ <=? Etzpc.decprot_shift id_ + 1) with true
      by (symmetry; apply Z.leb_le; lia).
    replace (Etzpc.decprot_shift id_ + 1 <=? Etzpc.decprot_shift id_ + 1) with true
      by (symmetry; apply Z.leb_le; lia).
    cbn [andb].
    replace (Etzpc.decprot_shift id_ - Etzpc.decprot_shift id_) with 0 by lia.
    replace (Etzpc.decprot_shift id_ + 1 - Etzpc.decprot_shift id_) with 1 by lia.
    assert (f = 0 \/ f = 1 \/ f = 2 \/ f = 3) as [-> | [-> | [-> | ->]]] by lia; reflexivity.
  - intros i Hi Hne. unfold Etzpc.decprot_field. rewrite Hm1.
    destruct (Z.eqb_spec (Etzpc.decprot_addr dev i) A) as [E|E]; [|reflexivity].
    rewrite (wrap32_u32 new Hnew), E. fold v.
    change Etzpc.ETZPC_DECPROT0_MASK with 3.
    destruct (decprot_shift_range i) as [Hshi Hshi2].
    rewrite !field2_get by lia.
    assert (Hd : Etzpc.decprot_shift i + 2 <= Etzpc.decprot_shift id_ \/
                 Etzpc.decprot_shift id_ + 2 <= Etzpc.decprot_shift i).
    { unfold A, Etzpc.decprot_addr, Etzpc.IDS_PER_DECPROT_REGS in E.
      pose proof (Z.div_mod i 16 ltac:(lia)). pose proof (Z.div_mod id_ 16 ltac:(lia)).
      pose proof (Z.mod_pos_bound i 16 ltac:(lia)).
      pose proof (Z.mod_pos_bound id_ 16 ltac:(lia)). lia. }
    unfold new. rewrite !decprot_word_written by lia.
    replace ((Etzpc.decprot_shift id_ <=? Etzpc.decprot_shift i)
             && (Etzpc.decprot_shift i <=? Etzpc.decprot_shift id_ + 1)) with false
      by (symmetry; apply andb_false_iff; rewrite Z.leb_gt, Z.leb_gt; lia).
    replace ((Etzpc.decprot_shift id_ <=? Etzpc.decprot_shift i + 1)
             && (Etzpc.decprot_shift i + 1 <=? Etzpc.decprot_shift id_ + 1)) with false
      by (symmetry; apply andb_false_iff; rewrite Z.leb_gt, Z.leb_gt; lia).
    replace (Etzpc.decprot_shift i <? 32) with true by (symmetry; apply Z.ltb_lt; lia).
    replace (Etzpc.decprot_shift i + 1 <? 32) with true by (symmetry; apply Z.ltb_lt; lia).
    reflexivity.
  - intros x Hx. rewrite Hm1. rewrite (proj2 (Z.eqb_neq x A) Hx). reflexivity.
Qed.

Lemma get_decprot_regfile dev i (s : hw regfile) :
  run regfile (Etzpc.etzpc_do_get_decprot dev i) s
  = (Done (Etzpc.attr_of_Z (Etzpc.decprot_field dev s i)), s,
     [EvRead (Etzpc.decprot_addr dev i) (wrap32 (s (Etzpc.decprot_addr dev i)))]).
Proof. reflexivity. Qed.

(** X26. On a register file, configuring the DECPROT attribute of a
    peripheral and reading it back is a round trip: the attribute read is
    the one written, every other peripheral reads as it did before, and
    no other register changes. *)
Theorem etzpc_decprot_round_trip (dev : Etzpc.etzpc_device) (m : hw regfile) (id_ : Z)
  (attr : Etzpc.etzpc_decprot_attributes) :
  0 <= id_ -> attr <> Etzpc.ETZPC_DECPROT_MAX ->
  let m1 := snd (fst (run regfile (Etzpc.etzpc_do_configure_decprot dev id_ attr) m)) in
  let get i s := fst (fst (run regfile (Etzpc.etzpc_do_get_decprot dev i) s)) in
  get id_ m1 = Done attr /\
  (forall i, 0 <= i -> i <> id_ -> get i m1 = get i m) /\
  (forall a, a <> Etzpc.decprot_addr dev id_ -> m1 a = m a).
Proof.
  intros Hid Hattr m1 get.
  destruct (attr_of_to_Z attr Hattr) as [Hrt _].
  destruct (configure_word_regfile dev m id_ (Etzpc.attr_to_Z attr) Hid)
    as (_ & Hf & Hother & Hframe).
  change (snd (fst (run regfile
            (Etzpc.etzpc_do_configure_decprot_word dev id_ (Etzpc.attr_to_Z attr)) m)))
    with m1 in Hf, Hother, Hframe.
  subst get. cbv beta. split; [|split].
  - rewrite get_decprot_regfile. cbn [fst]. rewrite Hf, Hrt. reflexivity.
  - intros i Hi Hne. rewrite !get_decprot_regfile. cbn [fst].
    rewrite (Hother i Hi Hne). reflexivity.
  - exact Hframe.
Qed.

Lemma etzpc_decprot_round_trip_witness :
  let dev := Etzpc.sample_device in
  let m : hw regfile := fun _ => 0xFFFFFFFF in
  let id_ := 5 in
  let attr := Etzpc.ETZPC_DECPROT_NS_R_S_W in
  let m1 := snd (fst (run regfile (Etzpc.etzpc_do_configure_decprot dev id_ attr) m)) in
  let get i s := fst (fst (run regfile (Etzpc.etzpc_do_get_decprot dev i) s)) in
  get id_ m1 = Done attr /\
  (forall i, 0 <= i -> i <> id_ -> get i m1 = get i m) /\
  (forall a, a <> Etzpc.decprot_addr dev id_ -> m1 a = m a).
Proof.
  apply (etzpc_decprot_round_trip Etzpc.sample_device (fun _ => 0xFFFFFFFF) 5
           Etzpc.ETZPC_DECPROT_NS_R_S_W).
  - lia.
  - discriminate.
Defined.

(** ** [stm32_etzpc.c]: configuring, then checking *)

Lemma binding2decprot_not_max pf mode attr :
  Etzpc.etzpc_binding2decprot pf mode = Ret attr -> attr <> Etzpc.ETZPC_DECPROT_MAX.
Proof.
  unfold Etzpc.etzpc_binding2decprot.
  destruct (mode =? Etzpc.DECPROT_S_RW pf); [intros [= <-]; discriminate|].
  destruct (mode =? Etzpc.DECPROT_NS_R_S_W pf); [intros [= <-]; discriminate|].
  destruct (Etzpc.mp15 pf && (mode =? Etzpc.DECPROT_MCU_ISOLATION pf));
    [intros [= <-]; discriminate|].
  destruct (mode =? Etzpc.DECPROT_NS_RW pf); [intros [= <-]; discriminate|].
  discriminate.
Qed.

Lemma attr_eqb_refl a : Etzpc.attr_eqb a a = true.
Proof. unfold Etzpc.attr_eqb. apply Z.eqb_refl. Qed.

Lemma attr_eqb_eq a b : Etzpc.attr_eqb a b = true <-> a = b.
Proof. destruct a, b; vm_compute; split; intros; congruence. Qed.

(** The DECPROT and DECPROT_LOCK registers of the first 128 peripherals
    are apart. *)
Lemma decprot_lock_apart dev i j :
  0 <= i < 128 -> 0 <= j -> Etzpc.decprot_lock_addr dev j <> Etzpc.decprot_addr dev i.
Proof.
  unfold Etzpc.decprot_lock_addr, Etzpc.decprot_addr, Etzpc.IDS_PER_DECPROT_REGS,
    Etzpc.IDS_PER_DECPROT_LOCK_REGS, Etzpc.ETZPC_DECPROT0, Etzpc.ETZPC_DECPROT_LOCK0.
  intros Hi Hj.
  pose proof (Z.div_mod i 16 ltac:(lia)). pose proof (Z.mod_pos_bound i 16 ltac:(lia)).
  pose proof (Z.div_mod j 32 ltac:(lia)). pose proof (Z.mod_pos_bound j 32 ltac:(lia)).
  lia.
Qed.

(** X27. On a register file, a configuration request that
    [stm32_etzpc_configure] answers with success is one that
    [stm32_etzpc_check_access] grants afterwards, for at most 128
    securable peripherals (where the lock registers do not reach the
    DECPROT registers): whether the peripheral was locked with the
    requested attribute already in place, or was written and possibly
    locked by the request, it then reads back with the requested
    attribute. *)
Theorem etzpc_configure_then_check (pf : Etzpc.etzpc_platform) (dev : Etzpc.etzpc_device)
  (m : hw regfile) (arg0 : Z) (attr : Etzpc.etzpc_decprot_attributes) :
  let id_ := Z.land arg0 (Etzpc.ETZPC_ID_MASK pf) in
  let mode := Z.shiftr (Z.land arg0 (Etzpc.ETZPC_MODE_MASK pf)) (Etzpc.ETZPC_MODE_SHIFT pf) in
  let r := run regfile (Etzpc.stm32_etzpc_configure pf dev [arg0]) m in
  0 <= id_ -> id_ < Etzpc.num_per_sec dev -> Etzpc.num_per_sec dev <= 128 ->
  Etzpc.etzpc_binding2decprot pf mode = Ret attr ->
  fst (fst r) = Done TEE_SUCCESS ->
  fst (fst (run regfile (Etzpc.etzpc_do_get_decprot dev id_) (snd (fst r)))) = Done attr /\
  fst (fst (run regfile (Etzpc.stm32_etzpc_check_access pf dev [arg0]) (snd (fst r))))
  = Done TEE_SUCCESS.
Proof.
  intros id_ mode r Hid0 Hid Hnum Hbind Hok.
  pose proof (binding2decprot_not_max pf mode attr Hbind) as Hmax.
  assert (Hcheck : forall s : hw regfile,
            fst (fst (run regfile (Etzpc.etzpc_do_get_decprot dev id_) s)) = Done attr ->
            fst (fst (run regfile (Etzpc.stm32_etzpc_check_access pf dev [arg0]) s))
            = Done TEE_SUCCESS).
  { intros s Hget. unfold Etzpc.stm32_etzpc_check_access. fold id_ mode.
    rewrite Hbind. cbn [bind]. rewrite (proj2 (Z.ltb_lt _ _) Hid).
    rewrite run_bind, get_decprot_regfile. rewrite get_decprot_regfile in Hget.
    cbn [fst] in Hget. inversion Hget as [Hattr]. rewrite Hattr.
    rewrite attr_eqb_refl. reflexivity. }
  assert (Hget : fst (fst (run regfile (Etzpc.etzpc_do_get_decprot dev id_) (snd (fst r))))
                 = Done attr); [|split; [exact Hget | apply Hcheck; exact Hget]].
  destruct (configure_word_regfile dev m id_ (Etzpc.attr_to_Z attr) Hid0) as (_ & Hf & _ & _).
  destruct (attr_of_to_Z attr Hmax) as [Hat _].
  change (Etzpc.etzpc_do_configure_decprot_word dev id_ (Etzpc.attr_to_Z attr))
    with (Etzpc.etzpc_do_configure_decprot dev id_ attr) in Hf.
  assert (Hrt : @Done Etzpc.etzpc_decprot_attributes (Etzpc.attr_of_Z (Etzpc.decprot_field dev
                  (snd (fst (run regfile (Etzpc.etzpc_do_configure_decprot dev id_ attr) m)))
                  id_)) = Done attr) by (rewrite Hf, Hat; reflexivity).
  clear Hf.
  subst r. rewrite get_decprot_regfile. cbn [fst].
  unfold Etzpc.decprot_field in Hrt |- *.
  unfold Etzpc.stm32_etzpc_configure in Hok |- *. fold id_ mode in Hok |- *.
  rewrite (proj2 (Z.ltb_lt _ _) Hid), Hbind in Hok |- *.
  unfold Etzpc.configure_decprot_unless_locked, Etzpc.decprot_is_locked,
    Etzpc.etzpc_do_lock_decprot, io_read32, io_write32 in Hok |- *.
  cbn [bind run regfile hw_read hw hw_write fst snd app] in Hok |- *.
  destruct (nz (Z.land (wrap32 (m (Etzpc.decprot_lock_addr dev id_)))
                  (BIT (id_ mod Etzpc.IDS_PER_DECPROT_LOCK_REGS)))).
  - unfold Etzpc.etzpc_do_get_decprot, io_read32 in Hok |- *.
    cbn [bind run regfile hw_read hw hw_write fst snd app] in Hok |- *.
    destruct (Etzpc.attr_eqb _ attr) eqn:Eeq; cbn [negb run fst snd] in Hok |- *;
      [|discriminate].
    f_equal. apply attr_eqb_eq. exact Eeq.
  - destruct (Etzpc.mp15 pf && negb (Etzpc.pager_permits_decprot_config pf id_ attr));
      [cbn [run fst] in Hok; discriminate|].
    clear Hok. rewrite !run_bind.
    destruct (run regfile (Etzpc.etzpc_do_configure_decprot dev id_ attr) m)
      as [[res1 m1] t1] eqn:E1.
    assert (res1 = Done tt) as ->.
    { revert E1. unfold Etzpc.etzpc_do_configure_decprot, io_clrsetbits32, io_read32,
        io_write32. cbn [bind run regfile hw_read hw hw_write]. intros [= <- _ _].
      reflexivity. }
    cbn [fst snd] in Hrt. cbv beta iota.
    destruct (nz (Z.land arg0 (Etzpc.ETZPC_LOCK_MASK pf))); cbn [when].
    + cbn [bind run regfile hw_read hw hw_write fst snd app].
      rewrite (proj2 (Z.eqb_neq _ _)
                 (not_eq_sym (decprot_lock_apart dev id_ id_ ltac:(lia) Hid0))).
      exact Hrt.
    + cbn [bind run fst snd app]. exact Hrt.
Qed.

Lemma etzpc_configure_then_check_witness :
  let pf := Etzpc.sample_platform in
  let dev := Etzpc.sample_device in
  let m : hw regfile := fun _ => 0 in
  let arg0 := 0x10105 in
  let id_ := Z.land arg0 (Etzpc.ETZPC_ID_MASK pf) in
  let r := run regfile (Etzpc.stm32_etzpc_configure pf dev [arg0]) m in
  fst (fst (run regfile (Etzpc.etzpc_do_get_decprot dev id_) (snd (fst r))))
  = Done Etzpc.ETZPC_DECPROT_NS_R_S_W /\
  fst (fst (run regfile (Etzpc.stm32_etzpc_check_access pf dev [arg0]) (snd (fst r))))
  = Done TEE_SUCCESS.
Proof.
  apply (etzpc_configure_then_check Etzpc.sample_platform Etzpc.sample_device
           (fun _ => 0) 0x10105 Etzpc.ETZPC_DECPROT_NS_R_S_W).
  - vm_compute. discriminate.
  - vm_compute. reflexivity.
  - vm_compute. discriminate.
  - vm_compute. reflexivity.
  - vm_compute. reflexivity.
Defined.

(** ** [stm32_etzpc.c]: acquiring a peripheral *)

(** X28. [stm32_etzpc_acquire_access] against [stm32_etzpc_check_access]
    for a query that asks for a secure attribute (secure read-write, or
    non-secure read with secure write) on a valid peripheral, from the same
    device state: both read the DECPROT register of the peripheral once
    and write nothing. Acquiring succeeds exactly when the attribute read
    is one of those two and is [TEE_ERROR_ACCESS_DENIED] otherwise.
    Acquiring is the stricter of the two: whenever it succeeds the check
    succeeds, while a peripheral that reads non-secure read-write passes
    the check and is refused by the acquire. *)
Theorem etzpc_acquire_stricter_than_check (pf : Etzpc.etzpc_platform)
  (dev : Etzpc.etzpc_device) (d : device) (s : hw d) (arg0 : Z)
  (attr_req : Etzpc.etzpc_decprot_attributes) :
  let id_ := Z.land arg0 (Etzpc.ETZPC_ID_MASK pf) in
  let mode := Z.shiftr (Z.land arg0 (Etzpc.ETZPC_MODE_MASK pf)) (Etzpc.ETZPC_MODE_SHIFT pf) in
  let rd := hw_read d s (Etzpc.decprot_addr dev id_) in
  let attr := Etzpc.attr_of_Z (Z.land (Z.shiftr (wrap32 (fst rd)) (Etzpc.decprot_shift id_))
                                 Etzpc.ETZPC_DECPROT0_MASK) in
  let t := [EvRead (Etzpc.decprot_addr dev id_) (wrap32 (fst rd))] in
  id_ < Etzpc.num_per_sec dev ->
  Etzpc.etzpc_binding2decprot pf mode = Ret attr_req ->
  attr_req = Etzpc.ETZPC_DECPROT_S_RW \/ attr_req = Etzpc.ETZPC_DECPROT_NS_R_S_W ->
  exists code_a code_c,
    run d (Etzpc.stm32_etzpc_acquire_access pf dev [arg0]) s = (Done code_a, snd rd, t) /\
    run d (Etzpc.stm32_etzpc_check_access pf dev [arg0]) s = (Done code_c, snd rd, t) /\
    (code_a = TEE_SUCCESS <->
       attr = Etzpc.ETZPC_DECPROT_S_RW \/ attr = Etzpc.ETZPC_DECPROT_NS_R_S_W) /\
    (code_a <> TEE_SUCCESS -> code_a = TEE_ERROR_ACCESS_DENIED) /\
    (code_a = TEE_SUCCESS -> code_c = TEE_SUCCESS) /\
    (attr = Etzpc.ETZPC_DECPROT_NS_RW ->
       code_a = TEE_ERROR_ACCESS_DENIED /\ code_c = TEE_SUCCESS).
Proof.
  intros id_ mode rd attr t Hid Hbind Hreq.
  unfold Etzpc.stm32_etzpc_acquire_access, Etzpc.stm32_etzpc_check_access.
  fold id_ mode. rewrite Hbind. cbn [bind].
  rewrite (proj2 (Z.ltb_lt _ _) Hid).
  unfold Etzpc.etzpc_do_get_decprot, io_read32. cbn [bind run].
  subst t attr. destruct rd as [x s1] eqn:E. subst rd. rewrite E. cbn [fst snd].
  destruct (Etzpc.attr_of_Z _); destruct Hreq as [-> | ->]; cbn;
    do 2 eexists; (split; [reflexivity|]); (split; [reflexivity|]);
    repeat split; intros; try discriminate; try congruence; try tauto;
    try (intuition congruence).
Qed.

Lemma etzpc_acquire_stricter_than_check_witness :
  let pf := Etzpc.sample_platform in
  let dev := Etzpc.sample_device in
  let d := regfile in
  let s : hw regfile := fun a => if a =? 0x5C007010 then 0xC00 else 0 in
  let arg0 := 0x005 in
  let id_ := Z.land arg0 (Etzpc.ETZPC_ID_MASK pf) in
  let rd := hw_read d s (Etzpc.decprot_addr dev id_) in
  let attr := Etzpc.attr_of_Z (Z.land (Z.shiftr (wrap32 (fst rd)) (Etzpc.decprot_shift id_))
                                 Etzpc.ETZPC_DECPROT0_MASK) in
  let t := [EvRead (Etzpc.decprot_addr dev id_) (wrap32 (fst rd))] in
  exists code_a code_c,
    run d (Etzpc.stm32_etzpc_acquire_access pf dev [arg0]) s = (Done code_a, snd rd, t) /\
    run d (Etzpc.stm32_etzpc_check_access pf dev [arg0]) s = (Done code_c, snd rd, t) /\
    (code_a = TEE_SUCCESS <->
       attr = Etzpc.ETZPC_DECPROT_S_RW \/ attr = Etzpc.ETZPC_DECPROT_NS_R_S_W) /\
    (code_a <> TEE_SUCCESS -> code_a = TEE_ERROR_ACCESS_DENIED) /\
    (code_a = TEE_SUCCESS -> code_c = TEE_SUCCESS) /\
    (attr = Etzpc.ETZPC_DECPROT_NS_RW ->
       code_a = TEE_ERROR_ACCESS_DENIED /\ code_c = TEE_SUCCESS).
Proof.
  apply (etzpc_acquire_stricter_than_check Etzpc.sample_platform Etzpc.sample_device
           regfile (fun a => if a =? 0x5C007010 then 0xC00 else 0) 0x005
           Etzpc.ETZPC_DECPROT_S_RW).
  - vm_compute. reflexivity.
  - vm_compute. reflexivity.
  - left. reflexivity.
Defined.
(** *** [etzpc_pm]: what suspend saves and resume writes back *)

Lemma writes_of_app t1 t2 : writes_of (t1 ++ t2) = writes_of t1 ++ writes_of t2.
Proof. unfold writes_of. apply filter_app. Qed.

Lemma decprot_field_range dev (s : hw regfile) i : 0 <= Etzpc.decprot_field dev s i < 4.
Proof.
  unfold Etzpc.decprot_field. change Etzpc.ETZPC_DECPROT0_MASK with (Z.ones 2).
  rewrite Z.land_ones by lia. apply Z.mod_pos_bound. lia.
Qed.

Lemma pm_save_periph_regfile dev n (m : hw regfile) :
  exists c t, run regfile (Etzpc.pm_save_periph dev n) m = (Done c, m, t) /\
    writes_of t = [] /\
    Z.land (Z.land c Etzpc.PERIPH_PM_ATTR_MASK) Etzpc.ETZPC_DECPROT0_MASK
    = Etzpc.decprot_field dev m n.
Proof.
  eexists. eexists. split; [reflexivity|]. split; [reflexivity|].
  fold (Etzpc.decprot_field dev m n).
  pose proof (decprot_field_range dev m n) as Hf.
  assert (Etzpc.decprot_field dev m n = 0 \/ Etzpc.decprot_field dev m n = 1 \/
          Etzpc.decprot_field dev m n = 2 \/ Etzpc.decprot_field dev m n = 3)
    as [-> | [-> | [-> | ->]]] by lia;
    destruct (nz _); reflexivity.
Qed.

Lemma pm_save_tzma_regfile dev n (m : hw regfile) :
  exists c t, run regfile (Etzpc.pm_save_tzma dev n) m = (Done c, m, t) /\
    writes_of t = [] /\
    Z.land c Etzpc.TZMA_PM_VALUE_MASK mod 2 ^ 16
    = (wrap32 (m (Etzpc.tzma_addr dev n)) mod 2 ^ 16) mod 2 ^ 8 /\
    nz (Z.land c Etzpc.TZMA_PM_LOCK_BIT)
    = nz (Z.land (wrap32 (m (Etzpc.tzma_addr dev n))) Etzpc.ETZPC_TZMA0_SIZE_LOCK).
Proof.
  eexists. eexists. split; [reflexivity|]. split; [reflexivity|].
  set (cfg := (wrap32 (m (Etzpc.tzma_addr dev n)) mod 2 ^ 16) mod 2 ^ 8).
  assert (Hcfg : 0 <= cfg < 2 ^ 8) by (apply Z.mod_pos_bound; lia).
  change (2 ^ 8) with 256 in Hcfg.
  change Etzpc.TZMA_PM_VALUE_MASK with (Z.ones 10).
  assert (Hno : Z.land cfg (BIT 15) = 0).
  { rewrite land_BIT_cases by lia.
    rewrite (testbit_above cfg 8 15) by (change (2 ^ 8) with 256; lia). reflexivity. }
  destruct (nz (Z.land (wrap32 (m (Etzpc.tzma_addr dev n))) Etzpc.ETZPC_TZMA0_SIZE_LOCK)).
  - assert (Hor : Z.lor cfg Etzpc.TZMA_PM_LOCK_BIT = cfg + 32768).
    { unfold Etzpc.TZMA_PM_LOCK_BIT. rewrite <- Z.lxor_lor by exact Hno.
      rewrite <- Z.add_nocarry_lxor by exact Hno. reflexivity. }
    rewrite Hor. change (2 ^ 16) with 65536.
    rewrite (Z.mod_small (cfg + 32768) 65536) by lia.
    split.
    + rewrite Z.land_ones by lia. change (2 ^ 10) with 1024.
      replace (cfg + 32768) with (cfg + 32 * 1024) by lia.
      rewrite Z.mod_add by lia. rewrite (Z.mod_small cfg 1024) by lia.
      apply Z.mod_small. lia.
    + rewrite <- Hor. unfold Etzpc.TZMA_PM_LOCK_BIT.
      rewrite land_BIT_cases by lia. rewrite Z.lor_spec.
      replace (Z.testbit (BIT 15) 15) with true by reflexivity.
      rewrite orb_true_r. reflexivity.
  - split.
    + rewrite Z.land_ones by lia. change (2 ^ 10) with 1024. change (2 ^ 16) with 65536.
      rewrite (Z.mod_small cfg 1024) by lia. apply Z.mod_small. lia.
    + unfold Etzpc.TZMA_PM_LOCK_BIT. rewrite Hno. reflexivity.
Qed.

(** A save loop whose body only reads leaves the register file as it
    was and fills one entry per index. *)
Lemma pm_save_loop_regfile (body : Z -> mmio Z) (P : Z -> Z -> Prop) (m : hw regfile) :
  (forall n, exists c t, run regfile (body n) m = (Done c, m, t) /\ writes_of t = [] /\ P n c) ->
  forall count from, exists xs t,
    run regfile (Etzpc.pm_save_loop body from count) m = (Done xs, m, t) /\
    writes_of t = [] /\ length xs = count /\
    forall (k : nat) c, xs !! k = Some c -> P (from + Z.of_nat k) c.
Proof.
  intros Hbody. induction count as [|count IH]; intros from.
  - exists [], []. repeat split; try reflexivity. intros k c H. destruct k; discriminate H.
  - destruct (Hbody from) as (c0 & t0 & E0 & W0 & P0).
    destruct (IH (from + 1)) as (xs & t1 & E1 & W1 & L1 & P1).
    exists (c0 :: xs), (t0 ++ t1 ++ []).
    cbn [Etzpc.pm_save_loop]. rewrite run_bind, E0. cbv beta iota zeta.
    rewrite run_bind, E1. cbn [run]. cbv beta iota zeta.
    split; [reflexivity|]. split; [|split].
    + rewrite !writes_of_app, W0, W1. reflexivity.
    + cbn [length]. rewrite L1. reflexivity.
    + intros k c H. destruct k as [|k].
      * inversion H; subst. replace (from + Z.of_nat 0) with from by lia. exact P0.
      * replace (from + Z.of_nat (S k)) with (from + 1 + Z.of_nat k) by lia.
        apply P1. exact H.
Qed.

Lemma pm_restore_periph_regfile dev n c (s : hw regfile) :
  0 <= n < 128 ->
  let r := run regfile (Etzpc.pm_restore_periph dev n c) s in
  fst (fst r) = Done tt /\
  Etzpc.decprot_field dev (snd (fst r)) n
  = Z.land (Z.land c Etzpc.PERIPH_PM_ATTR_MASK) Etzpc.ETZPC_DECPROT0_MASK /\
  (forall i, 0 <= i < 128 -> i <> n ->
     Etzpc.decprot_field dev (snd (fst r)) i = Etzpc.decprot_field dev s i).
Proof.
  intros Hn r.
  destruct (configure_word_regfile dev s n (Z.land c Etzpc.PERIPH_PM_ATTR_MASK) ltac:(lia))
    as (Hd & Hf & Hother & _).
  subst r. unfold Etzpc.pm_restore_periph. rewrite run_bind.
  destruct (run regfile (Etzpc.etzpc_do_configure_decprot_word dev n
              (Z.land c Etzpc.PERIPH_PM_ATTR_MASK)) s) as [[r1 s1] t1].
  cbn [fst snd] in Hd, Hf, Hother. subst r1.
  destruct (nz (Z.land c Etzpc.PERIPH_PM_LOCK_BIT)); cbn [when].
  - unfold Etzpc.etzpc_do_lock_decprot, io_write32.
    cbn [run regfile hw hw_write fst snd].
    assert (Hfr : forall i, 0 <= i < 128 ->
              Etzpc.decprot_field dev
                (fun a' => if a' =? Etzpc.decprot_lock_addr dev n
                           then BIT (n mod Etzpc.IDS_PER_DECPROT_LOCK_REGS) else s1 a') i
              = Etzpc.decprot_field dev s1 i).
    { intros i Hi. unfold Etzpc.decprot_field.
      rewrite (proj2 (Z.eqb_neq _ _)
                 (not_eq_sym (decprot_lock_apart dev i n Hi ltac:(lia)))).
      reflexivity. }
    split; [reflexivity|]. split.
    + rewrite Hfr by lia. exact Hf.
    + intros i Hi Hne. rewrite Hfr by lia. apply Hother; lia.
  - cbn [run fst snd]. split; [reflexivity|]. split; [exact Hf|].
    intros i Hi Hne. apply Hother; lia.
Qed.

Lemma pm_restore_periph_loop dev table :
  forall from (s : hw regfile),
  0 <= from -> from + Z.of_nat (length table) <= 128 ->
  let r := run regfile (Etzpc.pm_restore_loop (Etzpc.pm_restore_periph dev) from table) s in
  fst (fst r) = Done tt /\
  (forall (k : nat) c, table !! k = Some c ->
     Etzpc.decprot_field dev (snd (fst r)) (from + Z.of_nat k)
     = Z.land (Z.land c Etzpc.PERIPH_PM_ATTR_MASK) Etzpc.ETZPC_DECPROT0_MASK) /\
  (forall i, 0 <= i < from ->
     Etzpc.decprot_field dev (snd (fst r)) i = Etzpc.decprot_field dev s i).
Proof.
  induction table as [|c0 table IH]; intros from s Hfrom Hlen r; subst r.
  - cbn [Etzpc.pm_restore_loop run fst snd]. split; [reflexivity|]. split.
    + intros k c H. destruct k; discriminate H.
    + reflexivity.
  - cbn [length] in Hlen. cbn [Etzpc.pm_restore_loop]. rewrite run_bind.
    destruct (pm_restore_periph_regfile dev from c0 s ltac:(lia)) as (Hd & Hf & Hother).
    destruct (run regfile (Etzpc.pm_restore_periph dev from c0) s) as [[r1 s1] t1].
    cbn [fst snd] in Hd, Hf, Hother. subst r1.
    destruct (IH (from + 1) s1 ltac:(lia) ltac:(lia)) as (Hd2 & Hk & Hlow).
    destruct (run regfile (Etzpc.pm_restore_loop (Etzpc.pm_restore_periph dev) (from + 1) table)
                s1) as [[r2 s2] t2].
    cbn [fst snd] in Hd2, Hk, Hlow |- *. subst r2.
    split; [reflexivity|]. split.
    + intros k c H. destruct k as [|k].
      * inversion H; subst. replace (from + Z.of_nat 0) with from by lia.
        rewrite Hlow by lia. exact Hf.
      * replace (from + Z.of_nat (S k)) with (from + 1 + Z.of_nat k) by lia.
        apply Hk. exact H.
    + intros i Hi. rewrite Hlow by lia. apply Hother; lia.
Qed.

Lemma pm_restore_tzma_regfile dev n c (s : hw regfile) :
  let v := Z.land c Etzpc.TZMA_PM_VALUE_MASK mod 2 ^ 16 in
  let r := run regfile (Etzpc.pm_restore_tzma dev n c) s in
  fst (fst r) = Done tt /\
  snd (fst r) (Etzpc.tzma_addr dev n)
  = (if nz (Z.land c Etzpc.TZMA_PM_LOCK_BIT)
     then Z.lor (wrap32 v) Etzpc.ETZPC_TZMA0_SIZE_LOCK else v) /\
  (forall a, a <> Etzpc.tzma_addr dev n -> snd (fst r) a = s a).
Proof.
  intros v r. subst r. unfold Etzpc.pm_restore_tzma, Etzpc.etzpc_do_configure_tzma,
    Etzpc.etzpc_do_lock_tzma, io_setbits32, io_read32, io_write32.
  fold v.
  destruct (nz (Z.land c Etzpc.TZMA_PM_LOCK_BIT)); cbn [when bind run regfile hw hw_read
    hw_write fst snd].
  - rewrite !Z.eqb_refl. split; [reflexivity|]. split; [reflexivity|].
    intros a Ha. rewrite !(proj2 (Z.eqb_neq _ _) Ha). reflexivity.
  - rewrite !Z.eqb_refl. split; [reflexivity|]. split; [reflexivity|].
    intros a Ha. rewrite !(proj2 (Z.eqb_neq _ _) Ha). reflexivity.
Qed.

Lemma pm_restore_tzma_loop dev table :
  forall from (s : hw regfile),
  let r := run regfile (Etzpc.pm_restore_loop (Etzpc.pm_restore_tzma dev) from table) s in
  fst (fst r) = Done tt /\
  (forall (k : nat) c, table !! k = Some c ->
     snd (fst r) (Etzpc.tzma_addr dev (from + Z.of_nat k))
     = (if nz (Z.land c Etzpc.TZMA_PM_LOCK_BIT)
        then Z.lor (wrap32 (Z.land c Etzpc.TZMA_PM_VALUE_MASK mod 2 ^ 16))
               Etzpc.ETZPC_TZMA0_SIZE_LOCK
        else Z.land c Etzpc.TZMA_PM_VALUE_MASK mod 2 ^ 16)) /\
  (forall a, (forall k : nat, (k < length table)%nat ->
                a <> Etzpc.tzma_addr dev (from + Z.of_nat k)) ->
     snd (fst r) a = s a).
Proof.
  induction table as [|c0 table IH]; intros from s r; subst r.
  - cbn [Etzpc.pm_restore_loop run fst snd]. split; [reflexivity|]. split.
    + intros k c H. destruct k; discriminate H.
    + reflexivity.
  - cbn [Etzpc.pm_restore_loop]. rewrite run_bind.
    destruct (pm_restore_tzma_regfile dev from c0 s) as (Hd & Hv & Hfr).
    destruct (run regfile (Etzpc.pm_restore_tzma dev from c0) s) as [[r1 s1] t1].
    cbn [fst snd] in Hd, Hv, Hfr. subst r1.
    destruct (IH (from + 1) s1) as (Hd2 & Hk & Hframe).
    destruct (run regfile (Etzpc.pm_restore_loop (Etzpc.pm_restore_tzma dev) (from + 1) table)
                s1) as [[r2 s2] t2].
    cbn [fst snd] in Hd2, Hk, Hframe |- *. subst r2.
    split; [reflexivity|]. split.
    + intros k c H. destruct k as [|k].
      * inversion H; subst. replace (from + Z.of_nat 0) with from by lia.
        rewrite Hframe; [exact Hv|].
        intros k _. unfold Etzpc.tzma_addr. lia.
      * replace (from + Z.of_nat (S k)) with (from + 1 + Z.of_nat k) by lia.
        apply Hk. exact H.
    + intros a Ha. rewrite Hframe.
      * apply Hfr. specialize (Ha 0%nat ltac:(cbn [length]; lia)).
        replace (from + Z.of_nat 0) with from in Ha by lia. exact Ha.
      * intros k Hklt. specialize (Ha (S k) ltac:(cbn [length]; lia)).
        replace (from + Z.of_nat (S k)) with (from + 1 + Z.of_nat k) in Ha by lia. exact Ha.
Qed.

(** X29. Suspend followed by resume on a register file, for at most 128
    securable peripherals and at most 4 TZMA zones (so that the DECPROT,
    lock and TZMA registers are apart). Suspend only reads, leaves the
    registers as they were and fills one entry per peripheral and per TZMA
    zone. Resume from those tables, started on any register contents,
    succeeds and brings every peripheral back to the DECPROT attribute it
    had at suspend and every TZMA zone back to its lock state; the size of
    a zone comes back cut to its low eight bits. *)
Theorem etzpc_pm_suspend_resume (dev : Etzpc.etzpc_device) (m m0 : hw regfile) :
  0 <= Etzpc.num_per_sec dev <= 128 -> 0 <= Etzpc.num_tzma dev <= 4 ->
  exists periph tzma t,
    run regfile (Etzpc.etzpc_pm_suspend dev) m = (Done (TEE_SUCCESS, periph, tzma), m, t) /\
    writes_of t = [] /\
    length periph = Z.to_nat (Etzpc.num_per_sec dev) /\
    length tzma = Z.to_nat (Etzpc.num_tzma dev) /\
    let r := run regfile (Etzpc.etzpc_pm_resume dev periph tzma) m0 in
    let get {A} (q : mmio A) (s : hw regfile) := fst (fst (run regfile q s)) in
    fst (fst r) = Done TEE_SUCCESS /\
    (forall i, 0 <= i < Etzpc.num_per_sec dev ->
       get (Etzpc.etzpc_do_get_decprot dev i) (snd (fst r))
       = get (Etzpc.etzpc_do_get_decprot dev i) m) /\
    (forall k, 0 <= k < Etzpc.num_tzma dev ->
       (exists v, get (Etzpc.etzpc_do_get_tzma dev k) m = Done v /\
                  get (Etzpc.etzpc_do_get_tzma dev k) (snd (fst r)) = Done (v mod 2 ^ 8)) /\
       get (Etzpc.tzma_is_locked dev k) (snd (fst r)) = get (Etzpc.tzma_is_locked dev k) m).
Proof.
  intros Hper Htz.
  destruct (pm_save_loop_regfile (Etzpc.pm_save_periph dev)
              (fun n c => Z.land (Z.land c Etzpc.PERIPH_PM_ATTR_MASK) Etzpc.ETZPC_DECPROT0_MASK
                          = Etzpc.decprot_field dev m n) m
              (fun n => pm_save_periph_regfile dev n m) (Z.to_nat (Etzpc.num_per_sec dev)) 0)
    as (periph & tp & Ep & Wp & Lp & Pp).
  destruct (pm_save_loop_regfile (Etzpc.pm_save_tzma dev)
              (fun n c =>
                 Z.land c Etzpc.TZMA_PM_VALUE_MASK mod 2 ^ 16
                 = (wrap32 (m (Etzpc.tzma_addr dev n)) mod 2 ^ 16) mod 2 ^ 8 /\
                 nz (Z.land c Etzpc.TZMA_PM_LOCK_BIT)
                 = nz (Z.land (wrap32 (m (Etzpc.tzma_addr dev n))) Etzpc.ETZPC_TZMA0_SIZE_LOCK))
              m
              (fun n => pm_save_tzma_regfile dev n m) (Z.to_nat (Etzpc.num_tzma dev)) 0)
    as (tzma & tt_ & Et & Wt & Lt & Pt).
  exists periph, tzma, (tp ++ tt_ ++ []).
  split; [|split; [|split; [|split]]]; try assumption.
  - unfold Etzpc.etzpc_pm_suspend. rewrite run_bind, Ep. cbv beta iota zeta.
    rewrite run_bind, Et. reflexivity.
  - rewrite !writes_of_app, Wp, Wt. reflexivity.
  - cbv zeta. unfold Etzpc.etzpc_pm_resume.
    rewrite (take_ge periph) by lia. rewrite (take_ge tzma) by lia.
    rewrite run_bind.
    destruct (pm_restore_periph_loop dev periph 0 m0 ltac:(lia) ltac:(lia)) as (Hd1 & Hk1 & _).
    destruct (run regfile (Etzpc.pm_restore_loop (Etzpc.pm_restore_periph dev) 0 periph) m0)
      as [[r1 s1] t1].
    cbn [fst snd] in Hd1, Hk1. subst r1. cbv beta iota zeta.
    rewrite run_bind.
    destruct (pm_restore_tzma_loop dev tzma 0 s1) as (Hd2 & Hk2 & Hfr2).
    destruct (run regfile (Etzpc.pm_restore_loop (Etzpc.pm_restore_tzma dev) 0 tzma) s1)
      as [[r2 s2] t2].
    cbn [fst snd] in Hd2, Hk2, Hfr2. subst r2. cbn [run fst snd].
    split; [reflexivity|]. split.
    + intros i Hi. rewrite !get_decprot_regfile. cbn [fst]. do 2 f_equal.
      assert (Hl : is_Some (periph !! Z.to_nat i)) by (apply lookup_lt_is_Some_2; lia).
      destruct Hl as [c Hc].
      specialize (Hk1 _ _ Hc). specialize (Pp _ _ Hc). cbv beta in Pp.
      replace (0 + Z.of_nat (Z.to_nat i)) with i in Hk1, Pp by lia.
      rewrite <- Pp, <- Hk1. unfold Etzpc.decprot_field. rewrite Hfr2; [reflexivity|].
      intros k Hk. unfold Etzpc.decprot_addr, Etzpc.tzma_addr, Etzpc.ETZPC_DECPROT0,
        Etzpc.ETZPC_TZMA0_SIZE, Etzpc.IDS_PER_DECPROT_REGS.
      pose proof (Z.div_pos i 16 ltac:(lia) ltac:(lia)). lia.
    + intros k Hk.
      assert (Hl : is_Some (tzma !! Z.to_nat k)) by (apply lookup_lt_is_Some_2; lia).
      destruct Hl as [c Hc].
      specialize (Hk2 _ _ Hc). destruct (Pt _ _ Hc) as [Pv Pl].
      replace (0 + Z.of_nat (Z.to_nat k)) with k in Hk2, Pv, Pl by lia.
      unfold Etzpc.etzpc_do_get_tzma, Etzpc.tzma_is_locked, io_read32.
      cbn [bind run regfile hw hw_read fst snd]. rewrite Hk2, Pv.
      set (v := wrap32 (m (Etzpc.tzma_addr dev k)) mod 2 ^ 16) in *.
      assert (Hv8 : 0 <= v mod 2 ^ 8 < 256) by (apply Z.mod_pos_bound; lia).
      assert (Hu : in_u32 (v mod 2 ^ 8)) by (unfold in_u32; change (2 ^ 32) with 4294967296; lia).
      rewrite (wrap32_u32 _ Hu).
      assert (Hno : Z.land (v mod 2 ^ 8) (BIT 31) = 0).
      { rewrite land_BIT_cases by lia.
        rewrite (testbit_above (v mod 2 ^ 8) 8 31) by first [apply Z.mod_pos_bound; lia | lia].
        reflexivity. }
      rewrite <- Pl.
      destruct (nz (Z.land c Etzpc.TZMA_PM_LOCK_BIT)).
      * assert (Hor : Z.lor (v mod 2 ^ 8) Etzpc.ETZPC_TZMA0_SIZE_LOCK = v mod 2 ^ 8 + 2 ^ 31).
        { unfold Etzpc.ETZPC_TZMA0_SIZE_LOCK. rewrite <- Z.lxor_lor by exact Hno.
          rewrite <- Z.add_nocarry_lxor by exact Hno. reflexivity. }
        split.
        -- exists v. split; [reflexivity|]. f_equal. rewrite Hor.
           change (2 ^ 31) with 2147483648.
           rewrite wrap32_u32
             by (unfold in_u32; change (2 ^ 32) with 4294967296; lia).
           change (2 ^ 16) with 65536.
           replace (v mod 2 ^ 8 + 2147483648) with (v mod 2 ^ 8 + 32768 * 65536) by lia.
           rewrite Z.mod_add by lia. apply Z.mod_small. lia.
        -- f_equal. unfold Etzpc.ETZPC_TZMA0_SIZE_LOCK. rewrite land_BIT_cases by lia.
           rewrite wrap32_testbit, Z.lor_spec by lia.
           replace (Z.testbit (BIT 31) 31) with true by reflexivity.
           rewrite orb_true_r. reflexivity.
      * split.
        -- exists v. split; [reflexivity|]. f_equal.
           rewrite (wrap32_u32 _ Hu). apply Z.mod_small. change (2 ^ 16) with 65536. lia.
        -- f_equal. rewrite (wrap32_u32 _ Hu). unfold Etzpc.ETZPC_TZMA0_SIZE_LOCK.
           rewrite Hno. reflexivity.
Qed.

Lemma etzpc_pm_suspend_resume_witness :
  exists periph tzma t,
    run regfile (Etzpc.etzpc_pm_suspend Etzpc.sample_device) (fun a => a)
    = (Done (TEE_SUCCESS, periph, tzma), (fun a => a), t) /\
    writes_of t = [] /\
    length periph = Z.to_nat (Etzpc.num_per_sec Etzpc.sample_device) /\
    length tzma = Z.to_nat (Etzpc.num_tzma Etzpc.sample_device) /\
    let r := run regfile (Etzpc.etzpc_pm_resume Etzpc.sample_device periph tzma) (fun _ => 0) in
    let get {A} (q : mmio A) (s : hw regfile) := fst (fst (run regfile q s)) in
    fst (fst r) = Done TEE_SUCCESS /\
    (forall i, 0 <= i < Etzpc.num_per_sec Etzpc.sample_device ->
       get (Etzpc.etzpc_do_get_decprot Etzpc.sample_device i) (snd (fst r))
       = get (Etzpc.etzpc_do_get_decprot Etzpc.sample_device i) (fun a => a)) /\
    (forall k, 0 <= k < Etzpc.num_tzma Etzpc.sample_device ->
       (exists v, get (Etzpc.etzpc_do_get_tzma Etzpc.sample_device k) (fun a => a) = Done v /\
                  get (Etzpc.etzpc_do_get_tzma Etzpc.sample_device k) (snd (fst r))
                  = Done (v mod 2 ^ 8)) /\
       get (Etzpc.tzma_is_locked Etzpc.sample_device k) (snd (fst r))
       = get (Etzpc.tzma_is_locked Etzpc.sample_device k) (fun a => a)).
Proof.
  apply (etzpc_pm_suspend_resume Etzpc.sample_device (fun a => a) (fun _ => 0));
    vm_compute; intuition discriminate.
Defined.
(** *** The TZMA path of [stm32_etzpc_configure_memory] *)

Lemma configure_tzma_regfile dev (m : hw regfile) k size :
  0 <= size < 2 ^ 28 ->
  let r := run regfile (Etzpc.configure_tzma_unless_locked dev k size) m in
  fst (fst r) = Done TEE_SUCCESS ->
  size mod Etzpc.SMALL_PAGE_SIZE = 0 /\
  fst (fst (run regfile (Etzpc.etzpc_do_get_tzma dev k) (snd (fst r))))
  = Done (size / Etzpc.SMALL_PAGE_SIZE) /\
  fst (fst (run regfile (Etzpc.tzma_is_locked dev k) (snd (fst r))))
  = fst (fst (run regfile (Etzpc.tzma_is_locked dev k) m)) /\
  (forall a, a <> Etzpc.tzma_addr dev k -> snd (fst r) a = m a).
Proof.
  intros Hsize r Hok. subst r. revert Hok.
  unfold Etzpc.configure_tzma_unless_locked.
  destruct (Etzpc.IS_ALIGNED size Etzpc.SMALL_PAGE_SIZE) eqn:Hal; cbn [negb];
    [|cbn [run fst]; discriminate].
  assert (Hmod : size mod Etzpc.SMALL_PAGE_SIZE = 0).
  { unfold Etzpc.IS_ALIGNED in Hal. apply Z.eqb_eq in Hal.
    unfold Etzpc.SMALL_PAGE_SIZE in *. change (4096 - 1) with (Z.ones 12) in Hal.
    rewrite Z.land_ones in Hal by lia. exact Hal. }
  assert (Hdiv : Etzpc.ROUNDUP_DIV size Etzpc.SMALL_PAGE_SIZE = size / Etzpc.SMALL_PAGE_SIZE).
  { unfold Etzpc.ROUNDUP_DIV, Etzpc.SMALL_PAGE_SIZE in *.
    change (2 ^ 28) with 268435456 in Hsize.
    Z.to_euclidean_division_equations. lia. }
  rewrite Hdiv.
  assert (Hpages : 0 <= size / Etzpc.SMALL_PAGE_SIZE < 2 ^ 16).
  { unfold Etzpc.SMALL_PAGE_SIZE. change (2 ^ 28) with 268435456 in Hsize.
    change (2 ^ 16) with 65536. Z.to_euclidean_division_equations. lia. }
  set (pages := size / Etzpc.SMALL_PAGE_SIZE) in *.
  assert (Hu : in_u32 pages)
    by (unfold in_u32; change (2 ^ 32) with 4294967296; change (2 ^ 16) with 65536 in Hpages; lia).
  rewrite (wrap32_u32 _ Hu).
  unfold Etzpc.tzma_is_locked, Etzpc.etzpc_do_get_tzma, Etzpc.etzpc_do_configure_tzma,
    io_read32, io_write32.
  cbn [bind run regfile hw hw_read hw_write fst snd app].
  destruct (nz (Z.land (wrap32 (m (Etzpc.tzma_addr dev k))) Etzpc.ETZPC_TZMA0_SIZE_LOCK))
    eqn:Hlock.
  - cbn [bind run regfile hw hw_read hw_write fst snd app].
    destruct (Z.eqb_spec (wrap32 (m (Etzpc.tzma_addr dev k)) mod 2 ^ 16) pages) as [E|E];
      cbn [negb run fst snd]; [|discriminate].
    intros _. rewrite Hlock, E. split; [exact Hmod|]. repeat split; reflexivity.
  - cbn [bind run regfile hw hw_read hw_write fst snd app]. intros _.
    rewrite !Z.eqb_refl. rewrite (Z.mod_small pages (2 ^ 16)) by exact Hpages.
    rewrite (wrap32_u32 _ Hu). rewrite (Z.mod_small pages (2 ^ 16)) by exact Hpages.
    split; [exact Hmod|]. split; [reflexivity|]. split.
    + f_equal. unfold Etzpc.ETZPC_TZMA0_SIZE_LOCK. rewrite nz_land_BIT by lia.
      apply (testbit_above pages 16 31); [exact Hpages | lia].
    + intros a Ha. rewrite (proj2 (Z.eqb_neq _ _) Ha). reflexivity.
Qed.

(** X30. On a register file, a successful memory configuration that does
    not go through the internal-RAM path, for a size below [2 ^ 28],
    leaves the zone at exactly the requested number of pages, whether the
    zone was locked or not: the request names TZMA 0 or TZMA 1, starts at
    the base of its memory and does not exceed it, the size is a whole
    number of pages, the size read back is that number, the lock state of
    the zone is unchanged and no other register is changed. *)
Theorem etzpc_configure_memory_tzma_pages (pf : Etzpc.etzpc_platform)
  (dev : Etzpc.etzpc_device) (m : hw regfile) (arg0 paddr size : Z) :
  let id_ := Z.land arg0 (Etzpc.ETZPC_ID_MASK pf) in
  let r := run regfile (Etzpc.stm32_etzpc_configure_memory pf dev [arg0] paddr size) m in
  (id_ <? Etzpc.num_per_sec dev) && Etzpc.is_sram_id pf id_ = false ->
  0 <= size < 2 ^ 28 ->
  fst (fst r) = Done TEE_SUCCESS ->
  exists k,
    ((id_ = Etzpc.ETZPC_TZMA0_ID pf /\ k = 0 /\ paddr = Etzpc.ROM_BASE pf
      /\ size <= Etzpc.ROM_SIZE pf) \/
     (id_ = Etzpc.ETZPC_TZMA1_ID pf /\ k = 1 /\ paddr = Etzpc.SYSRAM_BASE pf
      /\ size <= Etzpc.SYSRAM_SIZE pf)) /\
    size mod Etzpc.SMALL_PAGE_SIZE = 0 /\
    fst (fst (run regfile (Etzpc.etzpc_do_get_tzma dev k) (snd (fst r))))
    = Done (size / Etzpc.SMALL_PAGE_SIZE) /\
    fst (fst (run regfile (Etzpc.tzma_is_locked dev k) (snd (fst r))))
    = fst (fst (run regfile (Etzpc.tzma_is_locked dev k) m)) /\
    (forall a, a <> Etzpc.tzma_addr dev k -> snd (fst r) a = m a).
Proof.
  intros id_ r Hpath Hsize Hok. subst r. revert Hok.
  unfold Etzpc.stm32_etzpc_configure_memory. fold id_. rewrite Hpath.
  destruct (Z.eqb_spec id_ (Etzpc.ETZPC_TZMA0_ID pf)) as [E0|E0].
  - destruct (Z.eqb_spec paddr (Etzpc.ROM_BASE pf)) as [Ep|Ep]; cbn [negb orb];
      [|cbn [run fst]; discriminate].
    destruct (Z.ltb_spec (Etzpc.ROM_SIZE pf) size) as [Es|Es]; [cbn [run fst]; discriminate|].
    intros Hok. exists 0. split; [left; auto|].
    apply configure_tzma_regfile; assumption.
  - destruct (Z.eqb_spec id_ (Etzpc.ETZPC_TZMA1_ID pf)) as [E1|E1];
      [|cbn [run fst]; discriminate].
    destruct (Z.eqb_spec paddr (Etzpc.SYSRAM_BASE pf)) as [Ep|Ep]; cbn [negb orb];
      [|cbn [run fst]; discriminate].
    destruct (Z.ltb_spec (Etzpc.SYSRAM_SIZE pf) size) as [Es|Es];
      [cbn [run fst]; discriminate|].
    intros Hok. exists 1. split; [right; auto|].
    apply configure_tzma_regfile; assumption.
Qed.

Lemma etzpc_configure_memory_tzma_pages_witness :
  let pf := Etzpc.sample_platform in
  let dev := Etzpc.sample_device in
  let m : hw regfile := fun _ => 0 in
  let r := run regfile (Etzpc.stm32_etzpc_configure_memory pf dev [201] 0x2FFC0000 0x20000) m in
  exists k,
    ((Z.land 201 (Etzpc.ETZPC_ID_MASK pf) = Etzpc.ETZPC_TZMA0_ID pf /\ k = 0
      /\ 0x2FFC0000 = Etzpc.ROM_BASE pf /\ 0x20000 <= Etzpc.ROM_SIZE pf) \/
     (Z.land 201 (Etzpc.ETZPC_ID_MASK pf) = Etzpc.ETZPC_TZMA1_ID pf /\ k = 1
      /\ 0x2FFC0000 = Etzpc.SYSRAM_BASE pf /\ 0x20000 <= Etzpc.SYSRAM_SIZE pf)) /\
    0x20000 mod Etzpc.SMALL_PAGE_SIZE = 0 /\
    fst (fst (run regfile (Etzpc.etzpc_do_get_tzma dev k) (snd (fst r))))
    = Done (0x20000 / Etzpc.SMALL_PAGE_SIZE) /\
    fst (fst (run regfile (Etzpc.tzma_is_locked dev k) (snd (fst r))))
    = fst (fst (run regfile (Etzpc.tzma_is_locked dev k) m)) /\
    (forall a, a <> Etzpc.tzma_addr dev k -> snd (fst r) a = m a).
Proof.
  apply (etzpc_configure_memory_tzma_pages Etzpc.sample_platform Etzpc.sample_device
           (fun _ => 0) 201 0x2FFC0000 0x20000);
    [reflexivity | vm_compute; intuition discriminate | reflexivity].
Defined.
